(** * A shallow embedding of the LeetCode proxy server (server/index.mjs)

    The development follows the source file top-down: JavaScript strings and
    values with the coercions the handlers rely on, the upstream request
    helpers ([lcFetch], [lcGraphql], [lcSubmit], [lcSubmissionCheck]), the
    two-query fallbacks, the profile normalisation, and the Express handlers
    together with the in-memory session store.

    Modelling conventions.
    - A JavaScript string is a [string] whose characters are read as code
      units below 256 (Latin-1).  On that range [trim], [toLowerCase] and the
      regular-expression class [\s] are modelled exactly.
    - A JavaScript number is [number]: NaN, the two infinities, or a finite
      double, kept as the rational it denotes.  Division and multiplication
      round to the nearest double ([JsNumber.round]); the sign of a zero is
      not kept.
    - [String(v)] and [Number(v)] throw a TypeError on an object that has an
      own property [toString] (which JSON cannot make callable):
      [Js.ToString] and [Js.ToNumber] are the conversions with that
      exception, [Js.toString] and [Js.toNumber] what they return when they
      return.  The list items, the search of the REST list and [lcSubmit]
      convert what the upstream sent and use the former.  The handlers
      convert the fields of the request with the latter: a theorem on a
      handler that converts a field of the request body says which fields
      it takes to be convertible ([Js.convertible]).
    - A [Headers] object stores a value stripped of leading and trailing
      HTTP white space.  It refuses a value that holds NUL, CR or LF with a
      TypeError, which [lcFetch] does not model: [lcFetch_valid] tells when
      the real builder returns, and the theorems on header values assume
      it.
    - Asynchronous code is a program of type [Prog A]: a tree of the effects
      the source performs ([fetch], reads and writes of the session map,
      [crypto.randomUUID]), interpreted by [run] against an arbitrary
      upstream.  A handler is run to completion; interleaving of concurrent
      requests is not modelled.
    - Library functions the source calls but does not define ([JSON.parse],
      [JSON.stringify], [encodeURIComponent], the string/number conversions)
      are fields of the class [JsLib]. *)

From Stdlib Require Import ZArith QArith Qabs Qpower Ascii String List Bool Lia Lqa.
From stdpp Require Import gmap strings list fin_maps pretty.

Set Default Proof Using "Type".
Set Warnings "-register-all".

(* ===================================================================== *)
(** * JavaScript strings *)
(* ===================================================================== *)

Module JsString.

(** White space and line terminators among the code units below 256:
    TAB, LF, VT, FF, CR, SPACE and NBSP.  This is the class [\s] of regular
    expressions and the set [String.prototype.trim] strips. *)
Definition is_ws (c : ascii) : bool :=
  match N_of_ascii c with
  | 9 | 10 | 11 | 12 | 13 | 32 | 160 => true
  | _ => false
  end%N.

(** [toLowerCase] on one code unit: A-Z, and the Latin-1 capitals
    U+00C0-U+00DE except the multiplication sign U+00D7. *)
Definition lower_char (c : ascii) : ascii :=
  let n := N_of_ascii c in
  if ((65 <=? n) && (n <=? 90))%N then ascii_of_N (n + 32)
  else if ((192 <=? n) && (n <=? 222) && negb (n =? 215))%N
       then ascii_of_N (n + 32)
  else c.

Fixpoint toLowerCase (s : string) : string :=
  match s with
  | EmptyString => EmptyString
  | String c r => String (lower_char c) (toLowerCase r)
  end.

Fixpoint trimStart (s : string) : string :=
  match s with
  | EmptyString => EmptyString
  | String c r => if is_ws c then trimStart r else s
  end.

Fixpoint trimEnd (s : string) : string :=
  match s with
  | EmptyString => EmptyString
  | String c r =>
      match trimEnd r with
      | EmptyString => if is_ws c then EmptyString else String c EmptyString
      | r' => String c r'
      end
  end.

Definition trim (s : string) : string := trimEnd (trimStart s).

Definition startsWith (s p : string) : bool := String.prefix p s.

Fixpoint endsWith (s suffix : string) : bool :=
  if String.eqb s suffix then true
  else match s with
       | EmptyString => false
       | String _ r => endsWith r suffix
       end.

Fixpoint includes (s q : string) : bool :=
  if String.prefix q s then true
  else match s with
       | EmptyString => false
       | String _ r => includes r q
       end.

Definition nonempty (s : string) : bool :=
  match s with EmptyString => false | _ => true end.

End JsString.

(* ===================================================================== *)
(** * JavaScript numbers and values *)
(* ===================================================================== *)

Inductive number : Type :=
| NaN
| PosInf
| NegInf
| Fin (q : Q).

Module JsNumber.

Definition Qpos_b (q : Q) : bool := negb (Qle_bool q 0).
Definition Qneg_b (q : Q) : bool := negb (Qle_bool 0 q).
Definition Qzero_b (q : Q) : bool := Qeq_bool q 0.

(** [a > b]; every comparison with NaN is false. *)
Definition gt (a b : number) : bool :=
  match a, b with
  | NaN, _ | _, NaN => false
  | PosInf, PosInf => false
  | PosInf, _ => true
  | _, PosInf => false
  | NegInf, _ => false
  | Fin _, NegInf => true
  | Fin x, Fin y => negb (Qle_bool x y)
  end.

Definition le (a b : number) : bool :=
  match a, b with
  | NaN, _ | _, NaN => false
  | _, _ => negb (gt a b)
  end.

Definition isFinite (a : number) : bool :=
  match a with Fin _ => true | _ => false end.

Definition sign_inf (positive : bool) : number :=
  if positive then PosInf else NegInf.

(** ** Rounding to a double

    [2^k] as a rational, for any integer [k]. *)
Definition pow2 (k : Z) : Q := (2 ^ k)%Q.

(** The exponent of a positive rational [n/d]: the [e] with
    [2^e <= n/d < 2^(e+1)]. *)
Definition ilog2 (n d : positive) : Z :=
  let e := (Z.log2 (Zpos n) - Z.log2 (Zpos d))%Z in
  if Qle_bool (pow2 e) (Zpos n # d) then e else (e - 1)%Z.

(** The integer nearest to [n/d], the even one of the two when [n/d] is
    half-way. *)
Definition nearest_even (n : Z) (d : positive) : Z :=
  let q := (n / Zpos d)%Z in
  let r := (n mod Zpos d)%Z in
  match (2 * r ?= Zpos d)%Z with
  | Lt => q
  | Gt => (q + 1)%Z
  | Eq => if Z.even q then q else (q + 1)%Z
  end.

(** The double nearest to the positive rational [n/d]: 53 significant bits
    above [2^-1022], a multiple of [2^-1074] below (the subnormals), and
    the infinity from [2^1024 - 2^970] on. *)
Definition round_pos (n d : positive) : number :=
  let e := ilog2 n d in
  let u := Z.max (e - 52) (-1074) in
  let scaled := ((Zpos n # d) * pow2 (- u))%Q in
  let m := nearest_even (Qnum scaled) (Qden scaled) in
  let v := (inject_Z m * pow2 u)%Q in
  if Qle_bool (pow2 1024) v then PosInf else Fin (Qred v).

Definition neg (a : number) : number :=
  match a with
  | NaN => NaN
  | PosInf => NegInf
  | NegInf => PosInf
  | Fin q => Fin (- q)
  end.

(** Round to nearest, ties to even. *)
Definition round (q : Q) : number :=
  let q' := Qred q in
  match Qnum q' with
  | Z0 => Fin 0
  | Zpos n => round_pos n (Qden q')
  | Zneg n => neg (round_pos n (Qden q'))
  end.

(** [a * b] *)
Definition mul (a b : number) : number :=
  match a, b with
  | NaN, _ | _, NaN => NaN
  | Fin x, Fin y => round (x * y)
  | Fin x, PosInf | PosInf, Fin x =>
      if Qzero_b x then NaN else sign_inf (Qpos_b x)
  | Fin x, NegInf | NegInf, Fin x =>
      if Qzero_b x then NaN else sign_inf (Qneg_b x)
  | PosInf, PosInf | NegInf, NegInf => PosInf
  | PosInf, NegInf | NegInf, PosInf => NegInf
  end.

(** [a / b] *)
Definition div (a b : number) : number :=
  match a, b with
  | NaN, _ | _, NaN => NaN
  | Fin x, Fin y =>
      if Qzero_b y
      then (if Qzero_b x then NaN else sign_inf (Qpos_b x))
      else round (x / y)
  | Fin _, (PosInf | NegInf) => Fin 0
  | PosInf, Fin y => sign_inf (negb (Qneg_b y))
  | NegInf, Fin y => sign_inf (Qneg_b y)
  | (PosInf | NegInf), (PosInf | NegInf) => NaN
  end.

Definition of_nat (n : nat) : number := Fin (inject_Z (Z.of_nat n)).

End JsNumber.

(** JSON values extended with [undefined]; an object is its list of
    own properties, looked up first match first. *)
Inductive value : Type :=
| VUndef
| VNull
| VBool (b : bool)
| VNum (n : number)
| VStr (s : string)
| VArr (items : list value)
| VObj (props : list (string * value)).

(** Exceptions a program can throw. *)
Inductive Exn : Type :=
| NetworkError (message : string)   (* [fetch] rejected *)
| BodyError                         (* reading the response body rejected *)
| SyntaxError                       (* [JSON.parse] / [resp.json()] *)
| TypeError (message : string).     (* property access on null/undefined, ... *)

(** An expression that may throw, followed by what uses its value. *)
Definition exn_bind {A B : Type} (r : Exn + A) (f : A -> Exn + B) : Exn + B :=
  match r with
  | inl e => inl e
  | inr a => f a
  end.

Declare Scope exn_scope.
Delimit Scope exn_scope with exn.
Notation "'let?' x ':=' r 'in' f" := (exn_bind r (fun x => f))
  (at level 10, x pattern, r at level 100, f at level 200) : exn_scope.

(** Functions of the JavaScript runtime that the source calls and does not
    define. *)
Class JsLib : Type := {
  JSON_parse : string -> option value;        (* [None]: SyntaxError *)
  JSON_stringify : value -> string;
  encodeURIComponent : string -> string;
  Number_of_string : string -> number;        (* [Number(s)] on a string *)
  Number_toString : number -> string;         (* [String(n)] on a number *)
}.

Module Js.

Fixpoint assoc (k : string) (props : list (string * value)) : option value :=
  match props with
  | [] => None
  | (k', v) :: rest => if String.eqb k k' then Some v else assoc k rest
  end.

(** [!!v] *)
Definition truthy (v : value) : bool :=
  match v with
  | VUndef | VNull => false
  | VBool b => b
  | VNum NaN => false
  | VNum (Fin q) => negb (JsNumber.Qzero_b q)
  | VNum _ => true
  | VStr s => JsString.nonempty s
  | VArr _ | VObj _ => true
  end.

(** [v == null] *)
Definition nullish (v : value) : bool :=
  match v with VUndef | VNull => true | _ => false end.

(** [a || b] and [a ?? b] *)
Definition or (a b : value) : value := if truthy a then a else b.
Definition coalesce (a b : value) : value := if nullish a then b else a.

(** [typeof v === 'boolean'], [typeof v === 'number'], [Array.isArray] *)
Definition is_boolean (v : value) : bool :=
  match v with VBool _ => true | _ => false end.
Definition is_number (v : value) : bool :=
  match v with VNum _ => true | _ => false end.
Definition isArray (v : value) : bool :=
  match v with VArr _ => true | _ => false end.

(** Property read [v.k] for the property names the source uses.  Reading
    from [null] or [undefined] throws; arrays and strings own [length];
    any other property of a non-object is [undefined]. *)
Definition get (v : value) (k : string) : Exn + value :=
  match v with
  | VUndef | VNull => inl (TypeError "Cannot read properties of null or undefined")
  | VObj props => inr (default VUndef (assoc k props))
  | VArr items =>
      inr (if String.eqb k "length" then VNum (JsNumber.of_nat (length items))
           else VUndef)
  | VStr s =>
      inr (if String.eqb k "length" then VNum (JsNumber.of_nat (String.length s))
           else VUndef)
  | VBool _ | VNum _ => inr VUndef
  end.

(** [v?.k] *)
Definition get_opt (v : value) (k : string) : value :=
  match get v k with
  | inl _ => VUndef
  | inr x => x
  end.

(** Property write on an own-property list. *)
Fixpoint set_assoc (k : string) (x : value) (props : list (string * value))
  : list (string * value) :=
  match props with
  | [] => [(k, x)]
  | (k', v) :: rest =>
      if String.eqb k k' then (k, x) :: rest else (k', v) :: set_assoc k x rest
  end.

(** [v === w] against a boolean literal. *)
Definition strict_eq_bool (v : value) (b : bool) : bool :=
  match v with
  | VBool b' => Bool.eqb b' b
  | _ => false
  end.

(** Whether the conversion of [v] to a primitive returns.  The conversion
    of an object calls its [toString] (for [String(v)] at once, for
    [Number(v)] after [valueOf], whose inherited version returns the object
    itself): the one of [Object.prototype] returns, and an own property
    [toString], which in a JSON value is never a function, makes the
    conversion throw a TypeError.  The [toString] of an array joins its
    elements, converting those that are neither [null] nor [undefined]. *)
Fixpoint convertible (v : value) : bool :=
  match v with
  | VObj props =>
      match assoc "toString" props with
      | Some _ => false
      | None => true
      end
  | VArr items => forallb (fun x => nullish x || convertible x) items
  | _ => true
  end.

Definition CONVERSION_ERROR : Exn :=
  TypeError "Cannot convert object to primitive value".

Section Conversions.
Context `{JsLib}.

Fixpoint join (sep : string) (parts : list string) : string :=
  match parts with
  | [] => ""
  | [p] => p
  | p :: rest => p +:+ sep +:+ join sep rest
  end.

(** What [String(v)] returns, when it returns. *)
Fixpoint toString (v : value) : string :=
  match v with
  | VUndef => "undefined"
  | VNull => "null"
  | VBool true => "true"
  | VBool false => "false"
  | VNum n => Number_toString n
  | VStr s => s
  | VArr items =>
      join "," (map (fun x => if nullish x then "" else toString x) items)
  | VObj _ => "[object Object]"
  end.

(** What [Number(v)] returns, when it returns. *)
Definition toNumber (v : value) : number :=
  match v with
  | VUndef => NaN
  | VNull => Fin 0
  | VBool true => Fin 1
  | VBool false => Fin 0
  | VNum n => n
  | VStr s => Number_of_string s
  | VArr _ | VObj _ => Number_of_string (toString v)
  end.

(** [String(v)] and [Number(v)] *)
Definition ToString (v : value) : Exn + string :=
  if convertible v then inr (toString v) else inl CONVERSION_ERROR.

Definition ToNumber (v : value) : Exn + number :=
  if convertible v then inr (toNumber v) else inl CONVERSION_ERROR.
End Conversions.

End Js.

(* ===================================================================== *)
(** * Upstream requests, sessions and the effects of a handler *)
(* ===================================================================== *)

(** The [Headers] object of the Fetch API: a map from lower-cased header
    names to values.  A value is stored without its leading and trailing
    HTTP white space (TAB, LF, CR, SPACE).  The real object throws a
    TypeError on a name that is not a token and on a value that holds NUL,
    CR or LF once stripped; [valid_name] and [valid_value] tell when it
    does not, and the operations below are what it does then. *)
Module Headers.

Definition is_http_ws (c : ascii) : bool :=
  match N_of_ascii c with
  | 9 | 10 | 13 | 32 => true
  | _ => false
  end%N.

Fixpoint strip_start (s : string) : string :=
  match s with
  | EmptyString => EmptyString
  | String c r => if is_http_ws c then strip_start r else s
  end.

Fixpoint strip_end (s : string) : string :=
  match s with
  | EmptyString => EmptyString
  | String c r =>
      match strip_end r with
      | EmptyString => if is_http_ws c then EmptyString else String c EmptyString
      | r' => String c r'
      end
  end.

Definition normalize (v : string) : string := strip_end (strip_start v).

Definition forbidden (c : ascii) : bool :=
  match N_of_ascii c with
  | 0 | 10 | 13 => true
  | _ => false
  end%N.

Fixpoint clean (s : string) : bool :=
  match s with
  | EmptyString => true
  | String c r => negb (forbidden c) && clean r
  end.

Definition valid_value (v : string) : bool := clean (normalize v).

(** The characters of a token: the letters, the digits and
    [!#$%&'*+-.^_`|~]. *)
Definition is_token_char (c : ascii) : bool :=
  let n := N_of_ascii c in
  ((48 <=? n) && (n <=? 57) || (65 <=? n) && (n <=? 90)
   || (97 <=? n) && (n <=? 122)
   || (n =? 33) || (35 <=? n) && (n <=? 39) || (n =? 42) || (n =? 43)
   || (n =? 45) || (n =? 46) || (94 <=? n) && (n <=? 96) || (n =? 124)
   || (n =? 126))%N.

Fixpoint all_token (s : string) : bool :=
  match s with
  | EmptyString => true
  | String c r => is_token_char c && all_token r
  end.

Definition valid_name (name : string) : bool :=
  JsString.nonempty name && all_token name.

Definition lower_name_char (c : ascii) : ascii :=
  let n := N_of_ascii c in
  if ((65 <=? n) && (n <=? 90))%N then ascii_of_N (n + 32) else c.

Fixpoint lower_name (s : string) : string :=
  match s with
  | EmptyString => EmptyString
  | String c r => String (lower_name_char c) (lower_name r)
  end.

Definition has (h : gmap string string) (name : string) : bool :=
  bool_decide (is_Some (h !! lower_name name)).

Definition set (h : gmap string string) (name v : string) : gmap string string :=
  <[lower_name name := normalize v]> h.

Definition append (h : gmap string string) (name v : string) : gmap string string :=
  match h !! lower_name name with
  | Some old => <[lower_name name := old +:+ ", " +:+ normalize v]> h
  | None => <[lower_name name := normalize v]> h
  end.

(** [new Headers(obj)]: the properties of [obj] appended in order. *)
Definition of_init (init : list (string * string)) : gmap string string :=
  fold_left (fun h kv => append h (fst kv) (snd kv)) init ∅.

(** [new Headers(obj)] returns. *)
Definition valid_init (init : list (string * string)) : bool :=
  forallb (fun kv => valid_name (fst kv) && valid_value (snd kv)) init.

End Headers.

(** The second argument of [fetch]. *)
Record RequestInit : Type := {
  init_method : option string;
  init_headers : list (string * string);
  init_body : option string;
}.

(** What reaches the network: [fetch(url, { ...init, headers })]. *)
Record FetchRequest : Type := {
  rq_url : string;
  rq_method : option string;
  rq_headers : gmap string string;
  rq_body : option string;
}.

(** An upstream response: the status code and the body text, [None] when
    reading the body rejects. *)
Record UpResponse : Type := {
  up_status : Z;
  up_text : option string;
}.

Definition up_ok (r : UpResponse) : bool :=
  ((200 <=? up_status r) && (up_status r <=? 299))%Z.

Inductive FetchOutcome : Type :=
| Unreachable (message : string)      (* the promise of [fetch] rejects *)
| Responded (r : UpResponse).

(** A session record, [{ domain, cookie, csrftoken, user, acceptLanguage }];
    a field is [None] when the object has no such property (the anonymous
    session built for leetcode.cn has no cookie and no csrftoken). *)
Record Session : Type := {
  domain : option string;
  cookie : option string;
  csrftoken : option string;
  user : value;
  acceptLanguage : option string;
}.

(** Programs: the effects of the server, as a tree. *)
Inductive Prog (A : Type) : Type :=
| Ret (a : A)
| Throw (e : Exn)
| Fetch (rq : FetchRequest) (k : FetchOutcome -> Prog A)
| ReadSessions (k : gmap string Session -> Prog A)
| WriteSessions (m : gmap string Session) (k : Prog A)
| RandomUUID (k : string -> Prog A).

Arguments Ret {A} a.
Arguments Throw {A} e.
Arguments Fetch {A} rq k.
Arguments ReadSessions {A} k.
Arguments WriteSessions {A} m k.
Arguments RandomUUID {A} k.

Fixpoint bind {A B : Type} (p : Prog A) (f : A -> Prog B) : Prog B :=
  match p with
  | Ret a => f a
  | Throw e => Throw e
  | Fetch rq k => Fetch rq (fun o => bind (k o) f)
  | ReadSessions k => ReadSessions (fun m => bind (k m) f)
  | WriteSessions m k => WriteSessions m (bind k f)
  | RandomUUID k => RandomUUID (fun u => bind (k u) f)
  end.

Declare Scope prog_scope.
Delimit Scope prog_scope with prog.
Notation "'let*' x ':=' p 'in' q" := (bind p (fun x => q))
  (at level 10, x pattern, p at level 100, q at level 200) : prog_scope.
Notation "p ';;' q" := (bind p (fun _ => q))
  (at level 100, q at level 200, right associativity) : prog_scope.

(** A property read that may throw, lifted into programs. *)
Definition lift {A : Type} (r : Exn + A) : Prog A :=
  match r with
  | inl e => Throw e
  | inr a => Ret a
  end.

(** [await fetch(...)] *)
Definition fetch (rq : FetchRequest) : Prog UpResponse :=
  Fetch rq (fun o =>
    match o with
    | Unreachable m => Throw (NetworkError m)
    | Responded r => Ret r
    end).

(** [await resp.text()] *)
Definition resp_text (r : UpResponse) : Prog string :=
  match up_text r with
  | Some t => Ret t
  | None => Throw BodyError
  end.

(** The outside world: what the upstream answers and which identifiers
    [crypto.randomUUID] draws. *)
Class World (W : Type) : Type := {
  fetch_step : W -> FetchRequest -> FetchOutcome * W;
  uuid_step : W -> string * W;
}.

Inductive Completion (A : Type) : Type :=
| Returned (a : A)
| Threw (e : Exn).
Arguments Returned {A} a.
Arguments Threw {A} e.

(** The outcome of running a program: how it completed, the session map and
    the world it left, and the requests it sent, oldest first. *)
Record Exec (W A : Type) : Type := {
  result : Completion A;
  sessions : gmap string Session;
  world : W;
  trace : list FetchRequest;
}.
Arguments result {W A} _.
Arguments sessions {W A} _.
Arguments world {W A} _.
Arguments trace {W A} _.

Definition sent {W A} (rq : FetchRequest) (e : Exec W A) : Exec W A :=
  {| result := result e; sessions := sessions e; world := world e;
     trace := rq :: trace e |}.

Fixpoint run {W} `{World W} {A : Type}
    (p : Prog A) (w : W) (m : gmap string Session) : Exec W A :=
  match p with
  | Ret a => {| result := Returned a; sessions := m; world := w; trace := [] |}
  | Throw e => {| result := Threw e; sessions := m; world := w; trace := [] |}
  | Fetch rq k =>
      let '(o, w') := fetch_step w rq in sent rq (run (k o) w' m)
  | ReadSessions k => run (k m) w m
  | WriteSessions m' k => run k w m'
  | RandomUUID k =>
      let '(u, w') := uuid_step w in run (k u) w' m
  end.

(* ===================================================================== *)
(** * The request helpers *)
(* ===================================================================== *)

(** The object a helper returns: [{ ok: true, status, ... }] or
    [{ ok: false, status, error, raw }]. *)
Inductive Result (P : Type) : Type :=
| Ok (status : Z) (payload : P)
| Failed (status : Z) (error : string) (raw : value).
Arguments Ok {P} status payload.
Arguments Failed {P} status error raw.

Definition ok {P} (r : Result P) : bool :=
  match r with Ok _ _ => true | Failed _ _ _ => false end.

Definition num_of_Z (z : Z) : number := Fin (inject_Z z).

(** A result as the JavaScript object it is, for the fields [detail] of
    error responses. *)
Definition result_value (r : Result value) : value :=
  match r with
  | Ok st d =>
      VObj [("ok", VBool true); ("status", VNum (num_of_Z st)); ("data", d)]
  | Failed st e raw =>
      VObj [("ok", VBool false); ("status", VNum (num_of_Z st));
            ("error", VStr e); ("raw", raw)]
  end.

Definition submit_result_value (r : Result number) : value :=
  match r with
  | Ok st n =>
      VObj [("ok", VBool true); ("status", VNum (num_of_Z st));
            ("submissionId", VNum n)]
  | Failed st e raw =>
      VObj [("ok", VBool false); ("status", VNum (num_of_Z st));
            ("error", VStr e); ("raw", raw)]
  end.

Definition PRIMARY_DOMAIN : string := "leetcode.com".
Definition ZH_PREFERENCE : string := "zh-CN,zh;q=0.9,en;q=0.8".

(** [session?.f] when truthy. *)
Definition truthy_field (session : option Session)
    (f : Session -> option string) : option string :=
  match session with
  | Some s =>
      match f s with
      | Some v => if JsString.nonempty v then Some v else None
      | None => None
      end
  | None => None
  end.

(** [session?.domain || 'leetcode.com'] *)
Definition domain_of (session : option Session) : string :=
  default PRIMARY_DOMAIN (truthy_field session domain).

Definition lcFetch_url (session : option Session) (path : string) : string :=
  if JsString.startsWith path "http" then path
  else "https://" +:+ domain_of session +:+ path.

Definition lcFetch_headers (session : option Session)
    (init : RequestInit) : gmap string string :=
  let dom := domain_of session in
  let headers := Headers.of_init (init_headers init) in
  let headers :=
    match truthy_field session cookie with
    | Some c => Headers.set headers "cookie" c
    | None => headers
    end in
  let headers :=
    match truthy_field session csrftoken with
    | Some t => Headers.set headers "x-csrftoken" t
    | None => headers
    end in
  let headers :=
    match truthy_field session acceptLanguage with
    | Some l =>
        if negb (Headers.has headers "accept-language")
        then Headers.set headers "accept-language" l
        else headers
    | None => headers
    end in
  let headers :=
    if negb (Headers.has headers "referer")
    then Headers.set headers "referer" ("https://" +:+ dom +:+ "/")
    else headers in
  let headers :=
    if negb (Headers.has headers "origin")
    then Headers.set headers "origin" ("https://" +:+ dom)
    else headers in
  headers.

Definition lcFetch_request (session : option Session) (path : string)
    (init : RequestInit) : FetchRequest :=
  {| rq_url := lcFetch_url session path;
     rq_method := init_method init;
     rq_headers := lcFetch_headers session init;
     rq_body := init_body init |}.

(** Whether the real [lcFetch] reaches its call of [fetch]: the caller's
    headers and each value it sets are accepted by [Headers].  The session
    of a sign-in is passed to [lcFetch] before it is stored, so the stored
    sessions are among those for which this holds. *)
Definition valid_opt (o : option string) : bool :=
  match o with
  | Some v => Headers.valid_value v
  | None => true
  end.

Definition lcFetch_valid (session : option Session) (init : RequestInit) : bool :=
  let dom := domain_of session in
  let caller := Headers.of_init (init_headers init) in
  Headers.valid_init (init_headers init)
  && valid_opt (truthy_field session cookie)
  && valid_opt (truthy_field session csrftoken)
  && (Headers.has caller "accept-language"
      || valid_opt (truthy_field session acceptLanguage))
  && (Headers.has caller "referer"
      || Headers.valid_value ("https://" +:+ dom +:+ "/"))
  && (Headers.has caller "origin"
      || Headers.valid_value ("https://" +:+ dom)).

(** [lcFetch], for a session and headers that [Headers] accepts. *)
Definition lcFetch (session : option Session) (path : string)
    (init : RequestInit) : Prog UpResponse :=
  fetch (lcFetch_request session path init).

Section Helpers.
Context `{JsLib}.
Local Open Scope prog_scope.

(** [await resp.text().catch(() => '')], then
    [try { json = rawText ? JSON.parse(rawText) : null } catch {}] *)
Definition text_or_empty (r : UpResponse) : string := default "" (up_text r).

Definition parse_or_null (rawText : string) : value :=
  if JsString.nonempty rawText then default VNull (JSON_parse rawText)
  else VNull.

Definition lcSubmit_init (session : option Session) (titleSlug : string)
    (questionId : value) (lang typedCode : string) : RequestInit :=
  {| init_method := Some "POST";
     init_headers :=
       [("content-type", "application/json");
        ("x-requested-with", "XMLHttpRequest");
        ("referer", "https://" +:+ domain_of session +:+ "/problems/"
                    +:+ encodeURIComponent titleSlug +:+ "/")];
     init_body :=
       Some (JSON_stringify
               (VObj [("lang", VStr lang); ("question_id", questionId);
                      ("typed_code", VStr typedCode)])) |}.

Definition lcSubmit (session : option Session) (titleSlug : string)
    (questionId : value) (lang typedCode : string) : Prog (Result number) :=
  let* resp :=
    lcFetch session
      ("/problems/" +:+ encodeURIComponent titleSlug +:+ "/submit/")
      (lcSubmit_init session titleSlug questionId lang typedCode) in
  let rawText := text_or_empty resp in
  let json := parse_or_null rawText in
  if negb (up_ok resp) then
    Ret (Failed (up_status resp) "HTTP_ERROR" (Js.coalesce json (VStr rawText)))
  else
    let submissionId :=
      Js.coalesce (Js.get_opt json "submission_id")
                  (Js.get_opt json "submissionId") in
    if negb (Js.truthy submissionId) then
      Ret (Failed (up_status resp) "NO_SUBMISSION_ID"
                  (Js.coalesce json (VStr rawText)))
    else
      let* n := lift (Js.ToNumber submissionId) in
      Ret (Ok (up_status resp) n).

Definition lcSubmissionCheck_init (session : option Session)
    (submissionId : number) (titleSlug : option string) : RequestInit :=
  let referer :=
    match titleSlug with
    | Some slug =>
        if JsString.nonempty slug
        then "https://" +:+ domain_of session +:+ "/problems/"
             +:+ encodeURIComponent slug +:+ "/submissions/"
        else "https://" +:+ domain_of session +:+ "/submissions/detail/"
             +:+ encodeURIComponent (Number_toString submissionId) +:+ "/"
    | None =>
        "https://" +:+ domain_of session +:+ "/submissions/detail/"
        +:+ encodeURIComponent (Number_toString submissionId) +:+ "/"
    end in
  {| init_method := Some "GET";
     init_headers :=
       [("x-requested-with", "XMLHttpRequest"); ("referer", referer)];
     init_body := None |}.

Definition lcSubmissionCheck (session : option Session)
    (submissionId : number) (titleSlug : option string)
  : Prog (Result value) :=
  let* resp :=
    lcFetch session
      ("/submissions/detail/"
       +:+ encodeURIComponent (Number_toString submissionId) +:+ "/check/")
      (lcSubmissionCheck_init session submissionId titleSlug) in
  let rawText := text_or_empty resp in
  let json := parse_or_null rawText in
  if negb (up_ok resp) then
    Ret (Failed (up_status resp) "HTTP_ERROR" (Js.coalesce json (VStr rawText)))
  else
    Ret (Ok (up_status resp) json).

Definition lcGraphql_init (query : string) (variables : value) : RequestInit :=
  {| init_method := Some "POST";
     init_headers := [("content-type", "application/json")];
     init_body :=
       Some (JSON_stringify
               (VObj [("query", VStr query); ("variables", variables)])) |}.

Definition lcGraphql (session : option Session) (query : string)
    (variables : value) : Prog (Result value) :=
  let* resp := lcFetch session "/graphql/" (lcGraphql_init query variables) in
  let* text := resp_text resp in
  match JSON_parse text with
  | None => Ret (Failed (up_status resp) "INVALID_JSON" (VStr text))
  | Some json =>
      if negb (up_ok resp) then
        Ret (Failed (up_status resp) "HTTP_ERROR" json)
      else
        let* errors := lift (Js.get json "errors") in
        if Js.truthy (Js.get_opt errors "length") then
          Ret (Failed 200 "GRAPHQL_ERROR" json)
        else
          let* data := lift (Js.get json "data") in
          Ret (Ok 200 data)
  end.

End Helpers.

(* ===================================================================== *)
(** * Cookie parsing, profile normalisation, query texts *)
(* ===================================================================== *)

(** [extractCookieValue(cookieStr, name)]: the first capture of the
    case-insensitive regular expression built from [name]: either the start
    of the input, or a semicolon and any run of white space; then [name], an
    equals sign, and a captured non-empty run of characters other than the
    semicolon.  [name] is taken literally, as for the two names the callers
    pass ([csrftoken] and [LEETCODE_SESSION]).  The matcher below is the
    backtracking search of that expression written out. *)
Module CookieRegex.

(** Canonical form of a code unit under the flag [i]: its upper case. *)
Definition canon (c : ascii) : ascii :=
  let n := N_of_ascii c in
  if ((97 <=? n) && (n <=? 122))%N then ascii_of_N (n - 32)
  else if ((224 <=? n) && (n <=? 254) && negb (n =? 247))%N
       then ascii_of_N (n - 32)
  else c.

(** [name], case-insensitively, at the head of [s]: what follows it. *)
Fixpoint match_name (name s : string) : option string :=
  match name, s with
  | EmptyString, _ => Some s
  | String a name', String b s' =>
      if Ascii.eqb (canon a) (canon b) then match_name name' s' else None
  | String _ _, EmptyString => None
  end.

(** [[^;]+], greedy: the longest prefix without a semicolon. *)
Fixpoint take_value (s : string) : string :=
  match s with
  | EmptyString => EmptyString
  | String c r =>
      if Ascii.eqb c ";" then EmptyString else String c (take_value r)
  end.

(** [name=([^;]+)] at the head of [s]. *)
Definition match_pair (name s : string) : option string :=
  match match_name name s with
  | Some (String c r) =>
      if Ascii.eqb c "=" then
        let v := take_value r in
        if JsString.nonempty v then Some v else None
      else None
  | _ => None
  end.

(** White space, then the pair: the star on the white space is greedy
    and backtracks. *)
Fixpoint match_after_ws (name s : string) : option string :=
  match s with
  | String c r =>
      if JsString.is_ws c then
        match match_after_ws name r with
        | Some v => Some v
        | None => match_pair name s
        end
      else match_pair name s
  | EmptyString => match_pair name s
  end.

(** The whole pattern at one position; [at_start] tells whether the
    position is the beginning of the input, where [^] matches. *)
Definition match_at (at_start : bool) (name s : string) : option string :=
  match (if at_start then match_pair name s else None) with
  | Some v => Some v
  | None =>
      match s with
      | String c r =>
          if Ascii.eqb c ";" then match_after_ws name r else None
      | EmptyString => None
      end
  end.

(** Leftmost match: try every position in turn. *)
Fixpoint search (at_start : bool) (name s : string) : option string :=
  match match_at at_start name s with
  | Some v => Some v
  | None =>
      match s with
      | String _ r => search false name r
      | EmptyString => None
      end
  end.

End CookieRegex.

Definition extractCookieValue (cookieStr name : string) : option string :=
  CookieRegex.search true name cookieStr.

Definition QUERY_USER_COM : string := "
    query globalData {
        userStatus {
            id: userId
            name: username
            is_signed_in: isSignedIn
            is_premium: isPremium
            is_verified: isVerified
            session_id: activeSessionId
        }
    }
".

Definition QUERY_USER_CN : string := "
    query globalData {
        userStatus {
            slug: userSlug
            name: username
            real_name: realName
            is_signed_in: isSignedIn
            is_premium: isPremium
            is_verified: isVerified
        }
    }
".

(** [String(domain || '').toLowerCase().endsWith('leetcode.cn')] *)
Definition isCnDomain (domain : string) : bool :=
  JsString.endsWith (JsString.toLowerCase domain) "leetcode.cn".

Definition isComDomain (domain : string) : bool :=
  JsString.endsWith (JsString.toLowerCase domain) "leetcode.com".

(** [normalizeUser(domain, userStatus)].  Past the first line [userStatus]
    is truthy, so none of its property reads can throw. *)
Definition normalizeUser (domain : string) (userStatus : value) : value :=
  if negb (Js.truthy userStatus) then VNull
  else
    let isVerifiedRaw := Js.get_opt userStatus "is_verified" in
    let isVerified :=
      if Js.is_boolean isVerifiedRaw then isVerifiedRaw
      else if Js.nullish isVerifiedRaw then VNull
      else VBool (Js.truthy isVerifiedRaw) in
    if isCnDomain domain then
      VObj [("id", VNull);
            ("name", Js.coalesce (Js.get_opt userStatus "name") VNull);
            ("is_signed_in", VBool (Js.truthy (Js.get_opt userStatus "is_signed_in")));
            ("is_premium", VBool (Js.truthy (Js.get_opt userStatus "is_premium")));
            ("is_verified", isVerified);
            ("session_id", VNull);
            ("slug", Js.coalesce (Js.get_opt userStatus "slug") VNull);
            ("real_name", Js.coalesce (Js.get_opt userStatus "real_name") VNull)]
    else
      VObj [("id", Js.coalesce (Js.get_opt userStatus "id") VNull);
            ("name", Js.coalesce (Js.get_opt userStatus "name") VNull);
            ("is_signed_in", VBool (Js.truthy (Js.get_opt userStatus "is_signed_in")));
            ("is_premium", VBool (Js.truthy (Js.get_opt userStatus "is_premium")));
            ("is_verified", isVerified);
            ("session_id", Js.coalesce (Js.get_opt userStatus "session_id") VNull)].

Definition QUERY_QUESTION : string := "
  query ($titleSlug: String!) {
    question(titleSlug: $titleSlug) {
      id: questionId
      frontend_id: questionFrontendId
      title
            translated_title: translatedTitle
      title_slug: titleSlug
      is_paid_only: isPaidOnly
      difficulty
      likes
      dislikes
      content
            translated_content: translatedContent
      testcase_list: exampleTestcaseList
      topic_tags: topicTags {
        name
        slug
      }
      code_snippets: codeSnippets {
        lang
        lang_slug: langSlug
        code
      }
    }
  }
".

Definition QUERY_QUESTION_TITLECN : string := "
    query ($titleSlug: String!) {
        question(titleSlug: $titleSlug) {
            id: questionId
            frontend_id: questionFrontendId
            title
            translated_title: titleCn
            title_slug: titleSlug
            is_paid_only: isPaidOnly
            difficulty
            likes
            dislikes
            content
            translated_content: translatedContent
            testcase_list: exampleTestcaseList
            topic_tags: topicTags {
                name
                slug
            }
            code_snippets: codeSnippets {
                lang
                lang_slug: langSlug
                code
            }
        }
    }
".

Definition QUERY_PROBLEMSET_LIST : string := "
    query problemsetQuestionList($categorySlug: String, $limit: Int, $skip: Int, $filters: QuestionListFilterInput) {
        problemsetQuestionList(categorySlug: $categorySlug, limit: $limit, skip: $skip, filters: $filters) {
            total
            questions {
                id: questionId
                frontendId: frontendQuestionId
                title
                titleZh: translatedTitle
                titleSlug
                paidOnly: isPaidOnly
                difficulty
                status
                acRate
            }
        }
    }
".

Definition QUERY_PROBLEMSET_LIST_TITLECN : string := "
    query problemsetQuestionList($categorySlug: String, $limit: Int, $skip: Int, $filters: QuestionListFilterInput) {
        problemsetQuestionList(categorySlug: $categorySlug, limit: $limit, skip: $skip, filters: $filters) {
            total
            questions {
                id: questionId
                frontendId: frontendQuestionId
                title
                titleZh: titleCn
                titleSlug
                paidOnly: isPaidOnly
                difficulty
                status
                acRate
            }
        }
    }
".

Section Fallbacks.
Context `{JsLib}.
Local Open Scope prog_scope.

Definition lcProblemsetQuestionList (session : option Session)
    (variables : value) : Prog (Result value) :=
  let* first := lcGraphql session QUERY_PROBLEMSET_LIST variables in
  if ok first then Ret first
  else
    let* second := lcGraphql session QUERY_PROBLEMSET_LIST_TITLECN variables in
    if ok second then Ret second
    else Ret first.

Definition lcQuestion (session : option Session) (titleSlug : string)
  : Prog (Result value) :=
  let variables := VObj [("titleSlug", VStr titleSlug)] in
  let* first := lcGraphql session QUERY_QUESTION variables in
  if ok first then Ret first
  else
    let* second := lcGraphql session QUERY_QUESTION_TITLECN variables in
    if ok second then Ret second
    else Ret first.

End Fallbacks.

(* ===================================================================== *)
(** * The Express application *)
(* ===================================================================== *)

(** The parts of an Express request the handlers read: the parsed JSON
    body, the query string, the route parameters and the cookie [lc_sid]. *)
Record Request : Type := {
  req_body : value;
  req_query : list (string * value);
  req_params : list (string * value);
  req_lc_sid : option string;
}.

Inductive CookieOp : Type :=
| ClearCookie (name : string)
| SetCookie (name v : string).

(** What a handler sends: the status, the value given to [res.json] and
    the cookie operations, in order. *)
Record HttpResponse : Type := {
  res_status : Z;
  res_body : value;
  res_cookies : list CookieOp;
}.

Definition json (status : Z) (body : value) : HttpResponse :=
  {| res_status := status; res_body := body; res_cookies := [] |}.

Definition MSG_COOKIE_INVALID : string :=
  "Cookie 里需要包含 csrftoken 和 LEETCODE_SESSION。请从浏览器 Network 的 Request Headers 里复制 Cookie。".

Definition MSG_NOT_SIGNED_IN : string :=
  "未检测到登录状态。请确认：1) 你复制的是同域名（leetcode.com / leetcode.cn）的 Request Headers 里的 Cookie；2) Cookie 包含 csrftoken 和 LEETCODE_SESSION；3) 不要把 leetcode.com 的 Cookie 用在 leetcode.cn（反之亦然）。".

(** The session map.  A session object is reachable from the map under one
    identifier only, so a handler's reference to it is that identifier and
    a write to one of its fields is an update of the map there. *)
Definition sessions_get (sid : string) : Prog (option Session) :=
  ReadSessions (fun m => Ret (m !! sid)).

Definition sessions_set (sid : string) (s : Session) : Prog unit :=
  ReadSessions (fun m => WriteSessions (<[sid := s]> m) (Ret tt)).

Definition sessions_delete (sid : string) : Prog unit :=
  ReadSessions (fun m => WriteSessions (delete sid m) (Ret tt)).

Definition randomUUID : Prog string := RandomUUID (fun u => Ret u).

Definition truthy_sid (req : Request) : option string :=
  match req_lc_sid req with
  | Some sid => if JsString.nonempty sid then Some sid else None
  | None => None
  end.

Definition getSession (req : Request) : Prog (option (string * Session)) :=
  match truthy_sid req with
  | None => Ret None
  | Some sid =>
      bind (sessions_get sid) (fun o =>
        Ret (match o with Some s => Some (sid, s) | None => None end))
  end.

Definition NOT_AUTHENTICATED : HttpResponse :=
  json 401 (VObj [("error", VStr "NOT_AUTHENTICATED")]).

(** [clearSession(req, res)] and [setSession(res, session)]; each yields
    the cookie operation it performs on the response. *)
Definition clearSession (req : Request) : Prog CookieOp :=
  bind (match truthy_sid req with
        | Some sid => sessions_delete sid
        | None => Ret tt
        end)
       (fun _ => Ret (ClearCookie "lc_sid")).

Definition setSession (session : Session) : Prog CookieOp :=
  bind randomUUID (fun sid =>
  bind (sessions_set sid session) (fun _ =>
  Ret (SetCookie "lc_sid" sid))).

Definition set_user (s : Session) (u : value) : Session :=
  {| domain := domain s; cookie := cookie s; csrftoken := csrftoken s;
     user := u; acceptLanguage := acceptLanguage s |}.

Definition set_acceptLanguage (s : Session) (l : string) : Session :=
  {| domain := domain s; cookie := cookie s; csrftoken := csrftoken s;
     user := user s; acceptLanguage := Some l |}.

(** The anonymous session used for the public leetcode.cn catalogue. *)
Definition cnSession : Session :=
  {| domain := Some "leetcode.cn"; cookie := None; csrftoken := None;
     user := VUndef; acceptLanguage := Some ZH_PREFERENCE |}.

Definition falsy_opt (o : option string) : bool :=
  match o with
  | Some s => negb (JsString.nonempty s)
  | None => true
  end.

Fixpoint map_exn {A B : Type} (f : A -> Exn + B) (l : list A) : Exn + list B :=
  match l with
  | [] => inr []
  | x :: rest =>
      match f x with
      | inl e => inl e
      | inr y =>
          match map_exn f rest with
          | inl e => inl e
          | inr ys => inr (y :: ys)
          end
      end
  end.

(** [l.filter(f)] for a test that may throw. *)
Fixpoint filter_exn {A : Type} (f : A -> Exn + bool) (l : list A) : Exn + list A :=
  match l with
  | [] => inr []
  | x :: rest =>
      match f x with
      | inl e => inl e
      | inr keep =>
          match filter_exn f rest with
          | inl e => inl e
          | inr kept => inr (if keep then x :: kept else kept)
          end
      end
  end.

Section Handlers.
Context `{JsLib}.
Local Open Scope prog_scope.

(** [String(v || dflt).trim()], for a field that converts. *)
Definition trimmed (v : value) (dflt : string) : string :=
  JsString.trim (Js.toString (Js.or v (VStr dflt))).

Definition or_default (s dflt : string) : string :=
  if JsString.nonempty s then s else dflt.

(** [app.get('/api/health')] *)
Definition get_health (req : Request) : Prog HttpResponse :=
  Ret (json 200 (VObj [("ok", VBool true)])).

(** [user?.is_verified === false] *)
Definition emailNotVerified (user : value) : bool :=
  Js.strict_eq_bool (Js.get_opt user "is_verified") false.

(** The first lines of the sign-in handler: the cookie text and the domain
    read from the body, the provisional session and the user-status query
    of the domain. *)
Definition signin_cookie (req : Request) : string :=
  trimmed (Js.get_opt (req_body req) "cookie") "".

Definition signin_domain (req : Request) : string :=
  or_default (trimmed (Js.get_opt (req_body req) "domain") "leetcode.com")
             "leetcode.com".

Definition provisional_session (cookie domain : string) : Session :=
  {| domain := Some domain; cookie := Some cookie;
     csrftoken := extractCookieValue cookie "csrftoken"; user := VNull;
     acceptLanguage := Some ZH_PREFERENCE |}.

Definition me_query (domain : string) : string :=
  if isCnDomain domain then QUERY_USER_CN else QUERY_USER_COM.

(** [app.post('/api/auth/cookie')] *)
Definition post_auth_cookie (req : Request) : Prog HttpResponse :=
  let cookie := signin_cookie req in
  let domain := signin_domain req in
  if negb (JsString.nonempty cookie) then
    Ret (json 400 (VObj [("error", VStr "COOKIE_REQUIRED")]))
  else
    let csrftoken := extractCookieValue cookie "csrftoken" in
    let leetcodeSession := extractCookieValue cookie "LEETCODE_SESSION" in
    if falsy_opt csrftoken || falsy_opt leetcodeSession then
      Ret (json 400 (VObj [("error", VStr "COOKIE_INVALID");
                           ("message", VStr MSG_COOKIE_INVALID)]))
    else
      let session := provisional_session cookie domain in
      let* me := lcGraphql (Some session) (me_query domain) (VObj []) in
      match me with
      | Failed _ _ _ =>
          Ret (json 401 (VObj [("error", VStr "AUTH_FAILED");
                               ("detail", result_value me)]))
      | Ok _ data =>
          let user := normalizeUser domain (Js.get_opt data "userStatus") in
          if negb (Js.truthy (Js.get_opt user "is_signed_in")) then
            Ret (json 401 (VObj [("error", VStr "NOT_SIGNED_IN");
                                 ("user", user);
                                 ("message", VStr MSG_NOT_SIGNED_IN)]))
          else
            let flag := emailNotVerified user in
            let session := set_user session user in
            let* cleared := clearSession req in
            let* stored := setSession session in
            Ret {| res_status := 200;
                   res_body := VObj [("user", user);
                                     ("emailNotVerified", VBool flag)];
                   res_cookies := [cleared; stored] |}
      end.

(** [app.get('/api/auth/me')] *)
Definition get_auth_me (req : Request) : Prog HttpResponse :=
  let* acting := getSession req in
  match acting with
  | None => Ret NOT_AUTHENTICATED
  | Some (sid, session) =>
      let dom := default "" (domain session) in
      let* me := lcGraphql (Some session) (me_query dom) (VObj []) in
      match me with
      | Failed _ _ _ =>
          let* cleared := clearSession req in
          Ret {| res_status := 401;
                 res_body := VObj [("error", VStr "SESSION_EXPIRED")];
                 res_cookies := [cleared] |}
      | Ok _ data =>
          let user := normalizeUser dom (Js.get_opt data "userStatus") in
          sessions_set sid (set_user session user);;
          Ret (json 200 (VObj [("user", user)]))
      end
  end.

(** [app.post('/api/auth/logout')] *)
Definition post_auth_logout (req : Request) : Prog HttpResponse :=
  let* cleared := clearSession req in
  Ret {| res_status := 200; res_body := VObj [("ok", VBool true)];
         res_cookies := [cleared] |}.

(** ** The problem list *)

(** One node of the GraphQL list as a list item.  The first property read
    throws when the node is [null]; the later ones cannot, but the
    conversions of [id], [frontendId] and [acRate] can. *)
Definition gql_item (x : value) : Exn + value :=
  (let? id := Js.get x "id" in
   let? idNum := Js.ToNumber id in
   let? frontendId :=
     Js.ToString (Js.coalesce (Js.get_opt x "frontendId") (VStr "")) in
   let acRate := Js.get_opt x "acRate" in
   let? rate :=
     (if Js.is_number acRate then inr acRate
      else if Js.nullish acRate then inr VNull
      else let? n := Js.ToNumber acRate in inr (VNum n)) in
   inr (VObj
     [("id", VNum (if JsNumber.isFinite idNum then idNum else Fin 0));
      ("frontendId", VStr frontendId);
      ("title", Js.coalesce (Js.get_opt x "title") (VStr ""));
      ("titleZh", Js.coalesce (Js.get_opt x "titleZh") VNull);
      ("titleSlug", Js.coalesce (Js.get_opt x "titleSlug") (VStr ""));
      ("paidOnly", VBool (Js.truthy (Js.get_opt x "paidOnly")));
      ("difficulty", Js.or (Js.get_opt x "difficulty") (VStr "Unknown"));
      ("status", Js.or (Js.get_opt x "status") VNull);
      ("acRate", rate)]))%exn.

(** [!it.titleZh && it.titleSlug] *)
Definition lacks_titleZh (it : value) : bool :=
  negb (Js.truthy (Js.get_opt it "titleZh"))
  && Js.truthy (Js.get_opt it "titleSlug").

(** The map from slug to localized title built from the leetcode.cn
    nodes; a later node replaces an earlier one with the same slug.  The
    nodes are what leetcode.cn itself answers, whose slugs are strings. *)
Definition cn_entries (cnQuestions : list value) : list (string * value) :=
  map (fun x => (Js.toString (Js.get_opt x "titleSlug"),
                 Js.coalesce (Js.get_opt x "titleZh") VNull))
      (List.filter (fun x => Js.truthy (Js.get_opt x "titleSlug")) cnQuestions).

Definition cn_map (cnQuestions : list value) : gmap string value :=
  fold_left (fun m kv => <[fst kv := snd kv]> m) (cn_entries cnQuestions) ∅.

(** [cnMap.get(key)]: the keys are strings, so only a string finds one. *)
Definition map_get (m : gmap string value) (key : value) : value :=
  match key with
  | VStr k => default VUndef (m !! k)
  | _ => VUndef
  end.

(** [{ ...it, titleZh: zh }].  The items are objects; the spread of
    anything else is never asked for, as only an object has a slug the map
    can hold, and is given the one property. *)
Definition with_titleZh (it zh : value) : value :=
  match it with
  | VObj props => VObj (Js.set_assoc "titleZh" zh props)
  | _ => VObj [("titleZh", zh)]
  end.

(** The fill-in of one item from the leetcode.cn map. *)
Definition fill_titleZh (cnMap : gmap string value) (it : value) : value :=
  if Js.truthy (Js.get_opt it "titleZh") then it
  else
    let zh := map_get cnMap (Js.get_opt it "titleSlug") in
    if Js.truthy zh then with_titleZh it zh else it.

Definition DIFFICULTY_MAP : list (string * value) :=
  [("1", VStr "Easy"); ("2", VStr "Medium"); ("3", VStr "Hard")].

(** The function-valued properties of [Object.prototype], which every
    object literal inherits. *)
Definition OBJECT_PROTOTYPE_METHODS : list string :=
  ["constructor"; "__defineGetter__"; "__defineSetter__"; "hasOwnProperty";
   "__lookupGetter__"; "__lookupSetter__"; "isPrototypeOf";
   "propertyIsEnumerable"; "toString"; "valueOf"; "toLocaleString"].

(** [difficultyMap[level] || 'Unknown'], as [res.json] prints it.  The
    three own keys give the three names.  An inherited method is truthy,
    and a property that holds a function is left out by [JSON.stringify],
    as one that holds [undefined] is; [__proto__] is [Object.prototype]
    itself, printed as the empty object.  Any other key gives Unknown. *)
Definition difficulty_of (key : string) : value :=
  match Js.assoc key DIFFICULTY_MAP with
  | Some name => name
  | None =>
      if String.eqb key "__proto__" then VObj []
      else if existsb (String.eqb key) OBJECT_PROTOTYPE_METHODS then VUndef
      else VStr "Unknown"
  end.

(** One pair of the REST catalogue as a list item.  The first property read
    throws when the pair is [null]; so do the conversions of the two
    counts, of the frontend id and of the level, which is converted to a
    property key. *)
Definition rest_item (p : value) : Exn + value :=
  (let? stat0 := Js.get p "stat" in
   let stat := Js.or stat0 (VObj []) in
   let level := Js.get_opt (Js.get_opt p "difficulty") "level" in
   let? totalAcs :=
     Js.ToNumber (Js.or (Js.get_opt stat "total_acs") (VNum (Fin 0))) in
   let? totalSubmitted :=
     Js.ToNumber (Js.or (Js.get_opt stat "total_submitted") (VNum (Fin 0))) in
   let acRate :=
     if JsNumber.gt totalSubmitted (Fin 0)
     then VNum (JsNumber.mul (JsNumber.div totalAcs totalSubmitted) (Fin 100))
     else VNull in
   let? frontendId :=
     Js.ToString
       (Js.coalesce (Js.get_opt stat "frontend_question_id") (VStr "")) in
   let? key := Js.ToString level in
   inr (VObj
     [("id", Js.get_opt stat "question_id");
      ("frontendId", VStr frontendId);
      ("title", Js.get_opt stat "question__title");
      ("titleZh", VNull);
      ("titleSlug", Js.get_opt stat "question__title_slug");
      ("paidOnly", VBool (Js.truthy (Js.get_opt p "paid_only")));
      ("difficulty", difficulty_of key);
      ("status", Js.or (Js.get_opt p "status") VNull);
      ("acRate", acRate)]))%exn.

(** The client-side search of the REST path: the test of one item.  The
    title and the slug are converted first; the frontend id is converted
    only when neither of them contains the search text. *)
Definition rest_matches (q : string) (x : value) : Exn + bool :=
  (let? title := Js.get x "title" in
   let? t := Js.ToString (Js.or title (VStr "")) in
   let? s := Js.ToString (Js.or (Js.get_opt x "titleSlug") (VStr "")) in
   if JsString.includes (JsString.toLowerCase t) q
      || JsString.includes (JsString.toLowerCase s) q
   then inr true
   else
     let? f := Js.ToString (Js.get_opt x "frontendId") in
     inr (JsString.includes f q))%exn.

Definition is_zh (lang : string) : bool :=
  String.eqb lang "zh" || String.eqb lang "zh-cn" || String.eqb lang "cn".

Definition list_variables (category q : string) : value :=
  VObj [("categorySlug",
           if String.eqb category "algorithms" then VNull else VStr category);
        ("limit", VNum (Fin 2000));
        ("skip", VNum (Fin 0));
        ("filters",
           if JsString.nonempty q then VObj [("searchKeywords", VStr q)]
           else VObj [])].

(** [gql.ok ? gql.data?.problemsetQuestionList?.questions : null], when it
    is a non-empty array. *)
Definition questions_of (gql : Result value) : option (list value) :=
  match gql with
  | Ok _ data =>
      match Js.get_opt (Js.get_opt data "problemsetQuestionList") "questions" with
      | VArr (x :: rest) => Some (x :: rest)
      | _ => None
      end
  | Failed _ _ _ => None
  end.

Definition query_param (req : Request) (k : string) : value :=
  default VUndef (Js.assoc k (req_query req)).

Definition route_param (req : Request) (k : string) : value :=
  default VUndef (Js.assoc k (req_params req)).

(** The REST path of the list, after the GraphQL path gave no items. *)
Definition problems_rest (session : Session) (category q : string)
  : Prog HttpResponse :=
  let* resp :=
    lcFetch (Some session)
      ("/api/problems/" +:+ encodeURIComponent category +:+ "/")
      {| init_method := Some "GET"; init_headers := []; init_body := None |} in
  if negb (up_ok resp) then
    Ret (json 502 (VObj [("error", VStr "UPSTREAM_ERROR");
                         ("status", VNum (num_of_Z (up_status resp)));
                         ("raw", VStr (text_or_empty resp))]))
  else
    let* text := resp_text resp in
    match JSON_parse text with
    | None => Throw SyntaxError
    | Some raw =>
        let pairs :=
          match Js.get_opt raw "stat_status_pairs" with
          | VArr ps => ps
          | _ => []
          end in
        let* items := lift (map_exn rest_item pairs) in
        let* items :=
          (if JsString.nonempty q then lift (filter_exn (rest_matches q) items)
           else Ret items) in
        Ret (json 200 (VObj [("items", VArr items)]))
    end.

(** The list once the session's language preference is settled: the
    GraphQL path when Chinese is asked for, with the REST path as its
    fallback and as the only path otherwise. *)
Definition problems_list (session : Session) (category q : string)
    (zh : bool) : Prog HttpResponse :=
  if zh then
    let variables := list_variables category q in
    let* gql := lcProblemsetQuestionList (Some session) variables in
    match questions_of gql with
    | Some questions =>
        let* items := lift (map_exn gql_item questions) in
        let needCnFill :=
          isComDomain (default "" (domain session))
          && existsb lacks_titleZh items in
        if needCnFill then
          let* cnGql := lcProblemsetQuestionList (Some cnSession) variables in
          match questions_of cnGql with
          | Some cnQuestions =>
              let cnMap := cn_map cnQuestions in
              Ret (json 200
                     (VObj [("items", VArr (map (fill_titleZh cnMap) items))]))
          | None => Ret (json 200 (VObj [("items", VArr items)]))
          end
        else Ret (json 200 (VObj [("items", VArr items)]))
    | None => problems_rest session category q
    end
  else problems_rest session category q.

(** The normalized [lang] of a list request. *)
Definition problems_lang (req : Request) : string :=
  JsString.toLowerCase (trimmed (query_param req "lang") "").

(** [app.get('/api/problems')] *)
Definition get_problems (req : Request) : Prog HttpResponse :=
  let* acting := getSession req in
  match acting with
  | None => Ret NOT_AUTHENTICATED
  | Some (sid, session0) =>
      let q := JsString.toLowerCase (trimmed (query_param req "q") "") in
      let category :=
        or_default (trimmed (query_param req "category") "algorithms")
                   "algorithms" in
      let lang := problems_lang req in
      let* session :=
        (if is_zh lang then
           let session := set_acceptLanguage session0 ZH_PREFERENCE in
           sessions_set sid session;; Ret session
         else Ret session0) in
      problems_list session category q (is_zh lang)
  end.

(** ** One problem *)

(** [q.k = x] in strict mode: a primitive cannot take a property.  An
    array takes it, but a named property of an array is not part of its
    JSON form, so the array is kept as it is. *)
Definition set_prop (q : value) (k : string) (x : value) : Exn + value :=
  match q with
  | VObj props => inr (VObj (Js.set_assoc k x props))
  | VArr items => inr (VArr items)
  | _ => inl (TypeError "Cannot create property")
  end.

(** The fill-in of the localized title and content from the leetcode.cn
    question [cnQ]. *)
Definition fill_detail (cnQ q : value) : Exn + value :=
  if Js.truthy cnQ then
    match set_prop q "translated_title"
            (Js.or (Js.or (Js.get_opt cnQ "translated_title")
                          (Js.get_opt cnQ "title"))
                   (Js.get_opt q "translated_title")) with
    | inl e => inl e
    | inr q1 =>
        set_prop q1 "translated_content"
          (Js.or (Js.or (Js.get_opt cnQ "translated_content")
                        (Js.get_opt cnQ "content"))
                 (Js.get_opt q1 "translated_content"))
    end
  else inr q.

(** [!q.translated_title && !q.translated_content] *)
Definition missingZh (q : value) : bool :=
  negb (Js.truthy (Js.get_opt q "translated_title"))
  && negb (Js.truthy (Js.get_opt q "translated_content")).

(** The enrichment of a question as a function of the leetcode.cn answer:
    nothing is done unless the session is on leetcode.com and both
    localized fields are missing. *)
Definition enrich_detail (isCom : bool) (cnQ q : value) : Exn + value :=
  if isCom && missingZh q then fill_detail cnQ q else inr q.

Definition question_of (r : Result value) : value :=
  match r with
  | Ok _ data => Js.get_opt data "question"
  | Failed _ _ _ => VNull
  end.

(** [app.get('/api/problem/:slug')] *)
Definition get_problem (req : Request) : Prog HttpResponse :=
  let* acting := getSession req in
  match acting with
  | None => Ret NOT_AUTHENTICATED
  | Some (sid, session) =>
      let slug := trimmed (route_param req "slug") "" in
      if negb (JsString.nonempty slug) then
        Ret (json 400 (VObj [("error", VStr "SLUG_REQUIRED")]))
      else
        let* resp := lcQuestion (Some session) slug in
        match resp with
        | Failed _ _ _ =>
            Ret (json 502 (VObj [("error", VStr "UPSTREAM_ERROR");
                                 ("detail", result_value resp)]))
        | Ok _ data =>
            let q := Js.get_opt data "question" in
            if negb (Js.truthy q) then
              Ret (json 404 (VObj [("error", VStr "NOT_FOUND")]))
            else
              let isCom := isComDomain (default "" (domain session)) in
              if isCom && missingZh q then
                let* cn := lcQuestion (Some cnSession) slug in
                let* q' := lift (fill_detail (question_of cn) q) in
                Ret (json 200 (VObj [("question", q')]))
              else Ret (json 200 (VObj [("question", q)]))
        end
  end.

(** ** Submissions *)

(** [app.post('/api/submit')] *)
Definition post_submit (req : Request) : Prog HttpResponse :=
  let* acting := getSession req in
  match acting with
  | None => Ret NOT_AUTHENTICATED
  | Some (sid, session) =>
      let titleSlug := trimmed (Js.get_opt (req_body req) "slug") "" in
      let lang := trimmed (Js.get_opt (req_body req) "lang") "" in
      let typedCode :=
        Js.toString (Js.or (Js.get_opt (req_body req) "code") (VStr "")) in
      let questionId0 := Js.get_opt (req_body req) "questionId" in
      let questionId :=
        if Js.nullish questionId0 then questionId0
        else VStr (Js.toString questionId0) in
      if negb (JsString.nonempty titleSlug) then
        Ret (json 400 (VObj [("error", VStr "SLUG_REQUIRED")]))
      else if negb (JsString.nonempty lang) then
        Ret (json 400 (VObj [("error", VStr "LANG_REQUIRED")]))
      else if negb (JsString.nonempty typedCode) then
        Ret (json 400 (VObj [("error", VStr "CODE_REQUIRED")]))
      else
        let* resolved :=
          (if negb (Js.truthy questionId) then
             let* q := lcQuestion (Some session) titleSlug in
             match q with
             | Failed _ _ _ =>
                 Ret (inl (json 502 (VObj [("error", VStr "UPSTREAM_ERROR");
                                           ("detail", result_value q)])))
             | Ok _ data =>
                 let id := Js.get_opt (Js.get_opt data "question") "id" in
                 if negb (Js.truthy id) then
                   Ret (inl (json 502 (VObj [("error", VStr "UPSTREAM_ERROR");
                                             ("message", VStr "Missing questionId")])))
                 else Ret (inr id)
             end
           else Ret (inr questionId)) in
        match resolved with
        | inl response => Ret response
        | inr questionId =>
            let* submit :=
              lcSubmit (Some session) titleSlug questionId lang typedCode in
            match submit with
            | Failed _ _ _ =>
                Ret (json 502 (VObj [("error", VStr "UPSTREAM_ERROR");
                                     ("detail", submit_result_value submit)]))
            | Ok _ submissionId =>
                Ret (json 200 (VObj [("submissionId", VNum submissionId)]))
            end
        end
  end.

(** [app.get('/api/submission/:id/check')] *)
Definition get_submission_check (req : Request) : Prog HttpResponse :=
  let* acting := getSession req in
  match acting with
  | None => Ret NOT_AUTHENTICATED
  | Some (sid, session) =>
      let id := Js.toNumber (route_param req "id") in
      if negb (JsNumber.isFinite id) || JsNumber.le id (Fin 0) then
        Ret (json 400 (VObj [("error", VStr "INVALID_SUBMISSION_ID")]))
      else
        let slug := trimmed (query_param req "slug") "" in
        let titleSlug := if JsString.nonempty slug then Some slug else None in
        let* check := lcSubmissionCheck (Some session) id titleSlug in
        match check with
        | Failed _ _ _ =>
            Ret (json 502 (VObj [("error", VStr "UPSTREAM_ERROR");
                                 ("detail", result_value check)]))
        | Ok _ data => Ret (json 200 (VObj [("submission", data)]))
        end
  end.

End Handlers.

(* ===================================================================== *)
(** * Predicates on programs and outcomes *)
(* ===================================================================== *)

(** A program that never writes the session map. *)
Inductive read_only {A : Type} : Prog A -> Prop :=
| ro_ret a : read_only (Ret a)
| ro_throw e : read_only (Throw e)
| ro_fetch rq k : (forall o, read_only (k o)) -> read_only (Fetch rq k)
| ro_read k : (forall m, read_only (k m)) -> read_only (ReadSessions k)
| ro_uuid k : (forall u, read_only (k u)) -> read_only (RandomUUID k).

Create HintDb prog discriminated.
#[export] Hint Constructors read_only : prog.

(** The outcome of a program followed by a continuation. *)
Definition andThen {W A B : Type} (e : Exec W A)
    (f : A -> W -> gmap string Session -> Exec W B) : Exec W B :=
  match result e with
  | Returned a =>
      let e' := f a (world e) (sessions e) in
      {| result := result e'; sessions := sessions e'; world := world e';
         trace := trace e ++ trace e' |}
  | Threw x =>
      {| result := Threw x; sessions := sessions e; world := world e;
         trace := trace e |}
  end.

(* ===================================================================== *)
(** * A concrete runtime and a scripted upstream, for the examples *)
(* ===================================================================== *)

Module Demo.

(** The double-quote character. *)
Definition dq : string := String "034"%char EmptyString.

Definition quoted (s : string) : string := dq +:+ s +:+ dq.

(** [JSON.stringify] on the values of the examples: [null], booleans,
    integers, strings without escapes, arrays and objects. *)
Fixpoint stringify (v : value) : string :=
  match v with
  | VUndef | VNull => "null"
  | VBool true => "true"
  | VBool false => "false"
  | VNum (Fin q) => pretty (Qnum q)
  | VNum _ => "null"
  | VStr s => quoted s
  | VArr items => "[" +:+ Js.join "," (map stringify items) +:+ "]"
  | VObj props =>
      "{" +:+ Js.join ","
                (map (fun kv => quoted (fst kv) +:+ ":" +:+ stringify (snd kv)) props)
          +:+ "}"
  end.

(** The JSON documents the examples receive from the upstream. *)
Definition signed_out : value :=
  VObj [("data", VObj [("userStatus",
          VObj [("name", VStr "ann"); ("is_signed_in", VBool false);
                ("is_verified", VNull)])])].

Definition signed_in_unverified : value :=
  VObj [("data", VObj [("userStatus",
          VObj [("name", VStr "ann"); ("is_signed_in", VBool true);
                ("is_verified", VBool false)])])].

Definition judged : value :=
  VObj [("state", VStr "SUCCESS"); ("status_msg", VStr "Accepted");
        ("total_correct", VNum (Fin 57)); ("total_testcases", VNum (Fin 57))].

Definition corpus : list value :=
  [signed_out; signed_in_unverified; judged; VArr [VNum (Fin 1)];
   VArr [VNum (Fin 2)]; VNull].

(** [JSON.parse] restricted to the documents of [corpus]; any other text is
    rejected, as the examples only use other texts that are not JSON. *)
Definition parse (s : string) : option value :=
  List.find (fun v => String.eqb (stringify v) s) corpus.

Fixpoint digits (s : string) (acc : Z) : option Z :=
  match s with
  | EmptyString => Some acc
  | String c r =>
      match Ascii.is_nat c with
      | Some d => digits r (10 * acc + Z.of_nat d)
      | None => None
      end
  end.

(** [Number(s)] on the empty string, on digit strings, and on text that is
    no numeral. *)
Definition number_of_string (s : string) : number :=
  match digits s 0 with
  | Some z => Fin (inject_Z z)
  | None => NaN
  end.

(** [String(n)] on integers and on the non-finite numbers. *)
Definition number_toString (n : number) : string :=
  match n with
  | NaN => "NaN"
  | PosInf => "Infinity"
  | NegInf => "-Infinity"
  | Fin q => pretty (Qnum q)
  end.

(** The examples encode only unreserved characters. *)
#[export] Instance runtime : JsLib := {|
  JSON_parse := parse;
  JSON_stringify := stringify;
  encodeURIComponent := fun s => s;
  Number_of_string := number_of_string;
  Number_toString := number_toString;
|}.

(** An upstream that answers from a script, then stops answering, and a
    supply of identifiers. *)
Record Script : Type := {
  answers : list FetchOutcome;
  uuids : list string;
}.

#[export] Instance script_world : World Script := {|
  fetch_step w rq :=
    match answers w with
    | [] => (Unreachable "fetch failed", w)
    | o :: rest => (o, {| answers := rest; uuids := uuids w |})
    end;
  uuid_step w :=
    match uuids w with
    | [] => ("00000000-0000-4000-8000-000000000000", w)
    | u :: rest => (u, {| answers := answers w; uuids := rest |})
    end;
|}.

Definition script (l : list FetchOutcome) : Script :=
  {| answers := l; uuids := ["5b2c7a3e-1d4f-4a6b-9c8d-0e1f2a3b4c5d"] |}.

Definition answer (status : Z) (text : string) : FetchOutcome :=
  Responded {| up_status := status; up_text := Some text |}.

Definition ann : Session :=
  {| domain := Some "leetcode.com";
     cookie := Some "csrftoken=abc; LEETCODE_SESSION=xyz";
     csrftoken := Some "abc"; user := VNull;
     acceptLanguage := Some ZH_PREFERENCE |}.

(** Requests of the examples. *)
Definition sign_in_request (cookieStr : string) : Request :=
  {| req_body := VObj [("cookie", VStr cookieStr); ("domain", VStr "leetcode.com")];
     req_query := []; req_params := []; req_lc_sid := None |}.

Definition ann_cookie : string := "csrftoken=abc; LEETCODE_SESSION=xyz".

(** A session map with one session, and requests that carry its cookie. *)
Definition store : gmap string Session := {[ "sid-ann" := ann ]}.

Definition check_request : Request :=
  {| req_body := VUndef; req_query := [("slug", VStr "two-sum")];
     req_params := [("id", VStr "123")]; req_lc_sid := Some "sid-ann" |}.

Definition list_request (lang : string) : Request :=
  {| req_body := VUndef; req_query := [("lang", VStr lang)];
     req_params := []; req_lc_sid := Some "sid-ann" |}.

(** A pair of the REST catalogue: 1 accepted out of 4 submitted. *)
Definition rest_pair : value :=
  VObj [("stat", VObj [("question_id", VNum (Fin 1));
                       ("question__title", VStr "Two Sum");
                       ("question__title_slug", VStr "two-sum");
                       ("total_acs", VNum (Fin 1));
                       ("total_submitted", VNum (Fin 4))]);
        ("difficulty", VObj [("level", VNum (Fin 1))])].

(** A list item whose localized title is already there, and a leetcode.cn
    map that has another title for its slug. *)
Definition titled_item : value :=
  VObj [("title", VStr "Two Sum"); ("titleZh", VStr "Liang Shu Zhi He");
        ("titleSlug", VStr "two-sum")].

Definition other_titles : gmap string value :=
  {[ "two-sum" := VStr "Two Sum (cn)" ]}.

(** The session map after a sign-in on the empty map, the identifier the
    sign-in drew, and a request that carries it. *)
Definition ann_sid : string := "5b2c7a3e-1d4f-4a6b-9c8d-0e1f2a3b4c5d".

Definition signed_in_store : gmap string Session :=
  sessions (run (post_auth_cookie (sign_in_request ann_cookie))
                (script [answer 200 (stringify signed_in_unverified)]) ∅).

Definition next_request : Request :=
  {| req_body := VUndef; req_query := [("lang", VStr "zh")];
     req_params := []; req_lc_sid := Some ann_sid |}.

(** Requests for a problem, for a submission, and for a search in the
    English list. *)
Definition problem_request : Request :=
  {| req_body := VUndef; req_query := [];
     req_params := [("slug", VStr "two-sum")]; req_lc_sid := Some "sid-ann" |}.

Definition submit_request (lang : string) : Request :=
  {| req_body := VObj [("slug", VStr " two-sum "); ("lang", VStr lang);
                       ("code", VStr "int main(){}"); ("questionId", VNum (Fin 1))];
     req_query := []; req_params := []; req_lc_sid := Some "sid-ann" |}.

Definition search_request : Request :=
  {| req_body := VUndef; req_query := [("lang", VStr "en"); ("q", VStr "Two")];
     req_params := []; req_lc_sid := Some "sid-ann" |}.


(** Two more documents of the upstream: the REST catalogue with one pair,
    and the answer to a submission; and a runtime whose [JSON.parse] knows
    them too. *)
Definition catalogue : value :=
  VObj [("stat_status_pairs", VArr [rest_pair])].

Definition submitted : value := VObj [("submission_id", VNum (Fin 7))].

(** The answers of leetcode.com and of leetcode.cn to the detail query. *)
Definition detail : value :=
  VObj [("data", VObj [("question",
          VObj [("id", VStr "1"); ("title", VStr "Two Sum")])])].

Definition detail_cn : value :=
  VObj [("data", VObj [("question",
          VObj [("id", VStr "1"); ("title", VStr "Liang Shu Zhi He")])])].


(** A session whose language preference is not the Chinese one, and a
    list request that carries its cookie. *)
Definition bob : Session :=
  {| domain := Some "leetcode.com";
     cookie := Some "csrftoken=abc; LEETCODE_SESSION=xyz";
     csrftoken := Some "abc"; user := VNull;
     acceptLanguage := Some "en-US" |}.



(** A cookie text with spaces around the CSRF token, the session the
    sign-in builds from it, and the store after that sign-in. *)
Definition carol_cookie : string := "csrftoken= abc ; LEETCODE_SESSION=xyz".

Definition carol : Session := provisional_session carol_cookie "leetcode.com".

Definition carol_store : gmap string Session :=
  sessions (run (post_auth_cookie (sign_in_request carol_cookie))
                (script [answer 200 (stringify signed_in_unverified)]) ∅).


(** A JSON object with an own property [toString], and a node of the
    GraphQL list whose [id] is such an object. *)
Definition shadowed : value := VObj [("toString", VNum (Fin 1))].

Definition shadowed_node : value :=
  VObj [("id", shadowed); ("titleSlug", VStr "two-sum")].

(** The answer to a submission whose id is such an object. *)
Definition submitted_shadowed : value := VObj [("submission_id", shadowed)].

Definition wide_corpus : list value :=
  catalogue :: submitted :: detail :: detail_cn :: submitted_shadowed :: corpus.

Definition wide_parse (s : string) : option value :=
  List.find (fun v => String.eqb (stringify v) s) wide_corpus.

Definition wide_runtime : JsLib := {|
  JSON_parse := wide_parse;
  JSON_stringify := stringify;
  encodeURIComponent := fun s => s;
  Number_of_string := number_of_string;
  Number_toString := number_toString;
|}.

End Demo.

(** The law of a two-query fallback [p] over the queries [pA] then [pB],
    run from the world [w] and the session map [m]: a successful first
    answer is returned and nothing more is sent; otherwise the second query
    is sent, its answer is returned when it succeeds, and when it fails too
    the failure returned is the one of the FIRST query. *)
Definition first_failure_fallback {W} `{World W}
    (p pA pB : Prog (Result value)) (w : W) (m : gmap string Session) : Prop :=
  let eA := run pA w m in
  let eB := run pB (world eA) (sessions eA) in
  let e := run p w m in
  (forall first, result eA = Returned first -> ok first = true ->
     e = eA) /\
  (forall first second,
     result eA = Returned first -> ok first = false ->
     result eB = Returned second -> ok second = true ->
     result e = Returned second /\ trace e = trace eA ++ trace eB) /\
  (forall first second,
     result eA = Returned first -> ok first = false ->
     result eB = Returned second -> ok second = false ->
     result e = Returned first /\ trace e = trace eA ++ trace eB).

(** The items of the list: the image of a REST pair, the image of a
    GraphQL node, or such an image after the localization fill-in. *)
Definition list_item `{JsLib} (it : value) : Prop :=
  (exists p, rest_item p = inr it)
  \/ (exists x, gql_item x = inr it)
  \/ (exists x it0 cnMap, gql_item x = inr it0 /\ it = fill_titleZh cnMap it0).

(** A node of the GraphQL list whose item cannot be built: the node is
    [null] or [undefined], or its [id], its [frontendId] or its [acRate]
    does not convert. *)
Definition gql_node_throws (x : value) : bool :=
  Js.nullish x
  || negb (Js.convertible (Js.get_opt x "id"))
  || negb (Js.convertible (Js.get_opt x "frontendId"))
  || negb (Js.convertible (Js.get_opt x "acRate")).

(** A pair of the REST catalogue whose item cannot be built: the pair is
    [null] or [undefined], or one of its two counts, its frontend id or its
    level does not convert. *)
Definition rest_pair_throws (p : value) : bool :=
  let stat := Js.or (Js.get_opt p "stat") (VObj []) in
  Js.nullish p
  || negb (Js.convertible (Js.get_opt stat "total_acs"))
  || negb (Js.convertible (Js.get_opt stat "total_submitted"))
  || negb (Js.convertible (Js.get_opt stat "frontend_question_id"))
  || negb (Js.convertible (Js.get_opt (Js.get_opt p "difficulty") "level")).

(** ** What it is for a cookie text to hold a pair [name=value] *)

(** Equality of names up to case, as the flag [i] compares them. *)
Fixpoint same_name (a b : string) : Prop :=
  match a, b with
  | EmptyString, EmptyString => True
  | String x a', String y b' =>
      CookieRegex.canon x = CookieRegex.canon y /\ same_name a' b'
  | _, _ => False
  end.

Fixpoint all_ws (s : string) : Prop :=
  match s with
  | EmptyString => True
  | String c r => JsString.is_ws c = true /\ all_ws r
  end.

(** A value starts right after the equals sign that follows [name] in [s]:
    at least one character, and it is not a semicolon. *)
Definition pair_at (name s : string) : Prop :=
  exists n c after,
    s = n +:+ String "="%char (String c after)
    /\ same_name name n /\ c <> ";"%char.

(** The cookie text holds a pair for [name]: at the very start of the text,
    or after a semicolon and any white space. *)
Definition has_pair (name cookieStr : string) : Prop :=
  pair_at name cookieStr
  \/ exists head ws rest,
       cookieStr = head +:+ String ";"%char (ws +:+ rest)
       /\ all_ws ws /\ pair_at name rest.

(* ===================================================================== *)
(** * Predicates on handlers and the session map *)
(* ===================================================================== *)

(** A program that sends at most [n] requests. *)
Inductive at_most {A : Type} : nat -> Prog A -> Prop :=
| am_ret n a : at_most n (Ret a)
| am_throw n e : at_most n (Throw e)
| am_fetch n rq k : (forall o, at_most n (k o)) -> at_most (S n) (Fetch rq k)
| am_read n k : (forall m, at_most n (k m)) -> at_most n (ReadSessions k)
| am_write n m k : at_most n k -> at_most n (WriteSessions m k)
| am_uuid n k : (forall u, at_most n (k u)) -> at_most n (RandomUUID k).

(** A program all of whose requests satisfy [P]. *)
Inductive sends_only {A : Type} (P : FetchRequest -> Prop) : Prog A -> Prop :=
| so_ret a : sends_only P (Ret a)
| so_throw e : sends_only P (Throw e)
| so_fetch rq k : P rq -> (forall o, sends_only P (k o)) -> sends_only P (Fetch rq k)
| so_read k : (forall m, sends_only P (k m)) -> sends_only P (ReadSessions k)
| so_write m k : sends_only P k -> sends_only P (WriteSessions m k)
| so_uuid k : (forall u, sends_only P (k u)) -> sends_only P (RandomUUID k).

(** The routes of the application. *)
Inductive Route : Type :=
| GetHealth
| PostAuthCookie
| GetAuthMe
| PostAuthLogout
| GetProblems
| GetProblem
| PostSubmit
| GetSubmissionCheck.

Definition route `{JsLib} (r : Route) : Request -> Prog HttpResponse :=
  match r with
  | GetHealth => get_health
  | PostAuthCookie => post_auth_cookie
  | GetAuthMe => get_auth_me
  | PostAuthLogout => post_auth_logout
  | GetProblems => get_problems
  | GetProblem => get_problem
  | PostSubmit => post_submit
  | GetSubmissionCheck => get_submission_check
  end.

(** The session maps the server can hold: the empty map it starts with,
    and the map left by any handler run on such a map, for any request and
    any behaviour of the upstream. *)
Inductive reachable `{JsLib} {W : Type} `{World W}
  : gmap string Session -> Prop :=
| reach_start : reachable ∅
| reach_request m r req (w : W) :
    reachable m -> reachable (sessions (run (route r req) w m)).

(** A session as the sign-in handler builds it. *)
Definition session_ok (s : Session) : Prop :=
  acceptLanguage s = Some ZH_PREFERENCE
  /\ (exists d, domain s = Some d /\ d <> EmptyString)
  /\ (exists c, cookie s = Some c /\ c <> EmptyString
                /\ has_pair "csrftoken" c /\ has_pair "LEETCODE_SESSION" c
                /\ csrftoken s = extractCookieValue c "csrftoken").

(** The last character of a string. *)
Fixpoint last_char (s : string) : option ascii :=
  match s with
  | EmptyString => None
  | String c EmptyString => Some c
  | String _ r => last_char r
  end.

(** A request to a path of the host [d], over https. *)
Definition to_domain (d : string) (rq : FetchRequest) : Prop :=
  exists rest, rq_url rq = "https://" +:+ d +:+ String "/"%char rest.

(** A request to the GraphQL endpoint of leetcode.cn that carries no
    credentials. *)
Definition anonymous_cn (rq : FetchRequest) : Prop :=
  rq_url rq = "https://leetcode.cn/graphql/"
  /\ rq_headers rq !! "cookie" = None
  /\ rq_headers rq !! "x-csrftoken" = None.

(* ===================================================================== *)
(** * Facts about running programs *)
(* ===================================================================== *)

Section RunFacts.
Context {W : Type} `{World W}.

Lemma exec_eta {A} (e : Exec W A) :
  {| result := result e; sessions := sessions e; world := world e;
     trace := trace e |} = e.
Proof. by destruct e. Qed.

Lemma run_bind {A B} (p : Prog A) (f : A -> Prog B) w m :
  run (bind p f) w m = andThen (run p w m) (fun a => run (f a)).
Proof.
  revert w m.
  induction p as [a|e|rq k IH|k IH|m' k IH|k IH]; intros w m; simpl.
  - unfold andThen; simpl. by rewrite exec_eta.
  - done.
  - destruct (fetch_step w rq) as [o w'].
    rewrite IH. unfold andThen, sent; simpl.
    by destruct (result (run (k o) w' m)).
  - apply IH.
  - apply IH.
  - destruct (uuid_step w) as [u w']. apply IH.
Qed.

Lemma read_only_sessions {A} (p : Prog A) w m :
  read_only p -> sessions (run p w m) = m.
Proof.
  intros Hp. revert w m.
  induction Hp as [a|e|rq k _ IH|k _ IH|k _ IH]; intros w m; simpl; auto.
  - destruct (fetch_step w rq) as [o w']. apply IH.
  - destruct (uuid_step w) as [u w']. apply IH.
Qed.

Lemma read_only_bind {A B} (p : Prog A) (f : A -> Prog B) :
  read_only p -> (forall a, read_only (f a)) -> read_only (bind p f).
Proof.
  intros Hp Hf. induction Hp; simpl; auto with prog.
Qed.

Lemma read_only_lift {A} (r : Exn + A) : read_only (lift r).
Proof. destruct r; constructor. Qed.

Lemma read_only_fetch rq : read_only (fetch rq).
Proof. constructor. intros [msg|r]; constructor. Qed.

Lemma read_only_resp_text r : read_only (resp_text r).
Proof. unfold resp_text. destruct (up_text r); constructor. Qed.

End RunFacts.

#[export] Hint Resolve read_only_lift read_only_fetch read_only_resp_text : prog.

(* ===================================================================== *)
(** * The two-query fallback *)
(* ===================================================================== *)

Section FallbackFacts.
Context `{JsLib} {W : Type} `{World W}.

(** The shape shared by [lcProblemsetQuestionList] and [lcQuestion]: what
    running the fallback gives, from the runs of its two queries. *)
Lemma run_two_queries (p1 p2 : Prog (Result value)) w m :
  run (bind p1 (fun first =>
         if ok first then Ret first
         else bind p2 (fun second =>
                if ok second then Ret second else Ret first))) w m =
  let eA := run p1 w m in
  match result eA with
  | Threw _ => eA
  | Returned first =>
      if ok first then eA
      else
        let eB := run p2 (world eA) (sessions eA) in
        {| result :=
             match result eB with
             | Returned second => Returned (if ok second then second else first)
             | Threw x => Threw x
             end;
           sessions := sessions eB; world := world eB;
           trace := trace eA ++ trace eB |}
  end.
Proof.
  rewrite run_bind. unfold andThen.
  destruct (run p1 w m) as [[first|x] mA wA tA]; simpl; [|done].
  destruct (ok first); simpl.
  - by rewrite app_nil_r.
  - rewrite run_bind. unfold andThen.
    destruct (run p2 wA mA) as [[second|x] mB wB tB]; simpl; [|done].
    destruct (ok second); simpl; by rewrite app_nil_r.
Qed.

(** [lcGraphql] sends exactly one request and never writes the session
    map. *)
Lemma lcGraphql_read_only session query variables :
  read_only (lcGraphql session query variables).
Proof.
  unfold lcGraphql, lcFetch.
  apply read_only_bind; [auto with prog|]. intros resp.
  apply read_only_bind; [auto with prog|]. intros text.
  destruct (JSON_parse text) as [j|]; [|constructor].
  destruct (negb (up_ok resp)); [constructor|].
  apply read_only_bind; [auto with prog|]. intros errors.
  destruct (Js.truthy _); [constructor|].
  apply read_only_bind; [auto with prog|]. intros; constructor.
Qed.

Lemma lcGraphql_trace session query variables w m :
  trace (run (lcGraphql session query variables) w m) =
  [lcFetch_request session "/graphql/" (lcGraphql_init query variables)].
Proof.
  unfold lcGraphql, lcFetch, fetch. simpl.
  destruct (fetch_step w _) as [[msg|r] w']; simpl; [done|].
  f_equal. unfold resp_text.
  destruct (up_text r) as [t|]; simpl; [|done].
  destruct (JSON_parse t) as [j|]; simpl; [|done].
  destruct (negb (up_ok r)); simpl; [done|].
  destruct (Js.get j "errors") as [e|errors]; simpl; [done|].
  destruct (Js.truthy _); simpl; [done|].
  by destruct (Js.get j "data").
Qed.

(** What a successful [lcGraphql] means: the upstream answered 2xx, the
    body is JSON, and it has no non-empty [errors]. *)
Lemma lcGraphql_success session query variables w m r :
  result (run (lcGraphql session query variables) w m) = Returned r ->
  ok r = true ->
  exists rsp text parsed,
    fst (fetch_step w (lcFetch_request session "/graphql/"
                         (lcGraphql_init query variables))) = Responded rsp
    /\ up_ok rsp = true /\ up_text rsp = Some text
    /\ JSON_parse text = Some parsed
    /\ Js.truthy (Js.get_opt (Js.get_opt parsed "errors") "length") = false
    /\ r = Ok 200 (Js.get_opt parsed "data").
Proof.
  intros Hrun Hok.
  unfold lcGraphql, lcFetch, fetch in Hrun. simpl in Hrun.
  destruct (fetch_step w _) as [[msg|rsp] w']; simpl in *; [done|].
  unfold resp_text in Hrun.
  destruct (up_text rsp) as [text|] eqn:Ht; simpl in Hrun; [|done].
  destruct (JSON_parse text) as [parsed|] eqn:Hp; simpl in Hrun.
  2:{ injection Hrun as <-. done. }
  destruct (up_ok rsp) eqn:Hup; simpl in Hrun.
  2:{ injection Hrun as <-. done. }
  exists rsp, text, parsed.
  assert (Js.get_opt parsed "errors" = match Js.get parsed "errors" with
          | inl _ => VUndef | inr v => v end) as -> by reflexivity.
  assert (Js.get_opt parsed "data" = match Js.get parsed "data" with
          | inl _ => VUndef | inr v => v end) as -> by reflexivity.
  destruct (Js.get parsed "errors") as [e|errors]; simpl in Hrun; [done|].
  destruct (Js.truthy (Js.get_opt errors "length")) eqn:Herr; simpl in Hrun.
  { injection Hrun as <-. done. }
  destruct (Js.get parsed "data") as [e|data]; simpl in Hrun; [done|].
  injection Hrun as <-. done.
Qed.

Lemma two_queries_law (pA pB : Prog (Result value)) w m :
  first_failure_fallback
    (bind pA (fun first =>
       if ok first then Ret first
       else bind pB (fun second =>
              if ok second then Ret second else Ret first)))
    pA pB w m.
Proof.
  unfold first_failure_fallback. rewrite run_two_queries. cbv zeta.
  destruct (result (run pA w m)) as [first0|x] eqn:HA.
  - split; [|split].
    + intros first Hf Hok. injection Hf as ->. by rewrite Hok.
    + intros first second Hf Hok HB Hok2. injection Hf as ->.
      rewrite Hok. simpl. by rewrite HB, Hok2.
    + intros first second Hf Hok HB Hok2. injection Hf as ->.
      rewrite Hok. simpl. by rewrite HB, Hok2.
  - split; [|split]; intros; discriminate.
Qed.

(** C1 (as the code has it).  Both fallbacks, [lcProblemsetQuestionList] and
    [lcQuestion], send the first query shape; when it succeeds its result is
    returned and the second query is never sent (the run is the run of the
    first query alone, and that run sends one request).  When the first
    fails, the second shape is sent with the same variables and its result
    is returned if it succeeds.  When both fail, the failure returned is the
    first query's, not the second's.  A query succeeds only on a 2xx answer
    whose body is JSON without a non-empty [errors]. *)
Theorem fallback_returns_first_failure
    (session : option Session) (variables : value) (titleSlug : string)
    (w : W) (m : gmap string Session) :
  first_failure_fallback
    (lcProblemsetQuestionList session variables)
    (lcGraphql session QUERY_PROBLEMSET_LIST variables)
    (lcGraphql session QUERY_PROBLEMSET_LIST_TITLECN variables) w m
  /\ first_failure_fallback
    (lcQuestion session titleSlug)
    (lcGraphql session QUERY_QUESTION (VObj [("titleSlug", VStr titleSlug)]))
    (lcGraphql session QUERY_QUESTION_TITLECN (VObj [("titleSlug", VStr titleSlug)]))
    w m
  /\ (forall query,
        length (trace (run (lcGraphql session query variables) w m)) = 1%nat)
  /\ (forall query r,
        result (run (lcGraphql session query variables) w m) = Returned r ->
        ok r = true ->
        exists rsp text parsed,
          fst (fetch_step w (lcFetch_request session "/graphql/"
                               (lcGraphql_init query variables))) = Responded rsp
          /\ up_ok rsp = true /\ up_text rsp = Some text
          /\ JSON_parse text = Some parsed
          /\ Js.truthy (Js.get_opt (Js.get_opt parsed "errors") "length") = false
          /\ r = Ok 200 (Js.get_opt parsed "data")).
Proof.
  split; [apply two_queries_law|]. split; [apply two_queries_law|].
  split.
  - intros query. by rewrite lcGraphql_trace.
  - intros query r. apply lcGraphql_success.
Qed.

End FallbackFacts.

(* ===================================================================== *)
(** * The upstream request builder *)
(* ===================================================================== *)

Section FetchFacts.

Lemma has_false_lookup (h : gmap string string) (name : string) :
  Headers.has h name = false -> h !! Headers.lower_name name = None.
Proof.
  unfold Headers.has. intros Hb. apply bool_decide_eq_false in Hb.
  by apply eq_None_not_Some.
Qed.

Lemma has_true_lookup (h : gmap string string) (name : string) :
  Headers.has h name = true -> exists v, h !! Headers.lower_name name = Some v.
Proof.
  unfold Headers.has. intros Hb. by apply bool_decide_eq_true in Hb.
Qed.

Ltac header_cases :=
  repeat match goal with
  | |- context [match ?o with Some _ => _ | None => _ end] =>
      let E := fresh "E" in destruct o eqn:E
  | |- context [if negb (Headers.has ?h ?n) then _ else _] =>
      let E := fresh "E" in
      destruct (Headers.has h n) eqn:E;
      [apply has_true_lookup in E as [? E] | apply has_false_lookup in E];
      simpl negb; cbv iota
  end.

Lemma strip_end_last (s : string) (c : ascii) :
  Headers.is_http_ws c = false ->
  Headers.strip_end (s +:+ String c EmptyString) = s +:+ String c EmptyString.
Proof.
  intros Hc. induction s as [|a s IH].
  - simpl. by rewrite Hc.
  - change (String a s +:+ String c EmptyString)
      with (String a (s +:+ String c EmptyString)).
    cbn [Headers.strip_end]. rewrite IH.
    destruct s; reflexivity.
Qed.

Lemma append_assoc (a b c : string) : a +:+ (b +:+ c) = (a +:+ b) +:+ c.
Proof.
  induction a as [|x a IH]; [done|].
  change (String x (a +:+ (b +:+ c)) = String x ((a +:+ b) +:+ c)).
  by rewrite IH.
Qed.

(** The default referer is stored as it is built. *)
Lemma normalize_referer (dom : string) :
  Headers.normalize ("https://" +:+ dom +:+ "/") = "https://" +:+ dom +:+ "/".
Proof.
  unfold Headers.normalize.
  change (Headers.strip_start ("https://" +:+ dom +:+ "/"))
    with ("https://" +:+ dom +:+ "/").
  rewrite (append_assoc "https://" dom "/").
  by apply strip_end_last.
Qed.

(** C8 (as the code has it).  For a session and caller's headers that the
    [Headers] object accepts (otherwise the builder throws before it sends
    anything), the request [lcFetch] sends goes to the path itself when the
    path starts with the four characters [http] (this is the code's test
    for an absolute URL), and otherwise to [https://] followed by the
    session's domain (leetcode.com for a null session or a session without
    a domain) and the path.  Its headers are the caller's, with the
    session's cookie and CSRF token set whenever the session has them, the
    session's language preference set when the session has one AND the
    caller supplied no [accept-language], and [referer] and [origin] set to
    the domain's defaults exactly when the caller supplied none.  A value
    is stored without its leading and trailing HTTP white space. *)
Theorem lcFetch_request_shape
    (session : option Session) (path : string) (init : RequestInit) :
  let rq := lcFetch_request session path init in
  let caller := Headers.of_init (init_headers init) in
  let dom := domain_of session in
  lcFetch_valid session init = true ->
  dom = match session with
        | Some {| domain := Some d |} =>
            if JsString.nonempty d then d else "leetcode.com"
        | _ => "leetcode.com"
        end
  /\ rq_url rq = (if JsString.startsWith path "http" then path
                  else "https://" +:+ dom +:+ path)
  /\ rq_method rq = init_method init
  /\ rq_body rq = init_body init
  /\ rq_headers rq !! "cookie" =
       match truthy_field session cookie with
       | Some c => Some (Headers.normalize c)
       | None => caller !! "cookie"
       end
  /\ rq_headers rq !! "x-csrftoken" =
       match truthy_field session csrftoken with
       | Some t => Some (Headers.normalize t)
       | None => caller !! "x-csrftoken"
       end
  /\ rq_headers rq !! "accept-language" =
       match caller !! "accept-language" with
       | Some supplied => Some supplied
       | None =>
           match truthy_field session acceptLanguage with
           | Some l => Some (Headers.normalize l)
           | None => None
           end
       end
  /\ rq_headers rq !! "referer" =
       Some (default ("https://" +:+ dom +:+ "/") (caller !! "referer"))
  /\ rq_headers rq !! "origin" =
       Some (default (Headers.normalize ("https://" +:+ dom))
                     (caller !! "origin"))
  /\ (forall name, name ∉ ["cookie"; "x-csrftoken"; "accept-language";
                           "referer"; "origin"] ->
        rq_headers rq !! name = caller !! name)
  /\ (forall c, truthy_field session cookie = Some c ->
        Headers.valid_value c = true)
  /\ (forall t, truthy_field session csrftoken = Some t ->
        Headers.valid_value t = true).
Proof.
  intros rq caller dom Hvalid. subst rq dom.
  split.
  { unfold domain_of, truthy_field. destruct session as [[[d|] ? ? ? ?]|]; simpl; try done.
    by destruct (JsString.nonempty d). }
  split; [done|]. split; [done|]. split; [done|].
  assert ((forall c, truthy_field session cookie = Some c ->
             Headers.valid_value c = true)
          /\ (forall t, truthy_field session csrftoken = Some t ->
                Headers.valid_value t = true)) as Hcred.
  { unfold lcFetch_valid in Hvalid.
    repeat (apply andb_true_iff in Hvalid as [Hvalid ?]).
    split; intros v Hv; by rewrite Hv in *. }
  unfold lcFetch_request, lcFetch_headers, Headers.set; simpl rq_headers.
  rewrite normalize_referer.
  change (Headers.lower_name "cookie") with "cookie".
  change (Headers.lower_name "x-csrftoken") with "x-csrftoken".
  change (Headers.lower_name "accept-language") with "accept-language".
  change (Headers.lower_name "referer") with "referer".
  change (Headers.lower_name "origin") with "origin".
  fold caller.
  split; [|split; [|split; [|split; [|split; [|split; [|exact Hcred]]]]]];
    clear Hvalid Hcred.
  - header_cases; change (Headers.lower_name ?x) with x in *; simplify_map_eq; done.
  - header_cases; simplify_map_eq; done.
  - header_cases; simplify_map_eq; done.
  - header_cases; simplify_map_eq; done.
  - header_cases; simplify_map_eq; done.
  - intros name Hname.
    assert (name <> "cookie" /\ name <> "x-csrftoken" /\ name <> "accept-language"
            /\ name <> "referer" /\ name <> "origin") as (?&?&?&?&?).
    { repeat split; intros ->; apply Hname; set_solver. }
    header_cases; simplify_map_eq; done.
Qed.

End FetchFacts.

(* ===================================================================== *)
(** * Upstream failures in the request helpers *)
(* ===================================================================== *)

Section FailureFacts.
Context `{JsLib} {W : Type} `{World W}.

Lemma run_lcFetch session path init w m :
  run (lcFetch session path init) w m =
  let '(o, w') := fetch_step w (lcFetch_request session path init) in
  {| result := match o with
               | Unreachable msg => Threw (NetworkError msg)
               | Responded r => Returned r
               end;
     sessions := m; world := w';
     trace := [lcFetch_request session path init] |}.
Proof.
  unfold lcFetch, fetch. simpl.
  by destruct (fetch_step w _) as [[msg|r] w'].
Qed.

(** C7 (as the code has it).  For [lcGraphql], [lcSubmit] and
    [lcSubmissionCheck]: an upstream answer whose status is not 2xx is
    returned, not thrown, as a failure value carrying the status code and
    the body (the parsed JSON when the body parses, the raw text otherwise;
    [lcGraphql] does not catch a body that cannot be read, the other two
    read it as the empty text); a rejected [fetch] is not caught, so the
    caller receives the very exception [fetch] raised; and the only error
    codes the helpers put in a failure value are INVALID_JSON, HTTP_ERROR,
    GRAPHQL_ERROR and NO_SUBMISSION_ID. *)
Theorem helpers_surface_upstream_failures
    (session : option Session) (query : string) (variables : value)
    (titleSlug : string) (questionId : value) (lang typedCode : string)
    (submissionId : number) (slug : option string)
    (w : W) (m : gmap string Session) :
  let rqG := lcFetch_request session "/graphql/" (lcGraphql_init query variables) in
  let rqS := lcFetch_request session
               ("/problems/" +:+ encodeURIComponent titleSlug +:+ "/submit/")
               (lcSubmit_init session titleSlug questionId lang typedCode) in
  let rqC := lcFetch_request session
               ("/submissions/detail/"
                +:+ encodeURIComponent (Number_toString submissionId) +:+ "/check/")
               (lcSubmissionCheck_init session submissionId slug) in
  let eG := run (lcGraphql session query variables) w m in
  let eS := run (lcSubmit session titleSlug questionId lang typedCode) w m in
  let eC := run (lcSubmissionCheck session submissionId slug) w m in
  (forall r w' t,
     fetch_step w rqG = (Responded r, w') -> up_ok r = false ->
     up_text r = Some t ->
     result eG = Returned
       (match JSON_parse t with
        | Some parsed => Failed (up_status r) "HTTP_ERROR" parsed
        | None => Failed (up_status r) "INVALID_JSON" (VStr t)
        end))
  /\ (forall r w',
     fetch_step w rqG = (Responded r, w') -> up_text r = None ->
     result eG = Threw BodyError)
  /\ (forall r w',
     fetch_step w rqS = (Responded r, w') -> up_ok r = false ->
     result eS = Returned
       (Failed (up_status r) "HTTP_ERROR"
          (Js.coalesce (parse_or_null (text_or_empty r)) (VStr (text_or_empty r)))))
  /\ (forall r w',
     fetch_step w rqC = (Responded r, w') -> up_ok r = false ->
     result eC = Returned
       (Failed (up_status r) "HTTP_ERROR"
          (Js.coalesce (parse_or_null (text_or_empty r)) (VStr (text_or_empty r)))))
  /\ (forall msg w', fetch_step w rqG = (Unreachable msg, w') ->
        result eG = Threw (NetworkError msg))
  /\ (forall msg w', fetch_step w rqS = (Unreachable msg, w') ->
        result eS = Threw (NetworkError msg))
  /\ (forall msg w', fetch_step w rqC = (Unreachable msg, w') ->
        result eC = Threw (NetworkError msg))
  /\ (forall st code raw, result eG = Returned (Failed st code raw) ->
        code ∈ ["INVALID_JSON"; "HTTP_ERROR"; "GRAPHQL_ERROR"])
  /\ (forall st code raw, result eS = Returned (Failed st code raw) ->
        code ∈ ["HTTP_ERROR"; "NO_SUBMISSION_ID"])
  /\ (forall st code raw, result eC = Returned (Failed st code raw) ->
        code = "HTTP_ERROR").
Proof.
  intros rqG rqS rqC eG eS eC.
  subst eG eS eC. unfold lcGraphql, lcSubmit, lcSubmissionCheck.
  rewrite !run_bind, !run_lcFetch. fold rqG rqS rqC. unfold andThen.
  repeat split.
  - intros r w' t -> Hok Ht. simpl. rewrite run_bind. unfold andThen, resp_text.
    rewrite Ht. simpl. destruct (JSON_parse t); simpl; [|done]. by rewrite Hok.
  - intros r w' -> Ht. simpl. rewrite run_bind. unfold andThen, resp_text.
    by rewrite Ht.
  - intros r w' -> Hok. simpl. by rewrite Hok.
  - intros r w' -> Hok. simpl. by rewrite Hok.
  - by intros msg w' ->.
  - by intros msg w' ->.
  - by intros msg w' ->.
  - intros st code raw. destruct (fetch_step w rqG) as [[msg|r] w']; simpl; [done|].
    rewrite run_bind. unfold andThen, resp_text.
    destruct (up_text r) as [t|]; simpl; [|done].
    destruct (JSON_parse t) as [j|]; simpl; [|intros; simplify_eq; set_solver].
    destruct (negb (up_ok r)); simpl; [intros; simplify_eq; set_solver|].
    rewrite run_bind. unfold andThen.
    destruct (Js.get j "errors") as [e|errors]; simpl; [done|].
    destruct (Js.truthy _); simpl; [intros; simplify_eq; set_solver|].
    rewrite run_bind. unfold andThen. by destruct (Js.get j "data").
  - intros st code raw. destruct (fetch_step w rqS) as [[msg|r] w']; simpl; [done|].
    destruct (negb (up_ok r)); simpl; [intros; simplify_eq; set_solver|].
    destruct (negb (Js.truthy _)); simpl; [intros; simplify_eq; set_solver|].
    unfold Js.ToNumber. by destruct (Js.convertible _).
  - intros st code raw. destruct (fetch_step w rqC) as [[msg|r] w']; simpl; [done|].
    destruct (negb (up_ok r)); simpl; [intros; simplify_eq; done|done].
Qed.

End FailureFacts.

(* ===================================================================== *)
(** * The cookie matcher finds exactly the pairs *)
(* ===================================================================== *)

Section CookieFacts.
Import CookieRegex.

Lemma append_nil (s : string) : EmptyString +:+ s = s.
Proof. reflexivity. Qed.

Lemma append_cons (c : ascii) (a b : string) :
  String c a +:+ b = String c (a +:+ b).
Proof. reflexivity. Qed.

Lemma match_name_spec (name s r : string) :
  match_name name s = Some r <-> exists n, s = n +:+ r /\ same_name name n.
Proof.
  revert s. induction name as [|a name IH]; intros s; simpl.
  - split.
    + intros [= ->]. by exists EmptyString.
    + intros ([|? ?] & -> & Hn); [done | destruct Hn].
  - destruct s as [|b s].
    + split; [done|]. intros ([|? ?] & Hs & Hn); [destruct Hn | discriminate Hs].
    + destruct (Ascii.eqb_spec (canon a) (canon b)) as [Hab|Hab].
      * rewrite IH. split.
        -- intros (n & -> & Hn). exists (String b n). by rewrite append_cons.
        -- intros ([|b' n] & Hs & Hn); [destruct Hn|].
           rewrite append_cons in Hs. injection Hs as -> ->.
           destruct Hn as [_ Hn]. eauto.
      * split; [done|].
        intros ([|b' n] & Hs & Hn); [destruct Hn|].
        rewrite append_cons in Hs. injection Hs as -> ->.
        by destruct Hn.
Qed.

Lemma take_value_nonempty (r : string) :
  JsString.nonempty (take_value r) = true <->
  exists c after, r = String c after /\ c <> ";"%char.
Proof.
  destruct r as [|c r]; simpl.
  - split; [done|]. by intros (?&?&?&?).
  - destruct (Ascii.eqb_spec c ";"%char) as [->|Hc]; simpl.
    + split; [done|]. intros (?&?&[= <- <-]&?). done.
    + split; [eauto|done].
Qed.

Lemma match_pair_spec (name s : string) :
  is_Some (match_pair name s) <-> pair_at name s.
Proof.
  unfold match_pair, pair_at. split.
  - destruct (match_name name s) as [[|c r]|] eqn:Hm; try by intros [? [=]].
    destruct (Ascii.eqb_spec c "="%char) as [->|]; [|by intros [? [=]]].
    destruct (JsString.nonempty (take_value r)) eqn:Hv; [|by intros [? [=]]].
    intros _. apply match_name_spec in Hm as (n & -> & Hn).
    apply take_value_nonempty in Hv as (c & after & -> & Hc). eauto 6.
  - intros (n & c & after & -> & Hn & Hc).
    assert (match_name name (n +:+ String "="%char (String c after))
            = Some (String "="%char (String c after))) as ->.
    { apply match_name_spec. eauto. }
    simpl.
    assert (JsString.nonempty (take_value (String c after)) = true) as Hv.
    { apply take_value_nonempty. eauto. }
    simpl in Hv. simpl. by rewrite Hv.
Qed.

Lemma match_after_ws_of_pair (name s : string) :
  is_Some (match_pair name s) -> is_Some (match_after_ws name s).
Proof.
  intros Hp. destruct s as [|c r]; simpl; [done|].
  destruct (JsString.is_ws c); [|done].
  by destruct (match_after_ws name r).
Qed.

Lemma match_after_ws_spec (name s : string) :
  is_Some (match_after_ws name s) <->
  exists ws rest, s = ws +:+ rest /\ all_ws ws /\ pair_at name rest.
Proof.
  split.
  - induction s as [|c r IH]; simpl.
    + intros Hp. exists EmptyString, EmptyString.
      by rewrite <- match_pair_spec.
    + destruct (JsString.is_ws c) eqn:Hc.
      * destruct (match_after_ws name r) as [v|] eqn:Hr.
        -- intros _. destruct IH as (ws & rest & -> & Hws & Hp); [done|].
           exists (String c ws), rest. by rewrite append_cons.
        -- intros Hp. exists EmptyString, (String c r).
           by rewrite <- match_pair_spec.
      * intros Hp. exists EmptyString, (String c r).
        by rewrite <- match_pair_spec.
  - intros (ws & rest & -> & Hws & Hp). apply match_pair_spec in Hp.
    induction ws as [|c ws IH].
    + by apply match_after_ws_of_pair.
    + destruct Hws as [Hc Hws]. rewrite append_cons. simpl. rewrite Hc.
      by destruct (IH Hws) as [v ->].
Qed.

Lemma search_spec (at_start : bool) (name s : string) :
  is_Some (search at_start name s) <->
  (at_start = true /\ pair_at name s)
  \/ exists head ws rest,
       s = head +:+ String ";"%char (ws +:+ rest)
       /\ all_ws ws /\ pair_at name rest.
Proof.
  revert at_start. induction s as [|c r IH]; intros at_start.
  - simpl. unfold match_at. split.
    + destruct at_start; [|by intros [? [=]]].
      destruct (match_pair name EmptyString) eqn:Hp; [|by intros [? [=]]].
      intros _. left. split; [done|]. apply match_pair_spec. by rewrite Hp.
    + intros [[-> Hp]|(head & ws & rest & Hs & _)].
      * apply match_pair_spec in Hp as [v ->]. done.
      * destruct head; discriminate Hs.
  - simpl. unfold match_at.
    destruct (if at_start then match_pair name (String c r) else None)
      as [v|] eqn:Hstart.
    { split; [|done]. intros _. left. destruct at_start; [|done].
      split; [done|]. apply match_pair_spec. by rewrite Hstart. }
    assert (~ (at_start = true /\ pair_at name (String c r))) as Hno.
    { intros [-> Hp]. apply match_pair_spec in Hp as [v Hv]. congruence. }
    destruct (Ascii.eqb_spec c ";"%char) as [->|Hc].
    + destruct (match_after_ws name r) as [v|] eqn:Hr.
      * split; [|done]. intros _. right.
        destruct (proj1 (match_after_ws_spec name r)) as (ws & rest & -> & ? & ?);
          [by rewrite Hr|].
        by exists EmptyString, ws, rest.
      * rewrite IH. split.
        -- intros [[[=] _]|(head & ws & rest & -> & ? & ?)].
           right. exists (String ";"%char head), ws, rest. by rewrite append_cons.
        -- intros [?|(head & ws & rest & Hs & Hws & Hp)]; [done|]. right.
           destruct head as [|c' head].
           ++ rewrite append_nil in Hs. injection Hs as ->.
              assert (is_Some (match_after_ws name (ws +:+ rest))) as [? ?];
                [|congruence].
              apply match_after_ws_spec. eauto.
           ++ rewrite append_cons in Hs. injection Hs as -> ->.
              by exists head, ws, rest.
    + rewrite IH. split.
      * intros [[[=] _]|(head & ws & rest & -> & ? & ?)].
        right. exists (String c head), ws, rest. by rewrite append_cons.
      * intros [?|(head & ws & rest & Hs & Hws & Hp)]; [done|]. right.
        destruct head as [|c' head].
        -- rewrite append_nil in Hs. by injection Hs as -> _.
        -- rewrite append_cons in Hs. injection Hs as -> ->.
           by exists head, ws, rest.
Qed.

(** The matcher returns a value exactly when the text holds a pair, and the
    value it returns is never empty. *)
Lemma extractCookieValue_spec (cookieStr name : string) :
  is_Some (extractCookieValue cookieStr name) <-> has_pair name cookieStr.
Proof.
  unfold extractCookieValue, has_pair. rewrite search_spec.
  split; (intros [Hp|Hp]; [left|by right]); [apply Hp|done].
Qed.

Lemma match_pair_nonempty (name s v : string) :
  match_pair name s = Some v -> JsString.nonempty v = true.
Proof.
  unfold match_pair. destruct (match_name name s) as [[|c r]|]; try done.
  destruct (Ascii.eqb c "="%char); [|done].
  destruct (JsString.nonempty (take_value r)) eqn:Hv; [|done].
  by intros [= <-].
Qed.

Lemma match_after_ws_nonempty (name s v : string) :
  match_after_ws name s = Some v -> JsString.nonempty v = true.
Proof.
  induction s as [|c r IH]; simpl.
  - apply match_pair_nonempty.
  - destruct (JsString.is_ws c); [|apply match_pair_nonempty].
    destruct (match_after_ws name r) as [v'|]; [|apply match_pair_nonempty].
    intros [= <-]. by apply IH.
Qed.

Lemma search_nonempty (at_start : bool) (name s v : string) :
  search at_start name s = Some v -> JsString.nonempty v = true.
Proof.
  revert at_start.
  induction s as [|c r IH]; intros b; simpl; unfold match_at.
  - destruct b; simpl; [|done].
    destruct (match_pair name EmptyString) eqn:Hp; [|done].
    intros [= <-]. by eapply match_pair_nonempty.
  - destruct (if b then match_pair name (String c r) else None) as [v'|] eqn:Hs.
    { intros [= <-]. destruct b; [|done]. by eapply match_pair_nonempty. }
    destruct (Ascii.eqb c ";"%char); [|apply IH].
    destruct (match_after_ws name r) as [v'|] eqn:Hr; [|apply IH].
    intros [= <-]. by eapply match_after_ws_nonempty.
Qed.

Lemma extractCookieValue_nonempty (cookieStr name v : string) :
  extractCookieValue cookieStr name = Some v -> JsString.nonempty v = true.
Proof. apply search_nonempty. Qed.

Lemma falsy_opt_extract (cookieStr name : string) :
  falsy_opt (extractCookieValue cookieStr name) = true <->
  ~ has_pair name cookieStr.
Proof.
  rewrite <- extractCookieValue_spec. unfold falsy_opt.
  destruct (extractCookieValue cookieStr name) as [v|] eqn:Hv.
  - rewrite (extractCookieValue_nonempty _ _ _ Hv). simpl.
    split; [done|]. intros Hn. destruct Hn. eauto.
  - split; [|done]. intros _ [? [=]].
Qed.

End CookieFacts.

(* ===================================================================== *)
(** * Signing in with a cookie *)
(* ===================================================================== *)

Section SignInFacts.
Context `{JsLib} {W : Type} `{World W}.

Lemma nonempty_true (s : string) : JsString.nonempty s = true <-> s <> EmptyString.
Proof. destruct s; simpl; split; congruence. Qed.


Lemma convertible_or (v : value) (dflt : string) :
  Js.convertible v = true ->
  Js.ToString (Js.or v (VStr dflt)) = inr (Js.toString (Js.or v (VStr dflt))).
Proof.
  intros Hv. unfold Js.ToString, Js.or.
  destruct (Js.truthy v); [by rewrite Hv|done].
Qed.

(** C2 (as the code has it).  The handler first converts the [cookie] and
    the [domain] of the body with [String]; when one of the two conversions
    throws (a field that holds an object with an own [toString]), so does
    the handler, before it validates anything.  When both return: a sign-in
    whose cookie text is empty after trimming is refused with 400
    COOKIE_REQUIRED; one whose trimmed cookie text is not empty but holds
    no [csrftoken=value] pair, or no [LEETCODE_SESSION=value] pair, is
    refused with 400 COOKIE_INVALID.  In both cases nothing is sent
    upstream and the session map is untouched. *)
Theorem sign_in_refuses_incomplete_cookie
    (req : Request) (w : W) (m : gmap string Session) :
  let cookieField := Js.get_opt (req_body req) "cookie" in
  let domainField := Js.get_opt (req_body req) "domain" in
  let cookie := signin_cookie req in
  let e := run (post_auth_cookie req) w m in
  Js.convertible cookieField = true -> Js.convertible domainField = true ->
  (exists c d,
     Js.ToString (Js.or cookieField (VStr "")) = inr c
     /\ Js.ToString (Js.or domainField (VStr "leetcode.com")) = inr d
     /\ cookie = JsString.trim c)
  /\ (cookie = EmptyString ->
     e = {| result := Returned (json 400 (VObj [("error", VStr "COOKIE_REQUIRED")]));
            sessions := m; world := w; trace := [] |})
  /\ (cookie <> EmptyString ->
      ~ has_pair "csrftoken" cookie \/ ~ has_pair "LEETCODE_SESSION" cookie ->
      e = {| result :=
               Returned (json 400 (VObj [("error", VStr "COOKIE_INVALID");
                                         ("message", VStr MSG_COOKIE_INVALID)]));
             sessions := m; world := w; trace := [] |}).
Proof.
  intros cookieField domainField cookie e Hcookie Hdomain.
  split.
  { eexists _, _. split; [by apply convertible_or|].
    split; [by apply convertible_or|]. reflexivity. }
  clear Hcookie Hdomain.
  subst e. unfold post_auth_cookie. fold cookie. split.
  - intros ->. done.
  - intros Hne%nonempty_true Hlacks. rewrite Hne. simpl negb. cbv iota.
    assert (falsy_opt (extractCookieValue cookie "csrftoken")
            || falsy_opt (extractCookieValue cookie "LEETCODE_SESSION") = true)
      as ->; [|done].
    apply orb_true_iff.
    destruct Hlacks as [Hl|Hl]; [left|right]; by apply falsy_opt_extract.
Qed.





End SignInFacts.

(* ===================================================================== *)
(** * The localization fill-in *)
(* ===================================================================== *)

Section FillFacts.
Context `{JsLib} {W : Type} `{World W}.

Lemma map_exn_Forall {A B} (f : A -> Exn + B) (l : list A) (ys : list B) :
  map_exn f l = inr ys -> Forall (fun y => exists x, f x = inr y) ys.
Proof.
  revert ys. induction l as [|x l IH]; simpl; intros ys.
  - intros [= <-]. constructor.
  - destruct (f x) as [e|y] eqn:Hx; [done|].
    destruct (map_exn f l) as [e|ys']; [done|].
    intros [= <-]. constructor; eauto.
Qed.

Lemma map_exn_Forall2 {A B} (f : A -> Exn + B) (l : list A) (ys : list B) :
  map_exn f l = inr ys <-> Forall2 (fun x y => f x = inr y) l ys.
Proof.
  revert ys. induction l as [|x l IH]; simpl; intros ys.
  - split; [intros [= <-]; constructor|]. by intros ->%Forall2_nil_inv_l.
  - split.
    + destruct (f x) as [e|y] eqn:Hx; [done|].
      destruct (map_exn f l) as [e|ys'] eqn:Hl; [done|].
      intros [= <-]. constructor; [done|]. by apply IH.
    + intros (y & ys' & Hx & Hl & ->)%Forall2_cons_inv_l.
      rewrite Hx. apply IH in Hl. by rewrite Hl.
Qed.

Lemma map_exn_fails {A B} (f : A -> Exn + B) (l : list A) :
  (exists e, map_exn f l = inl e) <-> Exists (fun x => exists e, f x = inl e) l.
Proof.
  induction l as [|x l IH]; simpl.
  - split; [by intros [? [=]]|]. by intros ?%Exists_nil.
  - rewrite Exists_cons, <- IH.
    destruct (f x) as [e|y]; [split; eauto|].
    destruct (map_exn f l) as [e|ys];
      (split;
       [ intros [e' He]; first [discriminate | eauto]
       | intros [[e' He]|[e' He]]; first [discriminate | eauto] ]).
Qed.

Lemma Exists_equiv {A} (P Q : A -> Prop) (l : list A) :
  (forall x, P x <-> Q x) -> Exists P l <-> Exists Q l.
Proof.
  intros HPQ. rewrite !Exists_exists.
  split; intros (x & Hin & Hx); exists x; (split; [done|by apply HPQ]).
Qed.

(** A filter that returns kept, in order, the elements its test accepts,
    and its test threw on none. *)
Lemma filter_exn_inr {A} (f : A -> Exn + bool) (l kept : list A) :
  filter_exn f l = inr kept ->
  Forall (fun x => exists b, f x = inr b) l
  /\ kept = List.filter (fun x => match f x with
                                  | inr b => b
                                  | inl _ => false
                                  end) l.
Proof.
  revert kept. induction l as [|x l IH]; simpl; intros kept.
  - intros [= <-]. by split.
  - destruct (f x) as [e|b] eqn:Hx; [done|].
    destruct (filter_exn f l) as [e|kept'] eqn:Hl; [done|].
    intros [= <-]. destruct (IH kept' eq_refl) as [Hall ->].
    split; [constructor; eauto|]. by destruct b.
Qed.

Lemma filter_exn_Forall {A} (P : A -> Prop) (f : A -> Exn + bool) (l kept : list A) :
  filter_exn f l = inr kept -> Forall P l -> Forall P kept.
Proof.
  intros [_ ->]%filter_exn_inr Hall.
  rewrite Forall_forall in Hall. apply Forall_forall.
  intros it Hin. apply Hall. apply list_elem_of_In.
  apply list_elem_of_In, filter_In in Hin. apply Hin.
Qed.

(** Every 200 answer of the list carries [items], and each of them is the
    image of a REST pair or of a GraphQL node, filled in or not. *)
Lemma problems_rest_items session category q (w : W) m resp :
  result (run (problems_rest session category q) w m) = Returned resp ->
  res_status resp = 200%Z ->
  exists items, res_body resp = VObj [("items", VArr items)]
                /\ Forall list_item items.
Proof.
  unfold problems_rest. rewrite run_bind. unfold andThen.
  destruct (run (lcFetch _ _ _) w m) as [[r|x] m1 w1 t1];
    cbn [result sessions world trace]; [|done].
  destruct (negb (up_ok r)).
  { simpl. intros [= <-]. done. }
  rewrite run_bind. unfold andThen, resp_text.
  destruct (up_text r) as [text|]; [|done]. simpl.
  destruct (JSON_parse text) as [raw|]; [|done].
  rewrite run_bind. unfold andThen.
  destruct (map_exn rest_item _) as [e|items] eqn:Hmap; [done|].
  cbn [lift run result sessions world trace].
  apply map_exn_Forall in Hmap.
  assert (Forall list_item items) as Hall.
  { eapply Forall_impl; [exact Hmap|]. intros it [p0 Hp]. left. eauto. }
  rewrite run_bind. unfold andThen.
  destruct (JsString.nonempty q).
  - destruct (filter_exn (rest_matches q) items) as [e|kept] eqn:Hkept; [done|].
    cbn [lift run result sessions world trace].
    intros [= <-] _. eexists. split; [done|].
    by apply (filter_exn_Forall _ _ _ _ Hkept).
  - cbn [lift run result sessions world trace]. intros [= <-] _. eauto.
Qed.

Lemma problems_list_items session category q zh (w : W) m resp :
  result (run (problems_list session category q zh) w m) = Returned resp ->
  res_status resp = 200%Z ->
  exists items, res_body resp = VObj [("items", VArr items)]
                /\ Forall list_item items.
Proof.
  unfold problems_list. destruct zh; [|apply problems_rest_items].
  rewrite run_bind. unfold andThen.
  destruct (run (lcProblemsetQuestionList _ _) w m) as [[gql|x] m1 w1 t1];
    cbn [result sessions world trace]; [|done].
  destruct (questions_of gql) as [questions|].
  2:{ intros Hres. apply (problems_rest_items session category q w1 m1).
      exact Hres. }
  rewrite run_bind. unfold andThen.
  destruct (map_exn gql_item questions) as [e|items] eqn:Hmap; [done|].
  apply map_exn_Forall in Hmap.
  assert (Forall list_item items) as Hall.
  { eapply Forall_impl; [exact Hmap|]. intros it [x Hx]. right. left. eauto. }
  cbn [lift run result sessions world trace].
  destruct (_ && _).
  2:{ simpl. intros [= <-] _. eauto. }
  rewrite run_bind. unfold andThen.
  destruct (run (lcProblemsetQuestionList _ _) w1 m1) as [[cn|x] m2 w2 t2];
    cbn [result sessions world trace]; [|done].
  destruct (questions_of cn) as [cnQuestions|]; simpl; intros [= <-] _.
  - eexists. split; [done|]. apply Forall_forall. intros it Hin.
    apply list_elem_of_In, in_map_iff in Hin as (it0 & <- & Hin0).
    rewrite Forall_forall in Hmap.
    destruct (Hmap it0) as [x Hx]; [by apply list_elem_of_In|].
    right. right. eauto.
  - eauto.
Qed.

Lemma get_problems_items req (w : W) m resp :
  result (run (get_problems req) w m) = Returned resp ->
  res_status resp = 200%Z ->
  exists items, res_body resp = VObj [("items", VArr items)]
                /\ Forall list_item items.
Proof.
  unfold get_problems, getSession, sessions_get.
  destruct (truthy_sid req) as [sid|]; [|by intros [= <-]].
  rewrite run_bind. cbn [bind run]. unfold andThen.
  cbn [result sessions world trace].
  destruct (m !! sid) as [session|]; [|by intros [= <-]].
  rewrite run_bind. unfold andThen.
  destruct (is_zh (problems_lang req)); unfold sessions_set;
    cbn [bind run result sessions world trace];
    intros Hres; eapply problems_list_items; exact Hres.
Qed.

(** The question of a 200 answer of the detail handler is the upstream's
    question after [enrich_detail], for the acting session's domain and for
    what leetcode.cn answered. *)
Lemma get_problem_question req (w : W) m resp :
  result (run (get_problem req) w m) = Returned resp ->
  res_status resp = 200%Z ->
  exists sid session q cnQ q',
    truthy_sid req = Some sid /\ m !! sid = Some session
    /\ Js.truthy q = true
    /\ enrich_detail (isComDomain (default "" (domain session))) cnQ q = inr q'
    /\ res_body resp = VObj [("question", q')].
Proof.
  unfold get_problem, getSession, sessions_get.
  destruct (truthy_sid req) as [sid|]; [|by intros [= <-]].
  rewrite run_bind. cbn [bind run]. unfold andThen.
  cbn [result sessions world trace].
  destruct (m !! sid) as [session|] eqn:Hm; [|by intros [= <-]].
  destruct (negb (JsString.nonempty _)); [by intros [= <-]|].
  rewrite run_bind. unfold andThen.
  destruct (run (lcQuestion _ _) w m) as [[[st data|st code raw]|x] m1 w1 t1];
    cbn [result sessions world trace]; [|by intros [= <-]|done].
  destruct (Js.truthy (Js.get_opt data "question")) eqn:Hq;
    cbn [negb]; [|by intros [= <-]].
  destruct (isComDomain _ && missingZh _) eqn:Hguard.
  - rewrite run_bind. unfold andThen.
    destruct (run (lcQuestion _ _) w1 m1) as [[cn|x] m2 w2 t2];
      cbn [result sessions world trace]; [|done].
    rewrite run_bind. unfold andThen.
    destruct (fill_detail (question_of cn) (Js.get_opt data "question"))
      as [e|q'] eqn:Hfill; [done|].
    simpl. intros [= <-] _.
    exists sid, session, (Js.get_opt data "question"), (question_of cn), q'.
    unfold enrich_detail. by rewrite Hguard.
  - simpl. intros [= <-] _.
    exists sid, session, (Js.get_opt data "question"), VNull,
           (Js.get_opt data "question").
    unfold enrich_detail. by rewrite Hguard.
Qed.

Lemma assoc_set_eq k x props : Js.assoc k (Js.set_assoc k x props) = Some x.
Proof.
  induction props as [|[k' v] rest IH]; simpl.
  - by rewrite String.eqb_refl.
  - destruct (String.eqb_spec k k') as [->|Hk]; simpl.
    + by rewrite String.eqb_refl.
    + by destruct (String.eqb_spec k k').
Qed.

Lemma assoc_set_ne k k' x props :
  k <> k' -> Js.assoc k' (Js.set_assoc k x props) = Js.assoc k' props.
Proof.
  intros Hne. induction props as [|[k0 v] rest IH]; simpl.
  - by destruct (String.eqb_spec k' k) as [->|].
  - destruct (String.eqb_spec k k0) as [->|Hk]; simpl.
    + destruct (String.eqb_spec k' k0) as [->|]; [done|done].
    + by rewrite IH.
Qed.

Lemma set_assoc_same k x props :
  Js.assoc k props = Some x -> Js.set_assoc k x props = props.
Proof.
  induction props as [|[k' v] rest IH]; simpl; [done|].
  destruct (String.eqb_spec k k') as [->|Hk].
  - by intros [= ->].
  - intros Hx. by rewrite IH.
Qed.

Lemma get_opt_set_eq k x props :
  Js.get_opt (VObj (Js.set_assoc k x props)) k = x.
Proof. unfold Js.get_opt; simpl. by rewrite assoc_set_eq. Qed.

Lemma get_opt_set_ne k k' x props :
  k <> k' ->
  Js.get_opt (VObj (Js.set_assoc k x props)) k' = Js.get_opt (VObj props) k'.
Proof. intros Hne. unfold Js.get_opt; simpl. by rewrite assoc_set_ne. Qed.

(** A property that reads as a string belongs to an object. *)
Lemma get_opt_string_is_object (v : value) (k s : string) :
  k <> "length" -> Js.get_opt v k = VStr s -> exists props, v = VObj props.
Proof.
  intros Hk. destruct v as [| |b|n|s'|l|props]; unfold Js.get_opt; simpl;
    try discriminate; [| |eauto].
  - destruct (String.eqb_spec k "length"); [done|discriminate].
  - destruct (String.eqb_spec k "length"); [done|discriminate].
Qed.

Lemma map_get_truthy_key (cnMap : gmap string value) (key : value) :
  Js.truthy (map_get cnMap key) = true -> exists k, key = VStr k.
Proof. destruct key; simpl; try discriminate. eauto. Qed.

(** The three outcomes of the list fill-in. *)
Lemma fill_titleZh_cases (cnMap : gmap string value) (it : value) :
  fill_titleZh cnMap it = it
  \/ exists props zh,
       it = VObj props
       /\ Js.truthy (Js.get_opt it "titleZh") = false
       /\ zh = map_get cnMap (Js.get_opt it "titleSlug")
       /\ Js.truthy zh = true
       /\ fill_titleZh cnMap it = VObj (Js.set_assoc "titleZh" zh props).
Proof.
  unfold fill_titleZh.
  destruct (Js.truthy (Js.get_opt it "titleZh")) eqn:Hzh; [by left|].
  destruct (Js.truthy (map_get cnMap (Js.get_opt it "titleSlug"))) eqn:Hfound;
    [|by left].
  right. destruct (map_get_truthy_key _ _ Hfound) as [k Hk].
  destruct (get_opt_string_is_object it "titleSlug" k) as [props ->]; [done|done|].
  eauto 10.
Qed.

Lemma fill_detail_cases (cnQ q q' : value) :
  fill_detail cnQ q = inr q' ->
  q' = q
  \/ exists props,
       q = VObj props /\ Js.truthy cnQ = true
       /\ q' = VObj (Js.set_assoc "translated_content"
                 (Js.or (Js.or (Js.get_opt cnQ "translated_content")
                               (Js.get_opt cnQ "content"))
                        (Js.get_opt q "translated_content"))
                 (Js.set_assoc "translated_title"
                    (Js.or (Js.or (Js.get_opt cnQ "translated_title")
                                  (Js.get_opt cnQ "title"))
                           (Js.get_opt q "translated_title"))
                    props)).
Proof.
  unfold fill_detail. destruct (Js.truthy cnQ) eqn:Hcn; [|intros [= <-]; by left].
  destruct q as [| |b|n|s|l|props]; simpl; try discriminate.
  - intros [= <-]. by left.
  - intros [= <-]. right. exists props. split; [done|]. split; [done|].
    by rewrite get_opt_set_ne.
Qed.

Lemma or_falsy (a b : value) : Js.truthy (Js.or a b) = false -> Js.or a b = b.
Proof. unfold Js.or. by destruct (Js.truthy a) eqn:Ha; [rewrite Ha|]. Qed.

Lemma or_falsy_l (a b : value) : Js.truthy (Js.or a b) = false -> Js.truthy a = false.
Proof. unfold Js.or. by destruct (Js.truthy a) eqn:Ha; [rewrite Ha|]. Qed.

(** C6.  The fill-in of a list item from the leetcode.cn map, and the
    fill-in of a problem's localized title and content from the leetcode.cn
    question, are non-destructive and idempotent: a populated (truthy)
    localized field is never changed, a second application changes nothing,
    no other field is touched, and what a list item receives is the entry
    of the map under the item's own slug.  The items of the list and the
    question of the detail handler are results of these fill-ins. *)
Theorem localization_fill_in_is_idempotent
    (cnMap : gmap string value) (it : value)
    (isCom : bool) (cnQ q : value)
    (req : Request) (w : W) (m : gmap string Session) :
  (* where the handlers apply the fill-ins *)
  (forall resp, result (run (get_problems req) w m) = Returned resp ->
     res_status resp = 200%Z ->
     exists items, res_body resp = VObj [("items", VArr items)]
                   /\ Forall list_item items)
  /\ (forall resp, result (run (get_problem req) w m) = Returned resp ->
     res_status resp = 200%Z ->
     exists sid session q0 cnQ0 q',
       truthy_sid req = Some sid /\ m !! sid = Some session
       /\ Js.truthy q0 = true
       /\ enrich_detail (isComDomain (default "" (domain session))) cnQ0 q0
          = inr q'
       /\ res_body resp = VObj [("question", q')])
  (* list items *)
  /\ (Js.truthy (Js.get_opt it "titleZh") = true -> fill_titleZh cnMap it = it)
  /\ fill_titleZh cnMap (fill_titleZh cnMap it) = fill_titleZh cnMap it
  /\ (forall k, k <> "titleZh" ->
        Js.get_opt (fill_titleZh cnMap it) k = Js.get_opt it k)
  /\ (fill_titleZh cnMap it <> it ->
        Js.truthy (Js.get_opt it "titleZh") = false
        /\ Js.get_opt (fill_titleZh cnMap it) "titleZh"
           = map_get cnMap (Js.get_opt it "titleSlug"))
  (* problem details *)
  /\ (forall q', enrich_detail isCom cnQ q = inr q' ->
        (Js.truthy (Js.get_opt q "translated_title") = true -> q' = q)
        /\ (Js.truthy (Js.get_opt q "translated_content") = true -> q' = q)
        /\ enrich_detail isCom cnQ q' = inr q'
        /\ (forall k, k <> "translated_title" -> k <> "translated_content" ->
              Js.get_opt q' k = Js.get_opt q k)).
Proof.
  split; [|split; [|split; [|split; [|split; [|split]]]]].
  - intros resp. apply get_problems_items.
  - intros resp. apply get_problem_question.
  - intros Hzh. unfold fill_titleZh. by rewrite Hzh.
  - destruct (fill_titleZh_cases cnMap it) as [Hid|(props&zh&->&_&_&Hzh&->)];
      [by rewrite !Hid|].
    unfold fill_titleZh at 1. by rewrite get_opt_set_eq, Hzh.
  - intros k Hk.
    destruct (fill_titleZh_cases cnMap it) as [Hid|(props&zh&->&_&_&_&->)];
      [by rewrite Hid|].
    by rewrite get_opt_set_ne.
  - intros Hchanged.
    destruct (fill_titleZh_cases cnMap it) as [?|(props&zh&->&Hold&->&_&->)];
      [done|].
    by rewrite get_opt_set_eq.
  - intros q'. unfold enrich_detail.
    destruct (isCom && missingZh q) eqn:Hguard.
    2:{ intros [= <-]. rewrite Hguard. repeat split; done. }
    apply andb_true_iff in Hguard as [-> Hmiss]. simpl andb.
    unfold missingZh in Hmiss.
    apply andb_true_iff in Hmiss as [Ht%negb_true_iff Hc%negb_true_iff].
    intros Hfill. split; [congruence|]. split; [congruence|].
    destruct (fill_detail_cases _ _ _ Hfill) as [->|(props&->&Hcn&->)].
    { split; [|done].
      destruct (missingZh q); [done|done]. }
    set (T := Js.or (Js.or (Js.get_opt cnQ "translated_title")
                           (Js.get_opt cnQ "title"))
                    (Js.get_opt (VObj props) "translated_title")).
    set (C := Js.or (Js.or (Js.get_opt cnQ "translated_content")
                           (Js.get_opt cnQ "content"))
                    (Js.get_opt (VObj props) "translated_content")).
    set (q1 := Js.set_assoc "translated_title" T props).
    set (q2 := Js.set_assoc "translated_content" C q1).
    assert (Js.get_opt (VObj q2) "translated_title" = T) as HT.
    { subst q2 q1. rewrite get_opt_set_ne by done. apply get_opt_set_eq. }
    assert (Js.get_opt (VObj q2) "translated_content" = C) as HC.
    { subst q2. apply get_opt_set_eq. }
    split.
    + unfold missingZh. rewrite HT, HC.
      destruct (Js.truthy T) eqn:HTt; [done|].
      destruct (Js.truthy C) eqn:HCt; [done|]. simpl.
      unfold fill_detail. rewrite Hcn. simpl.
      rewrite get_opt_set_ne by done. rewrite HT, HC.
      assert (Js.or (Js.or (Js.get_opt cnQ "translated_title")
                           (Js.get_opt cnQ "title")) T = T) as ->.
      { unfold Js.or at 1.
        by rewrite (or_falsy_l _ _ HTt). }
      assert (Js.or (Js.or (Js.get_opt cnQ "translated_content")
                           (Js.get_opt cnQ "content")) C = C) as ->.
      { unfold Js.or at 1.
        by rewrite (or_falsy_l _ _ HCt). }
      assert (Js.set_assoc "translated_title" T q2 = q2) as ->.
      { apply set_assoc_same. subst q2 q1.
        rewrite assoc_set_ne by done. apply assoc_set_eq. }
      f_equal. f_equal. apply set_assoc_same. subst q2. apply assoc_set_eq.
    + intros k Hk1 Hk2. subst q2 q1.
      rewrite get_opt_set_ne by done. by rewrite get_opt_set_ne.
Qed.

End FillFacts.

(* ===================================================================== *)
(** * Acceptance rates *)
(* ===================================================================== *)

(* ===================================================================== *)
(** * Rounding to a double *)
(* ===================================================================== *)

Section RoundFacts.
Import JsNumber.
Local Open Scope Q_scope.


















(** [round] on some numbers whose doubles are known: 0.1 and 1/3, the ties
    around [2^53], the smallest subnormal, the largest double, and the two
    operations of 29 percent. *)
Lemma round_examples :
  round (1 # 10) = Fin (3602879701896397 # 36028797018963968)
  /\ round (1 # 3) = Fin (6004799503160661 # 18014398509481984)
  /\ round (inject_Z (2 ^ 53 + 1)) = Fin (inject_Z (2 ^ 53))
  /\ round (inject_Z (2 ^ 53 + 3)) = Fin (inject_Z (2 ^ 53 + 4))
  /\ round (pow2 (-1075)) = Fin 0
  /\ round (3 * pow2 (-1075)) = round (pow2 (-1073))
  /\ round (pow2 1024 - pow2 970) = PosInf
  /\ round (pow2 1024 - pow2 970 - 1) = round (pow2 1024 - pow2 971)
  /\ round (- (1 # 10)) = Fin (- (3602879701896397 # 36028797018963968))
  /\ div (Fin 29) (Fin 100) = Fin (5224175567749775 # 18014398509481984)
  /\ mul (Fin (5224175567749775 # 18014398509481984)) (Fin 100)
     = Fin (8162774324609023 # 281474976710656).
Proof.
  repeat split; vm_compute; reflexivity.
Qed.

End RoundFacts.

Section RateFacts.
Context `{JsLib} {W : Type} `{World W}.




(** ** Rounding *)









End RateFacts.

(* ===================================================================== *)
(** * Handlers and the session map *)
(* ===================================================================== *)

Section StoreFacts.
Context `{JsLib} {W : Type} `{World W}.

Lemma lcFetch_read_only session path init : read_only (lcFetch session path init).
Proof. unfold lcFetch. auto with prog. Qed.

Lemma lcSubmissionCheck_read_only session id slug :
  read_only (lcSubmissionCheck session id slug).
Proof.
  unfold lcSubmissionCheck.
  apply read_only_bind; [apply lcFetch_read_only|]. intros r.
  destruct (negb (up_ok r)); constructor.
Qed.

Lemma lcSubmit_read_only session titleSlug questionId lang typedCode :
  read_only (lcSubmit session titleSlug questionId lang typedCode).
Proof.
  unfold lcSubmit.
  apply read_only_bind; [apply lcFetch_read_only|]. intros r.
  destruct (negb (up_ok r)); [constructor|].
  destruct (negb (Js.truthy _)); [constructor|].
  apply read_only_bind; [auto with prog|]. intros n. constructor.
Qed.

Lemma lcProblemsetQuestionList_read_only session variables :
  read_only (lcProblemsetQuestionList session variables).
Proof.
  unfold lcProblemsetQuestionList.
  apply read_only_bind; [apply lcGraphql_read_only|]. intros first.
  destruct (ok first); [constructor|].
  apply read_only_bind; [apply lcGraphql_read_only|]. intros second.
  destruct (ok second); constructor.
Qed.

Lemma lcQuestion_read_only session titleSlug :
  read_only (lcQuestion session titleSlug).
Proof.
  unfold lcQuestion.
  apply read_only_bind; [apply lcGraphql_read_only|]. intros first.
  destruct (ok first); [constructor|].
  apply read_only_bind; [apply lcGraphql_read_only|]. intros second.
  destruct (ok second); constructor.
Qed.

Lemma getSession_read_only req : read_only (getSession req).
Proof.
  unfold getSession, sessions_get. destruct (truthy_sid req); [|constructor].
  simpl. constructor. intros m. constructor.
Qed.

Lemma problems_rest_read_only session category q :
  read_only (problems_rest session category q).
Proof.
  unfold problems_rest.
  apply read_only_bind; [apply lcFetch_read_only|]. intros r.
  destruct (negb (up_ok r)); [constructor|].
  apply read_only_bind; [auto with prog|]. intros text.
  destruct (JSON_parse text); [|constructor].
  apply read_only_bind; [auto with prog|]. intros items.
  apply read_only_bind; [destruct (JsString.nonempty q); auto with prog|].
  intros kept. constructor.
Qed.

Lemma problems_list_read_only session category q zh :
  read_only (problems_list session category q zh).
Proof.
  unfold problems_list. destruct zh; [|apply problems_rest_read_only].
  apply read_only_bind; [apply lcProblemsetQuestionList_read_only|]. intros gql.
  destruct (questions_of gql); [|apply problems_rest_read_only].
  apply read_only_bind; [auto with prog|]. intros items.
  destruct (_ && _); [|constructor].
  apply read_only_bind; [apply lcProblemsetQuestionList_read_only|]. intros cn.
  destruct (questions_of cn); constructor.
Qed.

Lemma get_submission_check_read_only req : read_only (get_submission_check req).
Proof.
  unfold get_submission_check.
  apply read_only_bind; [apply getSession_read_only|].
  intros [[sid session]|]; [|constructor].
  destruct (_ || _); [constructor|].
  apply read_only_bind; [apply lcSubmissionCheck_read_only|].
  intros [st data|st code raw]; constructor.
Qed.

Lemma run_getSession req sid session (w : W) m :
  truthy_sid req = Some sid -> m !! sid = Some session ->
  run (getSession req) w m =
  {| result := Returned (Some (sid, session)); sessions := m; world := w;
     trace := [] |}.
Proof.
  intros Hsid Hm. unfold getSession, sessions_get. rewrite Hsid. simpl.
  by rewrite Hm.
Qed.


(** C9.  For a request that carries a session and a positive finite
    submission id, when the upstream status endpoint answers 2xx with a
    body that parses, the handler answers 200 with that parsed payload as
    [submission], whatever the payload says (a terminal state such as
    SUCCESS or a pending one); it sends the one upstream request and leaves
    the session map as it was.  On every input the handler leaves the
    session map unchanged: nothing is remembered between calls. *)
Theorem check_status_is_a_passthrough
    (req : Request) (w w' : W) (m : gmap string Session)
    (sid : string) (session : Session)
    (r : UpResponse) (text : string) (payload : value) :
  let id := Js.toNumber (route_param req "id") in
  let slug := trimmed (query_param req "slug") "" in
  let titleSlug := if JsString.nonempty slug then Some slug else None in
  let rq := lcFetch_request (Some session)
              ("/submissions/detail/"
               +:+ encodeURIComponent (Number_toString id) +:+ "/check/")
              (lcSubmissionCheck_init (Some session) id titleSlug) in
  truthy_sid req = Some sid -> m !! sid = Some session ->
  JsNumber.isFinite id = true -> JsNumber.gt id (Fin 0) = true ->
  fetch_step w rq = (Responded r, w') -> up_ok r = true ->
  up_text r = Some text -> text <> EmptyString ->
  JSON_parse text = Some payload ->
  run (get_submission_check req) w m =
    {| result := Returned (json 200 (VObj [("submission", payload)]));
       sessions := m; world := w'; trace := [rq] |}
  /\ (forall (req0 : Request) (w0 : W) (m0 : gmap string Session),
        sessions (run (get_submission_check req0) w0 m0) = m0).
Proof.
  intros id slug titleSlug rq Hsid Hm Hfin Hpos Hstep Hok Htext Hne Hparse.
  split; [|intros; apply read_only_sessions, get_submission_check_read_only].
  unfold get_submission_check. rewrite run_bind, (run_getSession _ _ _ _ _ Hsid Hm).
  unfold andThen. cbn [result sessions world trace].
  fold id slug titleSlug. rewrite Hfin.
  assert (JsNumber.le id (Fin 0) = false) as ->.
  { destruct id; try discriminate. simpl in *. by rewrite Hpos. }
  cbn [negb orb].
  rewrite run_bind. unfold lcSubmissionCheck. rewrite run_bind, run_lcFetch.
  fold rq. rewrite Hstep. unfold andThen. cbn [result sessions world trace].
  rewrite Hok. cbn [negb]. unfold text_or_empty, parse_or_null. rewrite Htext.
  apply nonempty_true in Hne. change (default "" (Some text)) with text.
  rewrite Hne, Hparse. reflexivity.
Qed.


End StoreFacts.


(* ===================================================================== *)
(** * How many requests a handler sends, and to whom *)
(* ===================================================================== *)

Section TraceFacts.
Context `{JsLib} {W : Type} `{World W}.

Lemma at_most_run {A} (p : Prog A) n (w : W) m :
  at_most n p -> length (trace (run p w m)) <= n.
Proof.
  intros Hp. revert w m.
  induction Hp as [n a|n e|n rq k _ IH|n k _ IH|n m' k _ IH|n k _ IH];
    intros w m; simpl; try lia; auto.
  - destruct (fetch_step w rq) as [o w']. simpl. specialize (IH o w' m). lia.
  - destruct (uuid_step w) as [u w']. apply IH.
Qed.

Lemma at_most_weaken {A} (p : Prog A) n n' :
  n <= n' -> at_most n p -> at_most n' p.
Proof.
  intros Hle Hp. revert n' Hle.
  induction Hp as [n a|n e|n rq k _ IH|n k _ IH|n m' k _ IH|n k _ IH];
    intros n' Hle; try (constructor; auto; fail).
  destruct n' as [|n']; [lia|]. constructor. intros o. apply IH. lia.
Qed.

Lemma at_most_bind {A B} a b (p : Prog A) (f : A -> Prog B) :
  at_most a p -> (forall x, at_most b (f x)) -> at_most (a + b) (bind p f).
Proof.
  intros Hp Hf.
  induction Hp as [n x|n e|n rq k _ IH|n k _ IH|n m' k _ IH|n k _ IH]; simpl.
  - apply (at_most_weaken _ b); [lia|apply Hf].
  - constructor.
  - constructor. apply IH.
  - constructor. apply IH.
  - constructor. apply IH.
  - constructor. apply IH.
Qed.

Lemma sends_only_run {A} P (p : Prog A) (w : W) m :
  sends_only P p -> Forall P (trace (run p w m)).
Proof.
  intros Hp. revert w m.
  induction Hp as [a|e|rq k Hrq _ IH|k _ IH|m' k _ IH|k _ IH];
    intros w m; simpl; auto.
  - destruct (fetch_step w rq) as [o w']. simpl. constructor; auto.
  - destruct (uuid_step w) as [u w']. apply IH.
Qed.

Lemma sends_only_bind {A B} P (p : Prog A) (f : A -> Prog B) :
  sends_only P p -> (forall x, sends_only P (f x)) -> sends_only P (bind p f).
Proof.
  intros Hp Hf. induction Hp; simpl; try (constructor; auto; fail). apply Hf.
Qed.

Lemma sends_only_impl {A} (P Q : FetchRequest -> Prop) (p : Prog A) :
  (forall rq, P rq -> Q rq) -> sends_only P p -> sends_only Q p.
Proof. intros HPQ Hp. induction Hp; constructor; auto. Qed.

(** Closes the goals about the parts of a program that send nothing. *)
Ltac quiet :=
  repeat first
    [ apply am_ret | apply am_throw | apply am_read; intro
    | apply am_write | apply am_uuid; intro
    | apply so_ret | apply so_throw | apply so_read; intro
    | apply so_write | apply so_uuid; intro
    | match goal with
      | |- at_most _ (match ?x with _ => _ end) => destruct x
      | |- at_most _ (if ?b then _ else _) => destruct b
      | |- sends_only _ (match ?x with _ => _ end) => destruct x
      | |- sends_only _ (if ?b then _ else _) => destruct b
      end ].

Lemma lcFetch_at_most session path init : at_most 1 (lcFetch session path init).
Proof. unfold lcFetch, fetch. constructor. intros o. quiet. Qed.

Lemma lcGraphql_at_most session query variables :
  at_most 1 (lcGraphql session query variables).
Proof.
  unfold lcGraphql. apply (at_most_bind 1 0); [apply lcFetch_at_most|].
  intros resp.
  apply (at_most_bind 0 0); [unfold resp_text; quiet|]. intros text.
  destruct (JSON_parse text); [|quiet]. destruct (negb _); [quiet|].
  apply (at_most_bind 0 0); [unfold lift; quiet|]. intros errors.
  destruct (Js.truthy _); [quiet|].
  apply (at_most_bind 0 0); [unfold lift; quiet|]. intros data. quiet.
Qed.

Lemma lcProblemsetQuestionList_at_most session variables :
  at_most 2 (lcProblemsetQuestionList session variables).
Proof.
  unfold lcProblemsetQuestionList.
  apply (at_most_bind 1 1); [apply lcGraphql_at_most|]. intros first.
  destruct (ok first); [quiet|].
  apply (at_most_bind 1 0); [apply lcGraphql_at_most|]. intros second. quiet.
Qed.

Lemma lcQuestion_at_most session titleSlug :
  at_most 2 (lcQuestion session titleSlug).
Proof.
  unfold lcQuestion.
  apply (at_most_bind 1 1); [apply lcGraphql_at_most|]. intros first.
  destruct (ok first); [quiet|].
  apply (at_most_bind 1 0); [apply lcGraphql_at_most|]. intros second. quiet.
Qed.

Lemma lcSubmit_at_most session titleSlug questionId lang typedCode :
  at_most 1 (lcSubmit session titleSlug questionId lang typedCode).
Proof.
  unfold lcSubmit. apply (at_most_bind 1 0); [apply lcFetch_at_most|].
  intros r. destruct (negb (up_ok r)); [quiet|].
  destruct (negb (Js.truthy _)); [quiet|].
  apply (at_most_bind 0 0); [unfold lift; quiet|]. intros n. quiet.
Qed.

Lemma lcSubmissionCheck_at_most session id slug :
  at_most 1 (lcSubmissionCheck session id slug).
Proof.
  unfold lcSubmissionCheck. apply (at_most_bind 1 0); [apply lcFetch_at_most|].
  intros r. quiet.
Qed.

Lemma getSession_at_most req : at_most 0 (getSession req).
Proof. unfold getSession, sessions_get. quiet; cbn [bind]; quiet. Qed.

Lemma clearSession_at_most req : at_most 0 (clearSession req).
Proof.
  unfold clearSession, sessions_delete.
  destruct (truthy_sid req); cbn [bind]; quiet.
Qed.

Lemma setSession_at_most session : at_most 0 (setSession session).
Proof. unfold setSession, randomUUID, sessions_set. cbn [bind]; quiet. Qed.

Lemma problems_rest_at_most session category q :
  at_most 1 (problems_rest session category q).
Proof.
  unfold problems_rest. apply (at_most_bind 1 0); [apply lcFetch_at_most|].
  intros r. destruct (negb (up_ok r)); [quiet|].
  apply (at_most_bind 0 0); [unfold resp_text; quiet|]. intros text.
  destruct (JSON_parse text); [|quiet].
  apply (at_most_bind 0 0); [unfold lift; quiet|]. intros items.
  apply (at_most_bind 0 0);
    [destruct (JsString.nonempty q); unfold lift; quiet|].
  intros kept. quiet.
Qed.

Lemma problems_list_at_most session category q zh :
  at_most 4 (problems_list session category q zh).
Proof.
  unfold problems_list. destruct zh;
    [|apply (at_most_weaken _ 1); [lia|apply problems_rest_at_most]].
  apply (at_most_bind 2 2); [apply lcProblemsetQuestionList_at_most|].
  intros gql. destruct (questions_of gql);
    [|apply (at_most_weaken _ 1); [lia|apply problems_rest_at_most]].
  apply (at_most_bind 0 2); [unfold lift; quiet|]. intros items.
  destruct (_ && _); [|quiet].
  apply (at_most_bind 2 0); [apply lcProblemsetQuestionList_at_most|].
  intros cn. quiet.
Qed.

(** Every handler sends a bounded number of upstream requests: none for
    the health check and the logout, at most one for the sign-in, the
    session refresh and the submission check, at most three for a
    submission, and at most four for the list and for one problem.  Nothing
    is retried beyond the second query shape of a fallback. *)
Theorem handlers_send_boundedly_many_requests
    (r : Route) (req : Request) (w : W) (m : gmap string Session) :
  length (trace (run (route r req) w m)) <=
  match r with
  | GetHealth | PostAuthLogout => 0
  | PostAuthCookie | GetAuthMe | GetSubmissionCheck => 1
  | PostSubmit => 3
  | GetProblems | GetProblem => 4
  end.
Proof.
  apply at_most_run. destruct r; simpl route.
  - unfold get_health. quiet.
  - unfold post_auth_cookie. quiet.
    apply (at_most_bind 1 0); [apply lcGraphql_at_most|]. intros me. quiet.
    apply (at_most_bind 0 0); [apply clearSession_at_most|]. intros c.
    apply (at_most_bind 0 0); [apply setSession_at_most|]. intros c'. quiet.
  - unfold get_auth_me.
    apply (at_most_bind 0 1); [apply getSession_at_most|].
    intros [[sid session]|]; [|quiet].
    apply (at_most_bind 1 0); [apply lcGraphql_at_most|]. intros me. quiet.
    apply (at_most_bind 0 0); [apply clearSession_at_most|]. intros c. quiet.
  - unfold post_auth_logout.
    apply (at_most_bind 0 0); [apply clearSession_at_most|]. intros c. quiet.
  - unfold get_problems.
    apply (at_most_bind 0 4); [apply getSession_at_most|].
    intros [[sid session]|]; [|quiet].
    apply (at_most_bind 0 4).
    + destruct (is_zh _); [|quiet]. unfold sessions_set. cbn [bind]; quiet.
    + intros s. apply problems_list_at_most.
  - unfold get_problem.
    apply (at_most_bind 0 4); [apply getSession_at_most|].
    intros [[sid session]|]; [|quiet].
    destruct (negb (JsString.nonempty _)); [quiet|].
    apply (at_most_bind 2 2); [apply lcQuestion_at_most|].
    intros [st data|st code raw]; [|quiet].
    destruct (negb (Js.truthy _)); [quiet|].
    destruct (_ && _); [|quiet].
    apply (at_most_bind 2 0); [apply lcQuestion_at_most|]. intros cn.
    apply (at_most_bind 0 0); [unfold lift; quiet|]. intros q'. quiet.
  - unfold post_submit.
    apply (at_most_bind 0 3); [apply getSession_at_most|].
    intros [[sid session]|]; [|quiet].
    destruct (negb (JsString.nonempty _)); [quiet|].
    destruct (negb (JsString.nonempty _)); [quiet|].
    destruct (negb (JsString.nonempty _)); [quiet|].
    apply (at_most_bind 2 1).
    + destruct (negb (Js.truthy _)); [|quiet].
      apply (at_most_bind 2 0); [apply lcQuestion_at_most|].
      intros [st data|st code raw]; quiet.
    + intros [response|questionId]; [quiet|].
      apply (at_most_bind 1 0); [apply lcSubmit_at_most|].
      intros [st n|st code raw]; quiet.
  - unfold get_submission_check.
    apply (at_most_bind 0 1); [apply getSession_at_most|].
    intros [[sid session]|]; [|quiet].
    destruct (_ || _); [quiet|].
    apply (at_most_bind 1 0); [apply lcSubmissionCheck_at_most|].
    intros [st data|st code raw]; quiet.
Qed.

Lemma lcFetch_to_domain session rest init :
  sends_only (to_domain (domain_of session))
             (lcFetch session (String "/"%char rest) init).
Proof.
  unfold lcFetch, fetch. constructor; [by exists rest|]. intros o. quiet.
Qed.

Lemma lcGraphql_sends_only P session query variables :
  P (lcFetch_request session "/graphql/" (lcGraphql_init query variables)) ->
  sends_only P (lcGraphql session query variables).
Proof.
  intros HP. unfold lcGraphql, lcFetch, fetch. cbn [bind].
  constructor; [done|]. intros [msg|resp]; cbn [bind]; [quiet|].
  unfold resp_text. destruct (up_text resp) as [text|]; cbn [bind]; [|quiet].
  destruct (JSON_parse text) as [parsed|]; [|quiet].
  destruct (negb (up_ok resp)); [quiet|].
  unfold lift. destruct (Js.get parsed "errors"); cbn [bind]; [quiet|].
  destruct (Js.truthy _); [quiet|].
  destruct (Js.get parsed "data"); cbn [bind]; quiet.
Qed.

Lemma graphql_to_domain session query variables :
  to_domain (domain_of session)
    (lcFetch_request session "/graphql/" (lcGraphql_init query variables)).
Proof. by exists "graphql/". Qed.

Lemma graphql_anonymous_cn query variables :
  anonymous_cn
    (lcFetch_request (Some cnSession) "/graphql/" (lcGraphql_init query variables)).
Proof. repeat split. Qed.

Lemma lcProblemsetQuestionList_sends_only P session variables :
  (forall query,
     P (lcFetch_request session "/graphql/" (lcGraphql_init query variables))) ->
  sends_only P (lcProblemsetQuestionList session variables).
Proof.
  intros HP. unfold lcProblemsetQuestionList.
  apply sends_only_bind; [by apply lcGraphql_sends_only|]. intros first.
  destruct (ok first); [quiet|].
  apply sends_only_bind; [by apply lcGraphql_sends_only|]. intros second. quiet.
Qed.

Lemma lcQuestion_sends_only P session titleSlug :
  (forall query variables,
     P (lcFetch_request session "/graphql/" (lcGraphql_init query variables))) ->
  sends_only P (lcQuestion session titleSlug).
Proof.
  intros HP. unfold lcQuestion.
  apply sends_only_bind; [by apply lcGraphql_sends_only|]. intros first.
  destruct (ok first); [quiet|].
  apply sends_only_bind; [by apply lcGraphql_sends_only|]. intros second. quiet.
Qed.

Lemma problems_rest_sends_only session category q :
  sends_only (to_domain (domain_of (Some session)))
             (problems_rest session category q).
Proof.
  unfold problems_rest.
  apply sends_only_bind.
  { apply (lcFetch_to_domain (Some session)
             ("api/problems/" +:+ encodeURIComponent category +:+ "/")). }
  intros r. destruct (negb (up_ok r)); [quiet|].
  apply sends_only_bind; [unfold resp_text; quiet|]. intros text.
  destruct (JSON_parse text); [|quiet].
  apply sends_only_bind; [unfold lift; quiet|]. intros items.
  apply sends_only_bind;
    [destruct (JsString.nonempty q); unfold lift; quiet|].
  intros kept. quiet.
Qed.

(** Where the requests of a handler go.  For a request that carries a
    session, every upstream request of the session refresh, the list, the
    problem detail, the submission and the submission check goes to the
    host of that session, except the requests of the localization fill-in:
    these go to the GraphQL endpoint of leetcode.cn and carry neither the
    session's cookie nor its CSRF token. *)
Theorem credentials_stay_on_the_session_domain
    (r : Route) (req : Request) (w : W) (m : gmap string Session)
    (sid : string) (session : Session) :
  truthy_sid req = Some sid -> m !! sid = Some session ->
  r <> PostAuthCookie ->
  Forall (fun rq => to_domain (domain_of (Some session)) rq \/ anonymous_cn rq)
         (trace (run (route r req) w m)).
Proof.
  intros Hsid Hm Hr.
  set (P := fun rq => to_domain (domain_of (Some session)) rq \/ anonymous_cn rq).
  assert (forall query variables,
            P (lcFetch_request (Some session) "/graphql/"
                 (lcGraphql_init query variables))) as Hown.
  { intros. left. apply graphql_to_domain. }
  assert (forall query variables,
            P (lcFetch_request (Some cnSession) "/graphql/"
                 (lcGraphql_init query variables))) as Hcn.
  { intros. right. apply graphql_anonymous_cn. }
  destruct r; simpl route.
  - apply sends_only_run. unfold get_health. quiet.
  - done.
  - unfold get_auth_me. rewrite run_bind, (run_getSession _ _ _ _ _ Hsid Hm).
    unfold andThen. cbn [result sessions world trace app].
    apply sends_only_run.
    apply sends_only_bind; [by apply lcGraphql_sends_only|]. intros me. quiet.
    apply sends_only_bind; [|intros; quiet].
    unfold clearSession, sessions_delete.
    destruct (truthy_sid req); cbn [bind]; quiet.
  - apply sends_only_run. unfold post_auth_logout.
    apply sends_only_bind; [|intros; quiet].
    unfold clearSession, sessions_delete.
    destruct (truthy_sid req); cbn [bind]; quiet.
  - unfold get_problems. rewrite run_bind, (run_getSession _ _ _ _ _ Hsid Hm).
    unfold andThen. cbn [result sessions world trace app].
    apply sends_only_run.
    assert (forall s : Session, domain s = domain session ->
              sends_only P (problems_list s
                 (or_default (trimmed (query_param req "category") "algorithms")
                             "algorithms")
                 (JsString.toLowerCase (trimmed (query_param req "q") ""))
                 (is_zh (problems_lang req)))) as Hlist.
    { intros s Hdom.
      assert (domain_of (Some s) = domain_of (Some session)) as Hd.
      { unfold domain_of, truthy_field. by rewrite Hdom. }
      assert (sends_only P (problems_rest s
                 (or_default (trimmed (query_param req "category") "algorithms")
                             "algorithms")
                 (JsString.toLowerCase (trimmed (query_param req "q") ""))))
        as Hrest.
      { eapply sends_only_impl; [|apply problems_rest_sends_only].
        intros rq Hrq. left. by rewrite <- Hd. }
      unfold problems_list. destruct (is_zh _); [|done].
      apply sends_only_bind.
      { apply lcProblemsetQuestionList_sends_only. intros query. left.
        rewrite <- Hd. apply graphql_to_domain. }
      intros gql. destruct (questions_of gql); [|done].
      apply sends_only_bind; [unfold lift; quiet|]. intros items.
      destruct (_ && _); [|quiet].
      apply sends_only_bind;
        [apply lcProblemsetQuestionList_sends_only; intros; apply Hcn|].
      intros cn. quiet. }
    destruct (is_zh (problems_lang req)) eqn:Hzh.
    + unfold sessions_set. cbn [bind]. constructor. intros m'. constructor.
      cbn [bind]. by apply Hlist.
    + cbn [bind]. by apply Hlist.
  - unfold get_problem. rewrite run_bind, (run_getSession _ _ _ _ _ Hsid Hm).
    unfold andThen. cbn [result sessions world trace app].
    apply sends_only_run.
    destruct (negb (JsString.nonempty _)); [quiet|].
    apply sends_only_bind; [by apply lcQuestion_sends_only|].
    intros [st data|st code raw]; [|quiet].
    destruct (negb (Js.truthy _)); [quiet|].
    destruct (_ && _); [|quiet].
    apply sends_only_bind; [by apply lcQuestion_sends_only|]. intros cn.
    apply sends_only_bind; [unfold lift; quiet|]. intros q'. quiet.
  - unfold post_submit. rewrite run_bind, (run_getSession _ _ _ _ _ Hsid Hm).
    unfold andThen. cbn [result sessions world trace app].
    apply sends_only_run.
    destruct (negb (JsString.nonempty _)); [quiet|].
    destruct (negb (JsString.nonempty _)); [quiet|].
    destruct (negb (JsString.nonempty _)); [quiet|].
    apply sends_only_bind.
    + destruct (negb (Js.truthy _)); [|quiet].
      apply sends_only_bind; [by apply lcQuestion_sends_only|].
      intros [st data|st code raw]; quiet.
    + intros [response|questionId]; [quiet|].
      apply sends_only_bind.
      * unfold lcSubmit. apply sends_only_bind.
        { eapply sends_only_impl;
            [|apply (lcFetch_to_domain (Some session)
                       ("problems/" +:+ encodeURIComponent
                          (trimmed (Js.get_opt (req_body req) "slug") "")
                        +:+ "/submit/"))].
          intros rq Hrq. by left. }
        intros resp. destruct (negb (up_ok resp)); [quiet|].
        destruct (negb (Js.truthy _)); [quiet|].
        apply sends_only_bind; [unfold lift; quiet|]. intros n. quiet.
      * intros [st n|st code raw]; quiet.
  - unfold get_submission_check.
    rewrite run_bind, (run_getSession _ _ _ _ _ Hsid Hm).
    unfold andThen. cbn [result sessions world trace app].
    apply sends_only_run.
    destruct (_ || _); [quiet|].
    apply sends_only_bind.
    + unfold lcSubmissionCheck. apply sends_only_bind.
      { eapply sends_only_impl;
          [|apply (lcFetch_to_domain (Some session)
                     ("submissions/detail/"
                      +:+ encodeURIComponent
                            (Number_toString
                               (Js.toNumber (route_param req "id")))
                      +:+ "/check/"))].
        intros rq Hrq. by left. }
      intros resp. quiet.
    + intros [st data|st code raw]; quiet.
Qed.

End TraceFacts.

(* ===================================================================== *)
(** * Sessions: who is authenticated, and what the map holds *)
(* ===================================================================== *)

Section SessionFacts.
Context `{JsLib} {W : Type} `{World W}.

Lemma run_getSession_none req (w : W) m :
  (forall sid, truthy_sid req = Some sid -> m !! sid = None) ->
  run (getSession req) w m =
  {| result := Returned None; sessions := m; world := w; trace := [] |}.
Proof.
  intros Hnone. unfold getSession, sessions_get.
  destruct (truthy_sid req) as [sid|]; [|done].
  simpl. by rewrite (Hnone sid eq_refl).
Qed.

Lemma no_session_unauthenticated (r : Route) req (w : W) m :
  (forall sid, truthy_sid req = Some sid -> m !! sid = None) ->
  r <> GetHealth -> r <> PostAuthCookie -> r <> PostAuthLogout ->
  run (route r req) w m =
  {| result := Returned NOT_AUTHENTICATED; sessions := m; world := w;
     trace := [] |}.
Proof.
  intros Hnone H1 H2 H3.
  destruct r; try done; simpl route;
    unfold get_auth_me, get_problems, get_problem, post_submit,
           get_submission_check;
    by rewrite run_bind, (run_getSession_none _ _ _ Hnone).
Qed.

(** Without a session there is no service: a request whose [lc_sid] cookie
    is missing, empty or unknown to the session map is answered 401
    NOT_AUTHENTICATED by the session refresh, the list, the problem detail,
    the submission and the submission check, before anything is sent
    upstream and without touching the session map. *)
Theorem protected_routes_require_a_session
    (r : Route) (req : Request) (w : W) (m : gmap string Session) :
  (forall sid, truthy_sid req = Some sid -> m !! sid = None) ->
  r ∈ [GetAuthMe; GetProblems; GetProblem; PostSubmit; GetSubmissionCheck] ->
  run (route r req) w m =
  {| result := Returned (json 401 (VObj [("error", VStr "NOT_AUTHENTICATED")]));
     sessions := m; world := w; trace := [] |}.
Proof.
  intros Hnone Hr. apply no_session_unauthenticated; [done|..];
    intros ->; rewrite !elem_of_cons in Hr;
    destruct Hr as [|[|[|[|[|Hr]]]]]; try discriminate;
    by apply elem_of_nil in Hr.
Qed.

Lemma run_clearSession req (w : W) m :
  run (clearSession req) w m =
  {| result := Returned (ClearCookie "lc_sid");
     sessions := match truthy_sid req with
                 | Some sid => delete sid m
                 | None => m
                 end;
     world := w; trace := [] |}.
Proof. unfold clearSession, sessions_delete. by destruct (truthy_sid req). Qed.

(** The logout always answers 200, sends nothing upstream, and removes the
    session of the request's cookie and no other; after it the same cookie
    authenticates nothing. *)
Theorem logout_ends_the_session
    (req : Request) (w : W) (m : gmap string Session) (r : Route) (w' : W) :
  let e := run (post_auth_logout req) w m in
  result e = Returned {| res_status := 200;
                         res_body := VObj [("ok", VBool true)];
                         res_cookies := [ClearCookie "lc_sid"] |}
  /\ trace e = []
  /\ (forall sid, truthy_sid req = Some sid -> sessions e !! sid = None)
  /\ (forall sid, truthy_sid req <> Some sid -> sessions e !! sid = m !! sid)
  /\ (r ∈ [GetAuthMe; GetProblems; GetProblem; PostSubmit; GetSubmissionCheck] ->
        result (run (route r req) w' (sessions e)) = Returned NOT_AUTHENTICATED).
Proof.
  intros e. subst e. unfold post_auth_logout.
  rewrite run_bind, run_clearSession. unfold andThen.
  cbn [result sessions world trace run app].
  assert (forall sid, truthy_sid req = Some sid ->
            match truthy_sid req with
            | Some sid0 => delete sid0 m
            | None => m
            end !! sid = None) as Hgone.
  { intros sid ->. apply lookup_delete_eq. }
  repeat split; [done| |].
  - intros sid Hsid. destruct (truthy_sid req) as [sid0|]; [|done].
    apply lookup_delete_ne. congruence.
  - intros Hr. rewrite no_session_unauthenticated; [done|done|..];
      intros ->; rewrite !elem_of_cons in Hr;
      destruct Hr as [|[|[|[|[|Hr]]]]]; try discriminate;
      by apply elem_of_nil in Hr.
Qed.

Lemma run_lcGraphql_sessions session query variables (w : W) m :
  sessions (run (lcGraphql session query variables) w m) = m.
Proof. apply read_only_sessions, lcGraphql_read_only. Qed.

Lemma get_auth_me_outcomes
    (req : Request) (w : W) (m : gmap string Session)
    (sid : string) (session : Session) :
  let dom := default "" (domain session) in
  let eQ := run (lcGraphql (Some session) (me_query dom) (VObj [])) w m in
  let e := run (get_auth_me req) w m in
  truthy_sid req = Some sid -> m !! sid = Some session ->
  (forall st code raw, result eQ = Returned (Failed st code raw) ->
     result e = Returned {| res_status := 401;
                            res_body := VObj [("error", VStr "SESSION_EXPIRED")];
                            res_cookies := [ClearCookie "lc_sid"] |}
     /\ sessions e = delete sid m)
  /\ (forall st data, result eQ = Returned (Ok st data) ->
        let user := normalizeUser dom (Js.get_opt data "userStatus") in
        result e = Returned (json 200 (VObj [("user", user)]))
        /\ sessions e = <[sid := set_user session user]> m)
  /\ (forall x, result eQ = Threw x -> result e = Threw x /\ sessions e = m)
  /\ (forall sid', sid' <> sid -> sessions e !! sid' = m !! sid')
  /\ trace e = trace eQ.
Proof.
  intros dom eQ e Hsid Hm. subst e.
  unfold get_auth_me. rewrite run_bind, (run_getSession _ _ _ _ _ Hsid Hm).
  unfold andThen. cbn [result sessions world trace app].
  fold dom. rewrite run_bind. fold eQ. unfold andThen.
  pose proof (run_lcGraphql_sessions (Some session) (me_query dom) (VObj []) w m)
    as HmQ. fold eQ in HmQ.
  destruct eQ as [[[st data|st code raw]|x] mQ wQ tQ];
    cbn [result sessions world trace] in *; subst mQ.
  - unfold sessions_set. cbn [bind run result sessions world trace].
    rewrite app_nil_r.
    split; [done|]. split; [by intros st' data' [= <- <-]|].
    split; [done|]. split; [|done].
    intros sid' Hne. by apply lookup_insert_ne.
  - rewrite run_bind, run_clearSession. unfold andThen.
    cbn [result sessions world trace run]. rewrite Hsid, !app_nil_r.
    split; [done|]. split; [done|]. split; [done|]. split; [|done].
    intros sid' Hne. by apply lookup_delete_ne.
  - split; [done|]. split; [done|]. split; [by intros x' [= <-]|].
    split; done.
Qed.

(** The session refresh.  For a request that carries a session: when the
    user-status query fails the session is deleted and the answer is 401
    SESSION_EXPIRED; when it succeeds the normalized profile is stored in
    the session and returned with 200, whatever the profile says (also when
    it is [null] or not signed in); when the upstream cannot be reached
    the handler throws and the session stays.  No other session changes. *)
Theorem session_refresh_outcomes
    (req : Request) (w : W) (m : gmap string Session)
    (sid : string) (session : Session) :
  let dom := default "" (domain session) in
  let eQ := run (lcGraphql (Some session) (me_query dom) (VObj [])) w m in
  let e := run (get_auth_me req) w m in
  truthy_sid req = Some sid -> m !! sid = Some session ->
  (forall st code raw, result eQ = Returned (Failed st code raw) ->
     result e = Returned {| res_status := 401;
                            res_body := VObj [("error", VStr "SESSION_EXPIRED")];
                            res_cookies := [ClearCookie "lc_sid"] |}
     /\ sessions e = delete sid m)
  /\ (forall st data, result eQ = Returned (Ok st data) ->
        let user := normalizeUser dom (Js.get_opt data "userStatus") in
        result e = Returned (json 200 (VObj [("user", user)]))
        /\ sessions e = <[sid := set_user session user]> m)
  /\ (forall x, result eQ = Threw x -> result e = Threw x /\ sessions e = m)
  /\ (forall sid', sid' <> sid -> sessions e !! sid' = m !! sid')
  /\ trace e = trace eQ.
Proof. apply get_auth_me_outcomes. Qed.

Lemma post_auth_cookie_outcomes
    (req : Request) (w : W) (m : gmap string Session) :
  let e := run (post_auth_cookie req) w m in
  (forall x, result e = Threw x -> sessions e = m)
  /\ (forall resp, result e = Returned resp ->
        res_status resp ∈ [200%Z; 400%Z; 401%Z]
        /\ (res_status resp <> 200%Z ->
              sessions e = m /\ res_cookies resp = [])
        /\ (res_status resp = 200%Z ->
              exists sid user,
                res_cookies resp = [ClearCookie "lc_sid"; SetCookie "lc_sid" sid]
                /\ res_body resp =
                     VObj [("user", user);
                           ("emailNotVerified", VBool (emailNotVerified user))]
                /\ Js.truthy (Js.get_opt user "is_signed_in") = true
                /\ sessions e =
                     <[sid := set_user
                                (provisional_session (signin_cookie req)
                                                     (signin_domain req)) user]>
                       (match truthy_sid req with
                        | Some old => delete old m
                        | None => m
                        end)
                /\ session_ok
                     (set_user (provisional_session (signin_cookie req)
                                                    (signin_domain req)) user))).
Proof.
  intros e. subst e. unfold post_auth_cookie.
  destruct (JsString.nonempty (signin_cookie req)) eqn:Hne; cbn [negb].
  2:{ split; [done|]. intros resp [= <-]. cbn.
      split; [rewrite !elem_of_cons; auto|]. split; [done|discriminate]. }
  destruct (falsy_opt (extractCookieValue (signin_cookie req) "csrftoken"))
    eqn:Hc; cbn [orb].
  { split; [done|]. intros resp [= <-]. cbn.
    split; [rewrite !elem_of_cons; auto|]. split; [done|discriminate]. }
  destruct (falsy_opt (extractCookieValue (signin_cookie req) "LEETCODE_SESSION"))
    eqn:Hl.
  { split; [done|]. intros resp [= <-]. cbn.
    split; [rewrite !elem_of_cons; auto|]. split; [done|discriminate]. }
  assert (forall name,
            falsy_opt (extractCookieValue (signin_cookie req) name) = false ->
            has_pair name (signin_cookie req)) as Hpair.
  { intros name Hf. apply extractCookieValue_spec.
    destruct (extractCookieValue (signin_cookie req) name); [eauto|done]. }
  rewrite run_bind. unfold andThen.
  pose proof (run_lcGraphql_sessions
                (Some (provisional_session (signin_cookie req) (signin_domain req)))
                (me_query (signin_domain req)) (VObj []) w m) as HmQ.
  destruct (run (lcGraphql _ _ _) w m) as [[[st data|st code raw]|x] mQ wQ tQ];
    cbn [result sessions world trace] in *; subst mQ.
  - destruct (Js.truthy (Js.get_opt
               (normalizeUser (signin_domain req) (Js.get_opt data "userStatus"))
               "is_signed_in")) eqn:Hin; cbn [negb].
    + rewrite run_bind, run_clearSession. unfold andThen.
      cbn [result sessions world trace].
      unfold setSession, randomUUID, sessions_set. cbn [bind run].
      destruct (uuid_step wQ) as [u w'].
      cbn [result sessions world trace].
      split; [done|]. intros resp [= <-]. cbn [res_status res_cookies res_body].
      split; [rewrite !elem_of_cons; auto|]. split; [done|]. intros _.
      eexists u, _. repeat split; try done.
      * unfold signin_domain, or_default.
        destruct (JsString.nonempty (trimmed _ "leetcode.com")) eqn:Hd.
        -- eexists. split; [done|]. by apply nonempty_true.
        -- by eexists.
      * eexists. split; [done|]. split; [by apply nonempty_true|].
        split; [by apply Hpair|]. split; [by apply Hpair|done].
    + split; [done|]. intros resp [= <-]. cbn.
      split; [rewrite !elem_of_cons; auto|]. split; [done|discriminate].
  - split; [done|]. intros resp [= <-]. cbn.
    split; [rewrite !elem_of_cons; auto|]. split; [done|discriminate].
  - split; [done|]. intros resp [=].
Qed.

(** What the sign-in stores.  A sign-in that returns answers 200, 400 or
    401.  Unless the answer is 200 the session map is left as it was and no
    cookie is set; a sign-in that throws leaves it as it was too.  With a
    200 the response sets [lc_sid] to a fresh identifier under which the
    map holds the new session: built from the trimmed cookie text and the
    domain of the request, with the Chinese language preference, and with
    the signed-in profile of the response as its user. *)
Theorem sign_in_stores_only_signed_in_sessions
    (req : Request) (w : W) (m : gmap string Session) :
  let e := run (post_auth_cookie req) w m in
  (forall x, result e = Threw x -> sessions e = m)
  /\ (forall resp, result e = Returned resp ->
        res_status resp ∈ [200%Z; 400%Z; 401%Z]
        /\ (res_status resp <> 200%Z ->
              sessions e = m /\ res_cookies resp = [])
        /\ (res_status resp = 200%Z ->
              exists sid user,
                res_cookies resp = [ClearCookie "lc_sid"; SetCookie "lc_sid" sid]
                /\ res_body resp =
                     VObj [("user", user);
                           ("emailNotVerified", VBool (emailNotVerified user))]
                /\ Js.truthy (Js.get_opt user "is_signed_in") = true
                /\ sessions e =
                     <[sid := set_user
                                (provisional_session (signin_cookie req)
                                                     (signin_domain req)) user]>
                       (match truthy_sid req with
                        | Some old => delete old m
                        | None => m
                        end)
                /\ session_ok
                     (set_user (provisional_session (signin_cookie req)
                                                    (signin_domain req)) user))).
Proof. apply post_auth_cookie_outcomes. Qed.

End SessionFacts.

(* ===================================================================== *)
(** * An invariant of the session map *)
(* ===================================================================== *)

Section InvariantFacts.
Context `{JsLib} {W : Type} `{World W}.

Lemma get_problem_read_only req : read_only (get_problem req).
Proof.
  unfold get_problem.
  apply read_only_bind; [apply getSession_read_only|].
  intros [[sid session]|]; [|constructor].
  destruct (negb (JsString.nonempty _)); [constructor|].
  apply read_only_bind; [apply lcQuestion_read_only|].
  intros [st data|st code raw]; [|constructor].
  destruct (negb (Js.truthy _)); [constructor|].
  destruct (_ && _); [|constructor].
  apply read_only_bind; [apply lcQuestion_read_only|]. intros cn.
  apply read_only_bind; [auto with prog|]. intros q'. constructor.
Qed.

Lemma post_submit_read_only req : read_only (post_submit req).
Proof.
  unfold post_submit.
  apply read_only_bind; [apply getSession_read_only|].
  intros [[sid session]|]; [|constructor].
  destruct (negb (JsString.nonempty _)); [constructor|].
  destruct (negb (JsString.nonempty _)); [constructor|].
  destruct (negb (JsString.nonempty _)); [constructor|].
  apply read_only_bind.
  - destruct (negb (Js.truthy _)); [|constructor].
    apply read_only_bind; [apply lcQuestion_read_only|].
    intros [st data|st code raw]; [|constructor].
    destruct (negb (Js.truthy _)); constructor.
  - intros [response|questionId]; [constructor|].
    apply read_only_bind; [apply lcSubmit_read_only|].
    intros [st n|st code raw]; constructor.
Qed.

Lemma get_problems_sessions req (w : W) m :
  sessions (run (get_problems req) w m) = m
  \/ exists sid s,
       m !! sid = Some s
       /\ sessions (run (get_problems req) w m)
          = <[sid := set_acceptLanguage s ZH_PREFERENCE]> m.
Proof.
  unfold get_problems, getSession, sessions_get.
  destruct (truthy_sid req) as [sid|]; [|by left].
  rewrite run_bind. cbn [bind run]. unfold andThen.
  cbn [result sessions world trace].
  destruct (m !! sid) as [s|] eqn:Hm; [|by left].
  rewrite run_bind. unfold andThen.
  destruct (is_zh (problems_lang req)); unfold sessions_set;
    cbn [bind run result sessions world trace].
  - right. exists sid, s. split; [done|].
    apply read_only_sessions, problems_list_read_only.
  - left. apply read_only_sessions, problems_list_read_only.
Qed.

Lemma session_ok_set_user s u : session_ok s -> session_ok (set_user s u).
Proof. by destruct s. Qed.

Lemma session_ok_set_acceptLanguage s :
  session_ok s -> set_acceptLanguage s ZH_PREFERENCE = s.
Proof. destruct s as [d c t u l]. intros [Hl _]. simpl in Hl. by subst l. Qed.

Lemma route_keeps_sessions_ok (r : Route) req (w : W) m :
  map_Forall (fun _ s => session_ok s) m ->
  map_Forall (fun _ s => session_ok s) (sessions (run (route r req) w m)).
Proof.
  intros Hok. destruct r; simpl route.
  - done.
  - destruct (post_auth_cookie_outcomes req w m) as [Hthrow Hret].
    destruct (result (run (post_auth_cookie req) w m)) as [resp|x] eqn:Hres.
    + destruct (Hret resp eq_refl) as (_ & Hother & H200).
      destruct (decide (res_status resp = 200%Z)) as [Hst|Hst].
      * destruct (H200 Hst) as (sid & user & _ & _ & _ & -> & Hnew).
        apply map_Forall_insert_2; [done|].
        destruct (truthy_sid req); [by apply map_Forall_delete|done].
      * by destruct (Hother Hst) as [-> _].
    + by rewrite (Hthrow x eq_refl).
  - destruct (truthy_sid req) as [sid|] eqn:Hsid.
    2:{ pose proof (no_session_unauthenticated GetAuthMe req w m) as Hn.
        simpl route in Hn. rewrite Hn; try done. by rewrite Hsid. }
    destruct (m !! sid) as [session|] eqn:Hm.
    2:{ pose proof (no_session_unauthenticated GetAuthMe req w m) as Hn.
        simpl route in Hn. rewrite Hn; try done.
        rewrite Hsid. by intros ? [= <-]. }
    destruct (get_auth_me_outcomes req w m sid session Hsid Hm)
      as (Hfail & Hsucc & Hthrow & _).
    destruct (result (run (lcGraphql (Some session)
                             (me_query (default "" (domain session))) (VObj []))
                          w m)) as [[st data|st code raw]|x] eqn:HQ.
    + destruct (Hsucc st data eq_refl) as [_ ->].
      apply map_Forall_insert_2; [|done].
      apply session_ok_set_user. by apply (Hok sid).
    + destruct (Hfail st code raw eq_refl) as [_ ->].
      by apply map_Forall_delete.
    + by destruct (Hthrow x eq_refl) as [_ ->].
  - unfold post_auth_logout. rewrite run_bind, run_clearSession.
    unfold andThen. cbn [result sessions world trace run].
    destruct (truthy_sid req); [by apply map_Forall_delete|done].
  - destruct (get_problems_sessions req w m) as [->|(sid & s & Hm & ->)];
      [done|].
    apply map_Forall_insert_2; [|done].
    rewrite session_ok_set_acceptLanguage; by apply (Hok sid).
  - by rewrite (read_only_sessions _ w m (get_problem_read_only req)).
  - by rewrite (read_only_sessions _ w m (post_submit_read_only req)).
  - by rewrite (read_only_sessions _ w m (get_submission_check_read_only req)).
Qed.

Lemma reachable_sessions_ok m :
  reachable m -> map_Forall (fun _ s => session_ok s) m.
Proof.
  induction 1 as [|m r req w _ IH]; [apply map_Forall_empty|].
  by apply route_keeps_sessions_ok.
Qed.

(** Every session the server can ever hold is as the sign-in built it: it
    has the Chinese language preference, a non-empty domain, and a
    non-empty cookie text that holds both tokens, with the CSRF token taken
    from that text.  Hence a request built for a stored session carries the
    cookie text as [cookie] and the token as [x-csrftoken], each as the
    [Headers] object stores it: without leading and trailing HTTP white
    space, which a token cut out of the cookie text can have.  This is for
    the requests [lcFetch] does build: those whose header values [Headers]
    accepts. *)
Theorem stored_sessions_keep_their_credentials
    (m : gmap string Session) (sid : string) (s : Session)
    (path : string) (init : RequestInit) :
  reachable m -> m !! sid = Some s ->
  session_ok s
  /\ (exists c t,
        cookie s = Some c /\ extractCookieValue c "csrftoken" = Some t
        /\ (lcFetch_valid (Some s) init = true ->
            rq_headers (lcFetch_request (Some s) path init) !! "cookie"
            = Some (Headers.normalize c)
            /\ rq_headers (lcFetch_request (Some s) path init) !! "x-csrftoken"
               = Some (Headers.normalize t))).
Proof.
  intros Hreach Hm.
  pose proof (reachable_sessions_ok m Hreach sid s Hm) as Hok.
  split; [done|].
  destruct Hok as (Hl & (d & Hd & Hdne) & (c & Hc & Hcne & Hp1 & Hp2 & Ht)).
  apply extractCookieValue_spec in Hp1 as [t Hext].
  exists c, t. split; [done|]. split; [done|]. intros _.
  assert (truthy_field (Some s) cookie = Some c) as Hfc.
  { unfold truthy_field. rewrite Hc.
    by apply nonempty_true in Hcne as ->. }
  assert (truthy_field (Some s) csrftoken = Some t) as Hft.
  { unfold truthy_field. rewrite Ht, Hext.
    by rewrite (extractCookieValue_nonempty _ _ _ Hext). }
  unfold lcFetch_request. cbn [rq_headers].
  unfold lcFetch_headers, Headers.set. rewrite Hfc, Hft.
  change (Headers.lower_name "cookie") with "cookie".
  change (Headers.lower_name "x-csrftoken") with "x-csrftoken".
  change (Headers.lower_name "accept-language") with "accept-language".
  change (Headers.lower_name "referer") with "referer".
  change (Headers.lower_name "origin") with "origin".
  split;
    repeat match goal with
    | |- context [match ?o with Some _ => _ | None => _ end] => destruct o
    | |- context [if ?b then _ else _] => destruct b
    end; by simplify_map_eq.
Qed.

(** On every session map the server can hold, the list handler leaves the
    map exactly as it was, for every request and every answer of the
    upstream: the preference it writes is the one each session already
    has. *)
Theorem list_request_never_changes_a_reachable_map
    (m : gmap string Session) (req : Request) (w : W) :
  reachable m -> sessions (run (get_problems req) w m) = m.
Proof.
  intros Hreach.
  destruct (get_problems_sessions req w m) as [->|(sid & s & Hm & ->)]; [done|].
  rewrite session_ok_set_acceptLanguage.
  - by apply insert_id.
  - by apply (reachable_sessions_ok m Hreach sid).
Qed.

(** Handlers that only read the session map: the health check, the problem
    detail, the submission and the submission check leave the map as it
    was, on every request and whatever the upstream does. *)
Theorem read_only_routes_keep_the_map
    (r : Route) (req : Request) (w : W) (m : gmap string Session) :
  r ∈ [GetHealth; GetProblem; PostSubmit; GetSubmissionCheck] ->
  sessions (run (route r req) w m) = m.
Proof.
  intros Hr. rewrite !elem_of_cons in Hr.
  destruct Hr as [->|[->|[->|[->|Hr]]]]; [..|by apply elem_of_nil in Hr];
    simpl route.
  - done.
  - apply read_only_sessions, get_problem_read_only.
  - apply read_only_sessions, post_submit_read_only.
  - apply read_only_sessions, get_submission_check_read_only.
Qed.

End InvariantFacts.

(* ===================================================================== *)
(** * Submissions and problem details: validation and upstream errors *)
(* ===================================================================== *)

Section RouteFacts.
Context `{JsLib} {W : Type} `{World W}.

(** The submission handler, for a request that carries a session and whose
    [slug], [lang], [code] and [questionId] convert to strings (the handler
    converts the four with [String] before it validates any; when one of
    the conversions throws, so does the handler).  The
    slug, the language and the code are required, in this order, and a
    missing one is refused with 400 before anything is sent.  When the
    request names the question, its id is sent upstream as a string in the
    one request of [lcSubmit], without any lookup of the problem: a
    submission id gives 200, any failure of [lcSubmit] gives 502 with the
    failure as detail, and an unreachable upstream makes the handler
    throw. *)
Theorem submission_is_validated_then_sent
    (req : Request) (w : W) (m : gmap string Session)
    (sid : string) (session : Session) :
  let titleSlug := trimmed (Js.get_opt (req_body req) "slug") "" in
  let lang := trimmed (Js.get_opt (req_body req) "lang") "" in
  let typedCode :=
    Js.toString (Js.or (Js.get_opt (req_body req) "code") (VStr "")) in
  let questionId := Js.get_opt (req_body req) "questionId" in
  let refused code :=
    {| result := Returned (json 400 (VObj [("error", VStr code)]));
       sessions := m; world := w; trace := [] |} in
  let e := run (post_submit req) w m in
  truthy_sid req = Some sid -> m !! sid = Some session ->
  Js.convertible (Js.get_opt (req_body req) "slug") = true ->
  Js.convertible (Js.get_opt (req_body req) "lang") = true ->
  Js.convertible (Js.get_opt (req_body req) "code") = true ->
  Js.convertible questionId = true ->
  (exists s l,
     Js.ToString (Js.or (Js.get_opt (req_body req) "slug") (VStr "")) = inr s
     /\ Js.ToString (Js.or (Js.get_opt (req_body req) "lang") (VStr "")) = inr l
     /\ Js.ToString (Js.or (Js.get_opt (req_body req) "code") (VStr ""))
        = inr typedCode
     /\ Js.ToString questionId = inr (Js.toString questionId)
     /\ titleSlug = JsString.trim s /\ lang = JsString.trim l)
  /\ (titleSlug = EmptyString -> e = refused "SLUG_REQUIRED")
  /\ (titleSlug <> EmptyString -> lang = EmptyString ->
        e = refused "LANG_REQUIRED")
  /\ (titleSlug <> EmptyString -> lang <> EmptyString ->
        typedCode = EmptyString -> e = refused "CODE_REQUIRED")
  /\ (titleSlug <> EmptyString -> lang <> EmptyString ->
      typedCode <> EmptyString ->
      Js.nullish questionId = false -> Js.toString questionId <> EmptyString ->
      let eS := run (lcSubmit (Some session) titleSlug
                       (VStr (Js.toString questionId)) lang typedCode) w m in
      trace e = [lcFetch_request (Some session)
                   ("/problems/" +:+ encodeURIComponent titleSlug +:+ "/submit/")
                   (lcSubmit_init (Some session) titleSlug
                      (VStr (Js.toString questionId)) lang typedCode)]
      /\ sessions e = m
      /\ result e =
           match result eS with
           | Returned (Ok _ submissionId) =>
               Returned (json 200 (VObj [("submissionId", VNum submissionId)]))
           | Returned (Failed st code raw) =>
               Returned (json 502
                 (VObj [("error", VStr "UPSTREAM_ERROR");
                        ("detail", submit_result_value (Failed st code raw))]))
           | Threw x => Threw x
           end).
Proof.
  intros titleSlug lang typedCode questionId refused e Hsid Hm Hs Hl Hc Hq.
  split.
  { eexists _, _. split; [by apply convertible_or|].
    split; [by apply convertible_or|]. split; [by apply convertible_or|].
    split; [unfold Js.ToString; by rewrite Hq|]. done. }
  clear Hs Hl Hc Hq. subst e refused.
  unfold post_submit. rewrite run_bind, (run_getSession _ _ _ _ _ Hsid Hm).
  unfold andThen. cbn [result sessions world trace app].
  fold titleSlug lang typedCode questionId.
  split; [|split; [|split]].
  - intros ->. reflexivity.
  - intros Hs%nonempty_true ->. rewrite Hs. reflexivity.
  - intros Hs%nonempty_true Hl%nonempty_true ->. rewrite Hs, Hl. reflexivity.
  - intros Hs%nonempty_true Hl%nonempty_true Hc%nonempty_true Hq Hqs%nonempty_true.
    rewrite Hs, Hl, Hc, Hq. cbn [negb Js.truthy]. rewrite Hqs. cbn [negb].
    cbn [bind]. unfold lcSubmit.
    rewrite !run_bind, !run_lcFetch.
    destruct (fetch_step w _) as [[msg|r] w1]; unfold andThen;
      cbn [result sessions world trace app]; [done|].
    destruct (negb (up_ok r)); cbn [run result sessions world trace app];
      [done|].
    destruct (negb (Js.truthy _)); cbn [run result sessions world trace app];
      [done|].
    rewrite !run_bind. unfold andThen, Js.ToNumber.
    destruct (Js.convertible _);
      cbn [lift run result sessions world trace app]; done.
Qed.

(** The submission check, for a request that carries a session.  An id
    that is not a positive finite number is refused with 400 before
    anything is sent.  Otherwise one request is sent: an answer that is not
    2xx gives 502 with the status and the body as detail, and a 2xx answer
    whose body is empty, cannot be read or is not JSON gives 200 with a
    [null] submission. *)
Theorem submission_check_edge_cases
    (req : Request) (w w' : W) (m : gmap string Session)
    (sid : string) (session : Session) (r : UpResponse) :
  let id := Js.toNumber (route_param req "id") in
  let slug := trimmed (query_param req "slug") "" in
  let titleSlug := if JsString.nonempty slug then Some slug else None in
  let rq := lcFetch_request (Some session)
              ("/submissions/detail/"
               +:+ encodeURIComponent (Number_toString id) +:+ "/check/")
              (lcSubmissionCheck_init (Some session) id titleSlug) in
  let e := run (get_submission_check req) w m in
  truthy_sid req = Some sid -> m !! sid = Some session ->
  (JsNumber.isFinite id = false \/ JsNumber.le id (Fin 0) = true ->
     e = {| result := Returned (json 400
                         (VObj [("error", VStr "INVALID_SUBMISSION_ID")]));
            sessions := m; world := w; trace := [] |})
  /\ (JsNumber.isFinite id = true -> JsNumber.le id (Fin 0) = false ->
      fetch_step w rq = (Responded r, w') ->
      (up_ok r = false ->
         e = {| result := Returned (json 502
                  (VObj [("error", VStr "UPSTREAM_ERROR");
                         ("detail",
                          result_value
                            (Failed (up_status r) "HTTP_ERROR"
                               (Js.coalesce (parse_or_null (text_or_empty r))
                                            (VStr (text_or_empty r)))))]));
                sessions := m; world := w'; trace := [rq] |})
      /\ (up_ok r = true ->
          up_text r = None \/ up_text r = Some EmptyString
          \/ (exists t, up_text r = Some t /\ JSON_parse t = None) ->
          e = {| result := Returned (json 200 (VObj [("submission", VNull)]));
                 sessions := m; world := w'; trace := [rq] |})).
Proof.
  intros id slug titleSlug rq e Hsid Hm. subst e.
  unfold get_submission_check.
  rewrite run_bind, (run_getSession _ _ _ _ _ Hsid Hm).
  unfold andThen. cbn [result sessions world trace app].
  fold id slug titleSlug. split.
  - intros [Hf|Hle].
    + by rewrite Hf.
    + rewrite Hle, orb_true_r. reflexivity.
  - intros Hf Hle Hstep. rewrite Hf, Hle. cbn [negb orb].
    rewrite run_bind. unfold lcSubmissionCheck. rewrite run_bind, run_lcFetch.
    fold rq. rewrite Hstep. unfold andThen. cbn [result sessions world trace].
    split.
    + intros Hok. rewrite Hok. reflexivity.
    + intros Hok Hbody. rewrite Hok. cbn [negb].
      assert (parse_or_null (text_or_empty r) = VNull) as ->; [|reflexivity].
      unfold parse_or_null, text_or_empty.
      destruct Hbody as [->|[->|(t & -> & Hp)]]; try reflexivity.
      cbn [default from_option Datatypes.id]. rewrite Hp.
      by destruct (JsString.nonempty t).
Qed.

(** The problem detail, for a request that carries a session.  An empty
    slug is refused with 400 before anything is sent.  A failed lookup
    gives 502 with the failure as detail, and a lookup that succeeds
    without a question gives 404; when the session is not on leetcode.com,
    or the question has a localized title or a localized content, the
    question is returned as the upstream gave it.  In all these cases the
    only requests sent are those of the lookup itself: leetcode.cn is not
    asked. *)
Theorem problem_detail_without_fill_in
    (req : Request) (w : W) (m : gmap string Session)
    (sid : string) (session : Session) :
  let slug := trimmed (route_param req "slug") "" in
  let eQ := run (lcQuestion (Some session) slug) w m in
  let e := run (get_problem req) w m in
  truthy_sid req = Some sid -> m !! sid = Some session ->
  (slug = EmptyString ->
     e = {| result := Returned (json 400 (VObj [("error", VStr "SLUG_REQUIRED")]));
            sessions := m; world := w; trace := [] |})
  /\ (slug <> EmptyString ->
      (forall x, result eQ = Threw x -> result e = Threw x /\ trace e = trace eQ)
      /\ (forall st code raw, result eQ = Returned (Failed st code raw) ->
            result e = Returned (json 502
              (VObj [("error", VStr "UPSTREAM_ERROR");
                     ("detail", result_value (Failed st code raw))]))
            /\ trace e = trace eQ)
      /\ (forall st data, result eQ = Returned (Ok st data) ->
            let q := Js.get_opt data "question" in
            (Js.truthy q = false ->
               result e = Returned (json 404 (VObj [("error", VStr "NOT_FOUND")]))
               /\ trace e = trace eQ)
            /\ (Js.truthy q = true ->
                isComDomain (default "" (domain session)) = false
                \/ Js.truthy (Js.get_opt q "translated_title") = true
                \/ Js.truthy (Js.get_opt q "translated_content") = true ->
                result e = Returned (json 200 (VObj [("question", q)]))
                /\ trace e = trace eQ))).
Proof.
  intros slug eQ e Hsid Hm. subst e.
  unfold get_problem. rewrite run_bind, (run_getSession _ _ _ _ _ Hsid Hm).
  unfold andThen. cbn [result sessions world trace app]. fold slug.
  split.
  - intros ->. reflexivity.
  - intros Hs%nonempty_true. rewrite Hs. cbn [negb].
    rewrite run_bind. fold eQ. unfold andThen.
    destruct eQ as [[[st data|st code raw]|x] mQ wQ tQ];
      cbn [result sessions world trace].
    + split; [done|]. split; [done|]. intros st' data' [= <- <-]. cbv zeta.
      split.
      * intros ->. cbn [negb run result trace]. by rewrite app_nil_r.
      * intros -> Hno. cbn [negb].
        assert (isComDomain (default "" (domain session))
                && missingZh (Js.get_opt data "question") = false) as ->.
        { unfold missingZh.
          destruct Hno as [->|[->| ->]]; [done|..];
            cbn [negb andb]; by rewrite ?andb_false_r. }
        cbn [run result trace]. by rewrite app_nil_r.
    + split; [done|]. split; [|done].
      intros st' code' raw' [= <- <- <-]. cbn [run result trace].
      by rewrite app_nil_r.
    + split; [|done]. by intros x' [= <-].
Qed.

End RouteFacts.

(* ===================================================================== *)
(** * The shape of list items, profiles and cookie values *)
(* ===================================================================== *)

Section ShapeFacts.
Context `{JsLib} {W : Type} `{World W}.

Lemma get_nullish (v : value) (k : string) :
  (exists e, Js.get v k = inl e) <-> Js.nullish v = true.
Proof.
  destruct v; simpl; split; try done; try (by intros [? [=]]); eauto.
Qed.

Lemma get_not_nullish (v : value) (k : string) :
  Js.nullish v = false -> Js.get v k = inr (Js.get_opt v k).
Proof. by destruct v. Qed.

Lemma convertible_coalesce (v : value) (dflt : string) :
  Js.convertible (Js.coalesce v (VStr dflt)) = Js.convertible v.
Proof. by destruct v. Qed.

Lemma convertible_or_num (v : value) (n : number) :
  Js.convertible (Js.or v (VNum n)) = Js.convertible v.
Proof.
  unfold Js.or. destruct (Js.truthy v) eqn:Hv; [done|].
  by destruct v.
Qed.

(** When the item of a node is built, and when building it throws. *)
Lemma gql_item_cases (x : value) :
  if gql_node_throws x then exists e, gql_item x = inl e
  else
    let acRate := Js.get_opt x "acRate" in
    gql_item x = inr (VObj
      [("id", VNum (if JsNumber.isFinite (Js.toNumber (Js.get_opt x "id"))
                    then Js.toNumber (Js.get_opt x "id") else Fin 0));
       ("frontendId",
          VStr (Js.toString (Js.coalesce (Js.get_opt x "frontendId") (VStr ""))));
       ("title", Js.coalesce (Js.get_opt x "title") (VStr ""));
       ("titleZh", Js.coalesce (Js.get_opt x "titleZh") VNull);
       ("titleSlug", Js.coalesce (Js.get_opt x "titleSlug") (VStr ""));
       ("paidOnly", VBool (Js.truthy (Js.get_opt x "paidOnly")));
       ("difficulty", Js.or (Js.get_opt x "difficulty") (VStr "Unknown"));
       ("status", Js.or (Js.get_opt x "status") VNull);
       ("acRate",
          if Js.is_number acRate then acRate
          else if Js.nullish acRate then VNull
          else VNum (Js.toNumber acRate))]).
Proof.
  unfold gql_node_throws, gql_item, exn_bind, Js.ToNumber, Js.ToString.
  destruct (Js.nullish x) eqn:Hx.
  { destruct x; try discriminate; simpl; eauto. }
  rewrite (get_not_nullish x "id" Hx), convertible_coalesce.
  cbn [orb].
  destruct (Js.convertible (Js.get_opt x "id")); cbn [negb orb]; [|eauto].
  destruct (Js.convertible (Js.get_opt x "frontendId")); cbn [negb orb];
    [|eauto].
  cbv zeta.
  destruct (Js.is_number (Js.get_opt x "acRate")) eqn:Hnum.
  { assert (Js.convertible (Js.get_opt x "acRate") = true) as ->; [|done].
    by destruct (Js.get_opt x "acRate"). }
  destruct (Js.nullish (Js.get_opt x "acRate")) eqn:Hnull.
  { assert (Js.convertible (Js.get_opt x "acRate") = true) as ->; [|done].
    by destruct (Js.get_opt x "acRate"). }
  destruct (Js.convertible (Js.get_opt x "acRate")); cbn [negb]; eauto.
Qed.

Lemma gql_item_throws (x : value) :
  (exists e, gql_item x = inl e) <-> gql_node_throws x = true.
Proof.
  pose proof (gql_item_cases x) as Hc.
  destruct (gql_node_throws x); [by split|].
  cbv zeta in Hc. rewrite Hc. split; [by intros [? [=]]|done].
Qed.

(** The items of the GraphQL path are normalized: whatever the node holds,
    when its item is built the item has a finite number as [id] (0 when
    the node's id is not one), a string as [frontendId], a boolean as
    [paidOnly], a truthy [difficulty], a [status] that is truthy or [null],
    an [acRate] that is a number or [null], and a [title], [titleSlug] and
    [titleZh] that are never [undefined].  Building the item throws exactly
    when the node is [null] or [undefined], or when its [id], its
    [frontendId] or its [acRate] does not convert (it holds an object with
    an own [toString]). *)
Theorem graphql_items_are_normalized (x : value) :
  ((exists e, gql_item x = inl e) <->
     Js.nullish x = true
     \/ Js.convertible (Js.get_opt x "id") = false
     \/ Js.convertible (Js.get_opt x "frontendId") = false
     \/ Js.convertible (Js.get_opt x "acRate") = false)
  /\ (forall props,
        x = VObj props ->
        Js.assoc "toString" props = None ->
        (forall k v, k ∈ ["id"; "frontendId"; "acRate"] ->
           Js.assoc k props = Some v -> Js.convertible v = true) ->
        exists it, gql_item x = inr it)
  /\ (forall it, gql_item x = inr it ->
        (exists q, Js.get_opt it "id" = VNum (Fin q))
        /\ (exists s, Js.get_opt it "frontendId" = VStr s)
        /\ (exists b, Js.get_opt it "paidOnly" = VBool b)
        /\ Js.truthy (Js.get_opt it "difficulty") = true
        /\ (Js.get_opt it "status" = VNull
            \/ Js.truthy (Js.get_opt it "status") = true)
        /\ (Js.get_opt it "acRate" = VNull
            \/ exists n, Js.get_opt it "acRate" = VNum n)
        /\ Js.nullish (Js.get_opt it "title") = false
        /\ Js.nullish (Js.get_opt it "titleSlug") = false
        /\ Js.get_opt it "titleZh" <> VUndef).
Proof.
  split; [|split].
  - rewrite gql_item_throws. unfold gql_node_throws.
    rewrite !orb_true_iff, !negb_true_iff. tauto.
  - intros props -> _ Hfields.
    pose proof (gql_item_cases (VObj props)) as Hc.
    assert (gql_node_throws (VObj props) = false) as Hno.
    { unfold gql_node_throws. cbn [Js.nullish orb].
      assert (forall k, k ∈ ["id"; "frontendId"; "acRate"] ->
                Js.convertible (Js.get_opt (VObj props) k) = true) as Hk.
      { intros k Hin. unfold Js.get_opt. cbn [Js.get].
        destruct (Js.assoc k props) as [v|] eqn:Hv; [|done].
        by apply (Hfields k v). }
      rewrite !Hk; [done|..]; rewrite !elem_of_cons; auto. }
    rewrite Hno in Hc. eauto.
  - intros it Hit.
    pose proof (gql_item_cases x) as Hc.
    destruct (gql_node_throws x); [destruct Hc as [e He]; congruence|].
    cbv zeta in Hc. rewrite Hc in Hit. injection Hit as <-.
    change (Js.get_opt (VObj ?l) ?k) with (default VUndef (Js.assoc k l)).
    cbn [Js.assoc String.eqb Ascii.eqb Bool.eqb default from_option Datatypes.id].
    split.
    { destruct (Js.toNumber (Js.get_opt x "id")); cbn; eauto. }
    split; [eauto|]. split; [eauto|].
    split.
    { unfold Js.or. by destruct (Js.truthy (Js.get_opt x "difficulty")) eqn:E. }
    split.
    { unfold Js.or. destruct (Js.truthy (Js.get_opt x "status")) eqn:E; auto. }
    split.
    { destruct (Js.get_opt x "acRate"); cbn; eauto. }
    split; [by destruct (Js.get_opt x "title")|].
    split; [by destruct (Js.get_opt x "titleSlug")|].
    by destruct (Js.get_opt x "titleZh").
Qed.

(** When the item of a pair is built, and when building it throws. *)
Lemma rest_item_cases (p : value) :
  if rest_pair_throws p then exists e, rest_item p = inl e
  else
    let stat := Js.or (Js.get_opt p "stat") (VObj []) in
    let level := Js.get_opt (Js.get_opt p "difficulty") "level" in
    let totalAcs :=
      Js.toNumber (Js.or (Js.get_opt stat "total_acs") (VNum (Fin 0))) in
    let totalSubmitted :=
      Js.toNumber (Js.or (Js.get_opt stat "total_submitted") (VNum (Fin 0))) in
    rest_item p = inr (VObj
      [("id", Js.get_opt stat "question_id");
       ("frontendId",
          VStr (Js.toString
                  (Js.coalesce (Js.get_opt stat "frontend_question_id")
                               (VStr ""))));
       ("title", Js.get_opt stat "question__title");
       ("titleZh", VNull);
       ("titleSlug", Js.get_opt stat "question__title_slug");
       ("paidOnly", VBool (Js.truthy (Js.get_opt p "paid_only")));
       ("difficulty", difficulty_of (Js.toString level));
       ("status", Js.or (Js.get_opt p "status") VNull);
       ("acRate",
          if JsNumber.gt totalSubmitted (Fin 0)
          then VNum (JsNumber.mul (JsNumber.div totalAcs totalSubmitted)
                                  (Fin 100))
          else VNull)]).
Proof.
  unfold rest_pair_throws, rest_item, exn_bind, Js.ToNumber, Js.ToString.
  destruct (Js.nullish p) eqn:Hp.
  { destruct p; try discriminate; simpl; eauto. }
  rewrite (get_not_nullish p "stat" Hp), !convertible_or_num,
    convertible_coalesce.
  cbv zeta. cbn [orb].
  repeat match goal with
  | |- context [negb (Js.convertible ?v)] =>
      destruct (Js.convertible v); cbn [negb orb]; [|by eauto]
  end.
  reflexivity.
Qed.

Lemma rest_item_throws (p : value) :
  (exists e, rest_item p = inl e) <-> rest_pair_throws p = true.
Proof.
  pose proof (rest_item_cases p) as Hc.
  destruct (rest_pair_throws p); [by split|].
  cbv zeta in Hc. rewrite Hc. split; [by intros [? [=]]|done].
Qed.

Lemma difficulty_of_cases (key : string) :
  difficulty_of key
    ∈ [VStr "Easy"; VStr "Medium"; VStr "Hard"; VStr "Unknown"; VObj []; VUndef]
  /\ (key <> "__proto__" -> key ∉ OBJECT_PROTOTYPE_METHODS ->
      difficulty_of key
        ∈ [VStr "Easy"; VStr "Medium"; VStr "Hard"; VStr "Unknown"])
  /\ (difficulty_of key = VStr "Easy" <-> key = "1")
  /\ (difficulty_of key = VStr "Medium" <-> key = "2")
  /\ (difficulty_of key = VStr "Hard" <-> key = "3").
Proof.
  unfold difficulty_of, DIFFICULTY_MAP. cbn [Js.assoc].
  destruct (String.eqb_spec key "1") as [->|H1].
  { rewrite !elem_of_cons. repeat split; auto; discriminate. }
  destruct (String.eqb_spec key "2") as [->|H2].
  { rewrite !elem_of_cons. repeat split; auto; discriminate. }
  destruct (String.eqb_spec key "3") as [->|H3].
  { rewrite !elem_of_cons. repeat split; auto; discriminate. }
  destruct (String.eqb_spec key "__proto__") as [->|Hp].
  { rewrite !elem_of_cons. repeat split; auto 10; try discriminate; done. }
  destruct (existsb (String.eqb key) OBJECT_PROTOTYPE_METHODS) eqn:Hm.
  { rewrite !elem_of_cons. repeat split; auto 10; try discriminate; try done.
    intros _ Hnot. exfalso. apply Hnot.
    apply existsb_exists in Hm as (k & Hin & Hk).
    apply String.eqb_eq in Hk as ->. by apply list_elem_of_In. }
  rewrite !elem_of_cons. repeat split; auto 10; try discriminate; done.
Qed.

Lemma rest_item_shape (p it : value) :
  rest_item p = inr it ->
  let level := Js.get_opt (Js.get_opt p "difficulty") "level" in
  Js.get_opt it "titleZh" = VNull
  /\ Js.get_opt it "difficulty" = difficulty_of (Js.toString level)
  /\ (exists b, Js.get_opt it "paidOnly" = VBool b)
  /\ (exists s, Js.get_opt it "frontendId" = VStr s)
  /\ (Js.get_opt it "acRate" = VNull
      \/ exists n, Js.get_opt it "acRate" = VNum n).
Proof.
  intros Hit level.
  pose proof (rest_item_cases p) as Hc.
  destruct (rest_pair_throws p); [destruct Hc as [e He]; congruence|].
  cbv zeta in Hc. rewrite Hc in Hit. injection Hit as <-.
  change (Js.get_opt (VObj ?l) ?k) with (default VUndef (Js.assoc k l)).
  cbn [Js.assoc String.eqb Ascii.eqb Bool.eqb default from_option Datatypes.id].
  split; [done|]. split; [done|].
  split; [eauto|]. split; [eauto|].
  destruct (JsNumber.gt _ _); eauto.
Qed.

(** The REST path of the list.  When the request does not ask for Chinese
    and the catalogue answers 2xx with a body that parses, the handler
    sends that one request and leaves the session map as it was.  The items
    are built from the pairs of the body ([stat_status_pairs], or none when
    that is not an array), one per pair and in the order of the pairs; the
    handler throws when one of them cannot be built.  With an empty search
    text the answer is 200 with all the items; otherwise it is 200 with
    exactly the items that pass the test of the search, in order, and the
    handler throws when the test throws on one of them (a title or a slug
    that does not convert).  No item has a localized title.  The difficulty
    of an item is Easy, Medium or Hard for the levels 1, 2 and 3 and Unknown
    for any other level, except for a level that names a property every
    object inherits: [__proto__] gives the empty object, and the name of a
    method (such as [constructor]) gives a function, which the JSON answer
    leaves out. *)
Theorem rest_list_filters_and_never_localizes
    (req : Request) (w w' : W) (m : gmap string Session)
    (sid : string) (session : Session)
    (r : UpResponse) (text : string) (raw : value) :
  let q := JsString.toLowerCase (trimmed (query_param req "q") "") in
  let category :=
    or_default (trimmed (query_param req "category") "algorithms")
               "algorithms" in
  let rq := lcFetch_request (Some session)
              ("/api/problems/" +:+ encodeURIComponent category +:+ "/")
              {| init_method := Some "GET"; init_headers := [];
                 init_body := None |} in
  let pairs := match Js.get_opt raw "stat_status_pairs" with
               | VArr ps => ps
               | _ => []
               end in
  let accepts it := match rest_matches q it with
                    | inr b => b
                    | inl _ => false
                    end in
  let e := run (get_problems req) w m in
  truthy_sid req = Some sid -> m !! sid = Some session ->
  is_zh (problems_lang req) = false ->
  fetch_step w rq = (Responded r, w') -> up_ok r = true ->
  up_text r = Some text -> JSON_parse text = Some raw ->
  trace e = [rq] /\ sessions e = m
  /\ (forall x, map_exn rest_item pairs = inl x -> result e = Threw x)
  /\ (forall images, map_exn rest_item pairs = inr images ->
        Forall2 (fun p it => rest_item p = inr it) pairs images
        /\ (q = EmptyString ->
              result e = Returned (json 200 (VObj [("items", VArr images)])))
        /\ (q <> EmptyString ->
              (forall x, filter_exn (rest_matches q) images = inl x ->
                 result e = Threw x)
              /\ (forall kept, filter_exn (rest_matches q) images = inr kept ->
                    kept = List.filter accepts images
                    /\ result e
                       = Returned (json 200 (VObj [("items", VArr kept)]))))
        /\ Forall (fun it =>
                     Js.get_opt it "titleZh" = VNull
                     /\ Js.get_opt it "difficulty"
                        ∈ [VStr "Easy"; VStr "Medium"; VStr "Hard";
                           VStr "Unknown"; VObj []; VUndef])
                  images)
  /\ (forall p it, rest_item p = inr it ->
        let key := Js.toString (Js.get_opt (Js.get_opt p "difficulty") "level") in
        Js.get_opt it "difficulty" = difficulty_of key
        /\ (key <> "__proto__" -> key ∉ OBJECT_PROTOTYPE_METHODS ->
            Js.get_opt it "difficulty"
              ∈ [VStr "Easy"; VStr "Medium"; VStr "Hard"; VStr "Unknown"])
        /\ (Js.get_opt it "difficulty" = VStr "Easy" <-> key = "1")
        /\ (Js.get_opt it "difficulty" = VStr "Medium" <-> key = "2")
        /\ (Js.get_opt it "difficulty" = VStr "Hard" <-> key = "3")).
Proof.
  intros q category rq pairs accepts e Hsid Hm Hzh Hstep Hok Htext Hparse.
  assert (e = andThen
                {| result := Returned tt; sessions := m; world := w';
                   trace := [rq] |}
                (fun _ w1 m1 =>
                   run (bind (lift (map_exn rest_item pairs)) (fun items =>
                        bind (if JsString.nonempty q
                              then lift (filter_exn (rest_matches q) items)
                              else Ret items) (fun items =>
                        Ret (json 200 (VObj [("items", VArr items)])))))
                       w1 m1)) as He.
  { subst e. unfold get_problems.
    rewrite run_bind, (run_getSession _ _ _ _ _ Hsid Hm).
    unfold andThen. cbn [result sessions world trace app].
    rewrite Hzh. rewrite run_bind. cbn [run]. unfold andThen.
    cbn [result sessions world trace app].
    unfold problems_list, problems_rest. fold q category.
    rewrite run_bind, run_lcFetch. fold rq. rewrite Hstep.
    unfold andThen. cbn [result sessions world trace app].
    rewrite Hok. cbn [negb]. rewrite run_bind. unfold resp_text.
    rewrite Htext. unfold andThen. cbn [run result sessions world trace app].
    rewrite Hparse. fold pairs.
    destruct (run _ w' m) as [res m1 w1 t1]. by destruct res. }
  rewrite He. clear He. unfold andThen.
  cbn [result sessions world trace]. rewrite run_bind. unfold andThen.
  assert (forall p it, rest_item p = inr it ->
            Js.get_opt it "titleZh" = VNull
            /\ Js.get_opt it "difficulty"
               = difficulty_of
                   (Js.toString (Js.get_opt (Js.get_opt p "difficulty") "level")))
    as Hshape.
  { intros p it Hit. destruct (rest_item_shape p it Hit) as (? & ? & _). done. }
  split; [|split; [|split; [|split]]].
  - destruct (map_exn rest_item pairs) as [x|images];
      cbn [lift run result sessions world trace]; [done|].
    rewrite run_bind. unfold andThen.
    destruct (JsString.nonempty q);
      [destruct (filter_exn (rest_matches q) images)|];
      cbn [lift run result sessions world trace]; done.
  - destruct (map_exn rest_item pairs) as [x|images];
      cbn [lift run result sessions world trace]; [done|].
    rewrite run_bind. unfold andThen.
    destruct (JsString.nonempty q);
      [destruct (filter_exn (rest_matches q) images)|];
      cbn [lift run result sessions world trace]; done.
  - intros x ->. done.
  - intros images Hmap. rewrite Hmap.
    cbn [lift run result sessions world trace].
    rewrite run_bind. unfold andThen.
    split; [by apply map_exn_Forall2|]. split; [by intros ->|]. split.
    + intros Hq%nonempty_true. rewrite Hq. split.
      * intros x ->. done.
      * intros kept Hkept. rewrite Hkept.
        destruct (filter_exn_inr _ _ _ Hkept) as [_ ->]. done.
    + eapply Forall_impl; [apply (map_exn_Forall _ _ _ Hmap)|].
      intros it [p Hp]. destruct (Hshape p it Hp) as [-> ->].
      split; [done|]. apply difficulty_of_cases.
  - intros p it Hit. cbv zeta. destruct (Hshape p it Hit) as [_ ->].
    split; [done|].
    by destruct (difficulty_of_cases
                   (Js.toString (Js.get_opt (Js.get_opt p "difficulty") "level")))
      as [_ Hrest].
Qed.

Lemma coalesce_null_idem (v : value) :
  Js.coalesce (Js.coalesce v VNull) VNull = Js.coalesce v VNull.
Proof. by destruct v. Qed.

(** Normalizing a profile twice is normalizing it once: the profile stored
    in a session can be normalized again, for the same domain, without
    changing it. *)
Theorem normalizeUser_is_idempotent (dom : string) (userStatus : value) :
  normalizeUser dom (normalizeUser dom userStatus) = normalizeUser dom userStatus.
Proof.
  destruct (Js.truthy userStatus) eqn:Hus.
  2:{ assert (normalizeUser dom userStatus = VNull) as ->; [|reflexivity].
      unfold normalizeUser. by rewrite Hus. }
  unfold normalizeUser. rewrite Hus. cbn [negb].
  destruct (isCnDomain dom) eqn:Hcn; cbn [Js.truthy negb];
    change (Js.get_opt (VObj ?l) ?k) with (default VUndef (Js.assoc k l));
    cbn [Js.assoc String.eqb Ascii.eqb Bool.eqb default from_option Datatypes.id];
    rewrite !coalesce_null_idem; cbn [Js.truthy];
    repeat f_equal;
    destruct (Js.get_opt userStatus "is_verified") as [| |b|n|s|l|o];
    reflexivity.
Qed.

End ShapeFacts.

(* ===================================================================== *)
(** * The value of a cookie pair, the leetcode.cn map, submission ids *)
(* ===================================================================== *)

Section ValueFacts.
Context `{JsLib} {W : Type} `{World W}.
Import CookieRegex.

Lemma take_value_split (r : string) :
  exists after,
    r = take_value r +:+ after
    /\ (after = EmptyString \/ exists r', after = String ";"%char r')
    /\ (forall a b, take_value r <> a +:+ String ";"%char b).
Proof.
  induction r as [|c r (after & Hr & Hafter & Hno)]; simpl.
  - exists EmptyString. split; [done|]. split; [by left|].
    intros [|? ?] b; discriminate.
  - destruct (Ascii.eqb_spec c ";"%char) as [->|Hc].
    + exists (String ";"%char r). split; [done|]. split; [eauto|].
      intros [|? ?] b; discriminate.
    + exists after. rewrite append_cons, <- Hr. split; [done|].
      split; [done|].
      intros [|c' a] b; rewrite ?append_nil, ?append_cons; intros [= ? Heq];
        [congruence|]. by apply (Hno a b).
Qed.

Lemma match_pair_value (name s v : string) :
  match_pair name s = Some v ->
  exists n after,
    s = n +:+ String "="%char (v +:+ after)
    /\ same_name name n
    /\ (after = EmptyString \/ exists r', after = String ";"%char r')
    /\ (forall a b, v <> a +:+ String ";"%char b).
Proof.
  unfold match_pair.
  destruct (match_name name s) as [[|c r]|] eqn:Hm; try done.
  destruct (Ascii.eqb_spec c "="%char) as [->|]; [|done].
  destruct (JsString.nonempty (take_value r)); [|done].
  intros [= <-]. apply match_name_spec in Hm as (n & -> & Hn).
  destruct (take_value_split r) as (after & Hr & Hafter & Hno).
  exists n, after. by rewrite <- Hr.
Qed.

Lemma match_after_ws_value (name s v : string) :
  match_after_ws name s = Some v ->
  exists before n after,
    s = before +:+ n +:+ String "="%char (v +:+ after)
    /\ same_name name n
    /\ (after = EmptyString \/ exists r', after = String ";"%char r')
    /\ (forall a b, v <> a +:+ String ";"%char b).
Proof.
  assert (match_pair name s = Some v ->
          exists before n after,
            s = before +:+ n +:+ String "="%char (v +:+ after)
            /\ same_name name n
            /\ (after = EmptyString \/ exists r', after = String ";"%char r')
            /\ (forall a b, v <> a +:+ String ";"%char b)) as Hpair.
  { intros (n & after & ? & ?)%match_pair_value. by exists EmptyString, n, after. }
  revert Hpair. induction s as [|c r IH]; simpl; [auto|].
  intros Hpair. destruct (JsString.is_ws c); [|done].
  destruct (match_after_ws name r) as [v'|] eqn:Hr; [|done].
  intros [= ->].
  destruct IH as (before & n & after & -> & ?); [|done|].
  - intros (n & after & ? & ?)%match_pair_value. by exists EmptyString, n, after.
  - exists (String c before), n, after. by rewrite append_cons.
Qed.

Lemma search_value (at_start : bool) (name s v : string) :
  search at_start name s = Some v ->
  exists before n after,
    s = before +:+ n +:+ String "="%char (v +:+ after)
    /\ same_name name n
    /\ (after = EmptyString \/ exists r', after = String ";"%char r')
    /\ (forall a b, v <> a +:+ String ";"%char b).
Proof.
  revert at_start.
  induction s as [|c r IH]; intros at_start; simpl; unfold match_at.
  - destruct at_start; [|done].
    destruct (match_pair name EmptyString) as [v'|] eqn:Hp; [|done].
    intros [= ->]. apply match_pair_value in Hp as (n & after & ? & ?).
    by exists EmptyString, n, after.
  - destruct (if at_start then match_pair name (String c r) else None)
      as [v'|] eqn:Hs.
    { intros [= ->]. destruct at_start; [|done].
      apply match_pair_value in Hs as (n & after & ? & ?).
      by exists EmptyString, n, after. }
    assert (search false name r = Some v ->
            exists before n after,
              String c r = before +:+ n +:+ String "="%char (v +:+ after)
              /\ same_name name n
              /\ (after = EmptyString \/ exists r', after = String ";"%char r')
              /\ (forall a b, v <> a +:+ String ";"%char b)) as Hrec.
    { intros Hx. destruct (IH false Hx) as (before & n & after & -> & ?).
      exists (String c before), n, after. by rewrite append_cons. }
    destruct (Ascii.eqb c ";"%char); [|done].
    destruct (match_after_ws name r) as [v'|] eqn:Hr; [|done].
    intros [= ->].
    apply match_after_ws_value in Hr as (before & n & after & -> & ?).
    exists (String c before), n, after. by rewrite append_cons.
Qed.

(** The value [extractCookieValue] returns is the text that follows the
    equals sign of the matched name, up to the next semicolon or the end of
    the cookie text: it is not empty and holds no semicolon. *)
Theorem extracted_value_runs_to_the_semicolon (cookieStr name v : string) :
  extractCookieValue cookieStr name = Some v ->
  v <> EmptyString
  /\ (forall a b, v <> a +:+ String ";"%char b)
  /\ exists before n after,
       cookieStr = before +:+ n +:+ String "="%char (v +:+ after)
       /\ same_name name n
       /\ (after = EmptyString \/ exists r', after = String ";"%char r').
Proof.
  intros Hv. split.
  { apply nonempty_true. by eapply extractCookieValue_nonempty. }
  apply search_value in Hv as (before & n & after & ? & ? & ? & ?).
  split; [done|]. by exists before, n, after.
Qed.



(** What counts as a submission id.  On a 2xx answer [lcSubmit] reads
    [submission_id], and [submissionId] only when the former is [null] or
    absent; a falsy id (absent, [0], the empty string) is the failure
    NO_SUBMISSION_ID with the status of the answer, even when the other
    field holds an id; any other id is converted with [Number]: it is
    returned as a number when the conversion returns, and [lcSubmit] throws
    the TypeError of the conversion when the id holds an object with an own
    [toString]. *)
Theorem lcSubmit_reads_the_submission_id
    (session : option Session) (titleSlug : string) (questionId : value)
    (lang typedCode : string) (w w' : W) (m : gmap string Session)
    (r : UpResponse) :
  let parsed := parse_or_null (text_or_empty r) in
  let first := Js.get_opt parsed "submission_id" in
  let second := Js.get_opt parsed "submissionId" in
  let e := run (lcSubmit session titleSlug questionId lang typedCode) w m in
  let answer id :=
    if Js.convertible id then Returned (Ok (up_status r) (Js.toNumber id))
    else Threw Js.CONVERSION_ERROR in
  fetch_step w (lcFetch_request session
                  ("/problems/" +:+ encodeURIComponent titleSlug +:+ "/submit/")
                  (lcSubmit_init session titleSlug questionId lang typedCode))
    = (Responded r, w') ->
  up_ok r = true ->
  (Js.nullish first = false -> Js.truthy first = false ->
     exists raw, result e = Returned (Failed (up_status r) "NO_SUBMISSION_ID" raw))
  /\ (Js.truthy first = true -> result e = answer first)
  /\ (Js.nullish first = true -> Js.truthy second = true ->
        result e = answer second)
  /\ (Js.nullish first = true -> Js.truthy second = false ->
        exists raw, result e = Returned (Failed (up_status r) "NO_SUBMISSION_ID" raw))
  /\ (forall id, Js.ToNumber id = inr (Js.toNumber id) <-> Js.convertible id = true)
  /\ (forall n : number, answer (VNum n) = Returned (Ok (up_status r) n))
  /\ (forall props v, Js.assoc "toString" props = Some v ->
        answer (VObj props) = Threw Js.CONVERSION_ERROR).
Proof.
  intros parsed first second e answer Hstep Hok. subst e.
  assert (forall id,
            result (run (bind (lift (Js.ToNumber id))
                           (fun n => Ret (Ok (up_status r) n))) w' m)
            = answer id) as Hanswer.
  { intros id. subst answer. unfold Js.ToNumber. cbv beta.
    by destruct (Js.convertible id). }
  unfold lcSubmit. rewrite run_bind, run_lcFetch, Hstep. unfold andThen.
  cbn [result sessions world trace]. rewrite Hok. cbn [negb].
  fold parsed first second. unfold Js.coalesce.
  split; [|split; [|split; [|split; [|split; [|split]]]]].
  - intros -> ->. simpl. eauto.
  - intros Ht. assert (Js.nullish first = false) as ->.
    { by destruct first. }
    rewrite Ht. cbn [negb]. apply Hanswer.
  - intros -> ->. cbn [negb]. apply Hanswer.
  - intros -> ->. simpl. eauto.
  - intros id. unfold Js.ToNumber. destruct (Js.convertible id); split; done.
  - done.
  - intros props v Hv. subst answer. cbv beta. cbn [Js.convertible].
    by rewrite Hv.
Qed.

End ValueFacts.

(* ===================================================================== *)
(** * Lists of nodes, domains, GraphQL answers, and the cookie of a sign-in *)
(* ===================================================================== *)

Section MoreFacts.
Context `{JsLib} {W : Type} `{World W}.

Lemma forallb_false_Exists {A} (f : A -> bool) (l : list A) :
  forallb f l = false <-> Exists (fun x => f x = false) l.
Proof.
  induction l as [|x l IH]; simpl.
  - split; [done|]. by intros ?%Exists_nil.
  - rewrite Exists_cons, <- IH, andb_false_iff. done.
Qed.

(** The list is all or nothing.  The nodes of the GraphQL list, and the
    pairs of the REST catalogue, are either all mapped to items, one item
    per node in the order of the nodes, or the mapping throws; and it
    throws exactly when the item of one of them cannot be built: a node
    that is [null] or [undefined], or one of whose converted fields ([id],
    [frontendId], [acRate]; for a pair the two counts, the frontend id and
    the level) holds an object with an own [toString]. *)
Theorem one_failing_node_fails_the_list (nodes : list value) :
  ((exists e, map_exn gql_item nodes = inl e)
     <-> Exists (fun x => gql_node_throws x = true) nodes)
  /\ ((exists e, map_exn rest_item nodes = inl e)
     <-> Exists (fun p => rest_pair_throws p = true) nodes)
  /\ (forall x, gql_node_throws x = true <->
        Js.nullish x = true
        \/ Js.convertible (Js.get_opt x "id") = false
        \/ Js.convertible (Js.get_opt x "frontendId") = false
        \/ Js.convertible (Js.get_opt x "acRate") = false)
  /\ (forall p, rest_pair_throws p = true <->
        let stat := Js.or (Js.get_opt p "stat") (VObj []) in
        Js.nullish p = true
        \/ Js.convertible (Js.get_opt stat "total_acs") = false
        \/ Js.convertible (Js.get_opt stat "total_submitted") = false
        \/ Js.convertible (Js.get_opt stat "frontend_question_id") = false
        \/ Js.convertible (Js.get_opt (Js.get_opt p "difficulty") "level")
           = false)
  /\ (forall items, map_exn gql_item nodes = inr items <->
        Forall2 (fun x it => gql_item x = inr it) nodes items)
  /\ (forall items, map_exn rest_item nodes = inr items <->
        Forall2 (fun p it => rest_item p = inr it) nodes items)
  /\ (forall v, Js.convertible v = false <->
        (exists props, v = VObj props /\ is_Some (Js.assoc "toString" props))
        \/ (exists items, v = VArr items
              /\ Exists (fun x => Js.nullish x = false
                                  /\ Js.convertible x = false) items)).
Proof.
  split; [|split; [|split; [|split; [|split; [|split]]]]].
  - rewrite map_exn_fails. apply Exists_equiv. intros x. apply gql_item_throws.
  - rewrite map_exn_fails. apply Exists_equiv. intros p. apply rest_item_throws.
  - intros x. unfold gql_node_throws.
    rewrite !orb_true_iff, !negb_true_iff. tauto.
  - intros p. unfold rest_pair_throws. cbv zeta.
    rewrite !orb_true_iff, !negb_true_iff. tauto.
  - intros items. apply map_exn_Forall2.
  - intros items. apply map_exn_Forall2.
  - intros v. destruct v as [| |b|n|s|items|props]; cbn [Js.convertible].
    1-5: split; [done|]; intros [(? & [=] & _)|(? & [=] & _)].
    + rewrite forallb_false_Exists. split.
      * intros Hex. right. exists items. split; [done|].
        eapply Exists_impl; [exact Hex|]. intros x Hx. cbv beta in Hx.
        by apply orb_false_iff in Hx.
      * intros [(? & [=] & _)|(items' & [= <-] & Hex)].
        eapply Exists_impl; [exact Hex|]. intros x [Hn Hc]. cbv beta.
        by rewrite Hn, Hc.
    + destruct (Js.assoc "toString" props) as [v|] eqn:Hv.
      * split; [|done]. intros _. left. exists props. split; [done|].
        rewrite Hv. by eexists.
      * split; [done|]. intros [(props' & [= <-] & Hsome)|(? & [=] & _)].
        rewrite Hv in Hsome. by destruct Hsome.
Qed.

Lemma endsWith_spec (s suffix : string) :
  JsString.endsWith s suffix = true <-> exists pre, s = pre +:+ suffix.
Proof.
  induction s as [|c r IH].
  - destruct suffix as [|c' suffix]; simpl.
    + split; [by exists EmptyString|done].
    + split; [done|]. intros ([|? ?] & Hs); discriminate.
  - assert (JsString.endsWith (String c r) suffix =
              if String.eqb (String c r) suffix then true
              else JsString.endsWith r suffix) as -> by reflexivity.
    destruct (String.eqb_spec (String c r) suffix) as [<-|Hne].
    + split; [by exists EmptyString|done].
    + rewrite IH. split.
      * intros (pre & ->). exists (String c pre). by rewrite append_cons.
      * intros ([|c' pre] & Hs); [by rewrite append_nil in Hs|].
        rewrite append_cons in Hs. injection Hs as -> ->. eauto.
Qed.

Lemma last_char_append (pre suffix : string) :
  suffix <> EmptyString -> last_char (pre +:+ suffix) = last_char suffix.
Proof.
  intros Hne. induction pre as [|c pre IH]; [done|].
  rewrite append_cons. simpl. rewrite IH.
  destruct (pre +:+ suffix) eqn:Hs; [|done].
  destruct pre; [by rewrite append_nil in Hs|discriminate].
Qed.

(** The two kinds of domain.  A domain is on leetcode.cn when its
    lower-case form ends with [leetcode.cn], and on leetcode.com when it
    ends with [leetcode.com]; no domain is both, so a session on
    leetcode.cn never triggers the fill-in from leetcode.cn. *)
Theorem a_domain_is_never_both (dom : string) (q : value) :
  (isCnDomain dom = true <->
     exists pre, JsString.toLowerCase dom = pre +:+ "leetcode.cn")
  /\ (isComDomain dom = true <->
     exists pre, JsString.toLowerCase dom = pre +:+ "leetcode.com")
  /\ (isCnDomain dom = true -> isComDomain dom = false)
  /\ (isCnDomain dom = true -> forall cnQ, enrich_detail (isComDomain dom) cnQ q = inr q).
Proof.
  assert (isCnDomain dom = true -> isComDomain dom = false) as Hex.
  { unfold isCnDomain, isComDomain. intros (p1 & Hp1)%endsWith_spec.
    destruct (JsString.endsWith _ "leetcode.com") eqn:Hcom; [|done].
    apply endsWith_spec in Hcom as (p2 & Hp2).
    pose proof (last_char_append p1 "leetcode.cn" ltac:(done)) as H1.
    pose proof (last_char_append p2 "leetcode.com" ltac:(done)) as H2.
    rewrite <- Hp1 in H1. rewrite <- Hp2 in H2. rewrite H1 in H2.
    discriminate. }
  split; [apply endsWith_spec|]. split; [apply endsWith_spec|].
  split; [done|]. intros Hcn cnQ. unfold enrich_detail. by rewrite (Hex Hcn).
Qed.

(** A 2xx answer to a GraphQL query.  A body that is the JSON [null] makes
    [lcGraphql] throw a TypeError.  A body that is a JSON object is the
    failure GRAPHQL_ERROR when its [errors] has a truthy [length] (a
    non-empty array, but also a non-empty string), and otherwise the
    success carrying its [data]; an empty [errors] array is a success.
    Both report the status 200, whatever 2xx status the upstream sent. *)
Theorem lcGraphql_on_a_2xx_answer
    (session : option Session) (query : string) (variables : value)
    (w w' : W) (m : gmap string Session) (r : UpResponse) (text : string) :
  let e := run (lcGraphql session query variables) w m in
  fetch_step w (lcFetch_request session "/graphql/"
                  (lcGraphql_init query variables)) = (Responded r, w') ->
  up_ok r = true -> up_text r = Some text ->
  (JSON_parse text = Some VNull -> exists msg, result e = Threw (TypeError msg))
  /\ (forall props, JSON_parse text = Some (VObj props) ->
        let errors := Js.get_opt (VObj props) "errors" in
        (Js.truthy (Js.get_opt errors "length") = true ->
           result e = Returned (Failed 200 "GRAPHQL_ERROR" (VObj props)))
        /\ (Js.truthy (Js.get_opt errors "length") = false ->
              result e = Returned (Ok 200 (Js.get_opt (VObj props) "data")))
        /\ (errors = VArr [] \/ Js.nullish errors = true ->
              result e = Returned (Ok 200 (Js.get_opt (VObj props) "data")))
        /\ (forall x rest, errors = VArr (x :: rest) ->
              result e = Returned (Failed 200 "GRAPHQL_ERROR" (VObj props)))).
Proof.
  intros e Hstep Hok Htext. subst e.
  unfold lcGraphql. rewrite run_bind, run_lcFetch, Hstep. unfold andThen.
  cbn [result sessions world trace].
  rewrite run_bind. unfold resp_text. rewrite Htext. unfold andThen.
  cbn [run result sessions world trace]. split.
  - intros ->. rewrite Hok. cbn. eauto.
  - intros props ->. rewrite Hok. cbn [negb]. cbv zeta.
    assert (forall b, Js.truthy (Js.get_opt (Js.get_opt (VObj props) "errors")
                                    "length") = b ->
              result (run (let* errors := lift (Js.get (VObj props) "errors") in
                           if Js.truthy (Js.get_opt errors "length")
                           then Ret (Failed 200 "GRAPHQL_ERROR" (VObj props))
                           else let* data := lift (Js.get (VObj props) "data") in
                                Ret (Ok 200 data))%prog w' m)
              = Returned (if b then Failed 200 "GRAPHQL_ERROR" (VObj props)
                          else Ok 200 (Js.get_opt (VObj props) "data"))) as Hrun.
    { intros b Hb. cbn [Js.get lift bind].
      change (default VUndef (Js.assoc "errors" props))
        with (Js.get_opt (VObj props) "errors").
      rewrite Hb. by destruct b. }
    split; [|split; [|split]].
    + intros Hb. by rewrite (Hrun true Hb).
    + intros Hb. by rewrite (Hrun false Hb).
    + intros Hempty. rewrite (Hrun false); [done|].
      destruct Hempty as [->|Hn]; [done|].
      by destruct (Js.get_opt (VObj props) "errors").
    + intros x rest Herr. rewrite (Hrun true); [done|]. by rewrite Herr.
Qed.

(** The cookie of a sign-in authenticates.  After a sign-in answered 200,
    a request that carries the identifier set in the response (which
    [crypto.randomUUID] never leaves empty) finds in the session map the
    session of the signed-in user; and after a logout with that cookie it
    finds none. *)
Theorem sign_in_cookie_authenticates
    (req next : Request) (w w1 w2 : W) (m : gmap string Session)
    (resp : HttpResponse) :
  let e := run (post_auth_cookie req) w m in
  result e = Returned resp -> res_status resp = 200%Z ->
  exists sid s,
    res_cookies resp = [ClearCookie "lc_sid"; SetCookie "lc_sid" sid]
    /\ (sid <> EmptyString -> req_lc_sid next = Some sid ->
        result (run (getSession next) w1 (sessions e)) = Returned (Some (sid, s))
        /\ Js.truthy (Js.get_opt (user s) "is_signed_in") = true
        /\ res_body resp =
             VObj [("user", user s);
                   ("emailNotVerified", VBool (emailNotVerified (user s)))]
        /\ result (run (getSession next) w2
                     (sessions (run (post_auth_logout next) w1 (sessions e))))
           = Returned None).
Proof.
  intros e Hres Hst. subst e.
  destruct (post_auth_cookie_outcomes req w m) as [_ Hret].
  destruct (Hret resp Hres) as (_ & _ & H200).
  destruct (H200 Hst) as (sid & u & Hcookies & Hbody & Hin & Hstore & _).
  exists sid, (set_user (provisional_session (signin_cookie req)
                                             (signin_domain req)) u).
  split; [exact Hcookies|].
  intros Hne%nonempty_true Hnext.
  assert (truthy_sid next = Some sid) as Hsid.
  { unfold truthy_sid. by rewrite Hnext, Hne. }
  split; [|split; [exact Hin|split; [exact Hbody|]]].
  - erewrite (run_getSession next sid); [done|exact Hsid|].
    rewrite Hstore. apply lookup_insert_eq.
  - unfold post_auth_logout. rewrite run_bind, run_clearSession.
    unfold andThen. cbn [result sessions world trace run]. rewrite Hsid.
    rewrite run_getSession_none; [done|].
    intros sid' Hsid'. rewrite Hsid in Hsid'. injection Hsid' as <-.
    apply lookup_delete_eq.
Qed.

End MoreFacts.

(* ===================================================================== *)
(** * The paths of the list, of the detail and of a submission *)
(* ===================================================================== *)

Section PathFacts.
Context `{JsLib} {W : Type} `{World W}.


(** The fill-in of the detail.  When the session is on leetcode.com and the
    question has neither a localized title nor a localized content, the
    handler asks leetcode.cn for the same slug, after the first query and
    from the world it left.  A failed answer of leetcode.cn, or one without
    a question, is silent: the question is returned as it is.  An
    unreachable leetcode.cn makes the request throw.  A question of
    leetcode.cn gives the localized title: its [translated_title], or else
    its [title]. *)
Theorem problem_detail_fill_in
    (req : Request) (w : W) (m : gmap string Session)
    (sid : string) (session : Session) (st : Z) (data : value) :
  let slug := trimmed (route_param req "slug") "" in
  let eQ := run (lcQuestion (Some session) slug) w m in
  let eC := run (lcQuestion (Some cnSession) slug) (world eQ) m in
  let e := run (get_problem req) w m in
  let q := Js.get_opt data "question" in
  truthy_sid req = Some sid -> m !! sid = Some session ->
  slug <> EmptyString ->
  result eQ = Returned (Ok st data) ->
  Js.truthy q = true ->
  isComDomain (default "" (domain session)) = true -> missingZh q = true ->
  trace e = trace eQ ++ trace eC
  /\ (forall x, result eC = Threw x -> result e = Threw x)
  /\ (forall cn, result eC = Returned cn ->
        result e = match fill_detail (question_of cn) q with
                   | inr q' => Returned (json 200 (VObj [("question", q')]))
                   | inl x => Threw x
                   end)
  /\ (forall st' code raw, result eC = Returned (Failed st' code raw) ->
        result e = Returned (json 200 (VObj [("question", q)])))
  /\ (forall st' cnData, result eC = Returned (Ok st' cnData) ->
        Js.truthy (Js.get_opt cnData "question") = false ->
        result e = Returned (json 200 (VObj [("question", q)])))
  /\ (forall st' cnData fields, result eC = Returned (Ok st' cnData) ->
        Js.truthy (Js.get_opt cnData "question") = true ->
        q = VObj fields ->
        exists fields',
          result e = Returned (json 200 (VObj [("question", VObj fields')]))
          /\ Js.get_opt (VObj fields') "translated_title"
             = Js.or (Js.or (Js.get_opt (Js.get_opt cnData "question")
                                        "translated_title")
                            (Js.get_opt (Js.get_opt cnData "question") "title"))
                     (Js.get_opt q "translated_title")).
Proof.
  intros slug eQ eC e q Hsid Hm Hs%nonempty_true HQ Hq Hcom Hmiss.
  assert (sessions eQ = m) as HmQ
    by apply read_only_sessions, lcQuestion_read_only.
  assert (forall cn, result eC = Returned cn ->
            result e = match fill_detail (question_of cn) q with
                       | inr q' => Returned (json 200 (VObj [("question", q')]))
                       | inl x => Threw x
                       end) as Hcn.
  { intros cn HC. subst e.
    unfold get_problem. rewrite run_bind, (run_getSession _ _ _ _ _ Hsid Hm).
    unfold andThen. cbn [result sessions world trace app]. fold slug.
    rewrite Hs. cbn [negb]. rewrite run_bind. fold eQ. unfold andThen.
    rewrite HQ, HmQ. cbn [result sessions world trace]. fold q.
    rewrite Hq, Hcom, Hmiss. cbn [negb andb].
    rewrite run_bind. fold eC. unfold andThen. rewrite HC.
    cbn [result sessions world trace]. rewrite run_bind. unfold andThen.
    by destruct (fill_detail (question_of cn) q). }
  split; [|split; [|split; [exact Hcn|split; [|split]]]].
  - subst e.
    unfold get_problem. rewrite run_bind, (run_getSession _ _ _ _ _ Hsid Hm).
    unfold andThen. cbn [result sessions world trace app]. fold slug.
    rewrite Hs. cbn [negb]. rewrite run_bind. fold eQ. unfold andThen.
    rewrite HQ, HmQ. cbn [result sessions world trace]. fold q.
    rewrite Hq, Hcom, Hmiss. cbn [negb andb].
    rewrite run_bind. fold eC. unfold andThen.
    destruct (result eC) as [cn|x]; cbn [result sessions world trace]; [|done].
    rewrite run_bind. unfold andThen.
    destruct (fill_detail (question_of cn) q);
      cbn [lift run result sessions world trace]; by rewrite ?app_nil_r.
  - intros x HC. subst e.
    unfold get_problem. rewrite run_bind, (run_getSession _ _ _ _ _ Hsid Hm).
    unfold andThen. cbn [result sessions world trace app]. fold slug.
    rewrite Hs. cbn [negb]. rewrite run_bind. fold eQ. unfold andThen.
    rewrite HQ, HmQ. cbn [result sessions world trace]. fold q.
    rewrite Hq, Hcom, Hmiss. cbn [negb andb].
    rewrite run_bind. fold eC. unfold andThen. by rewrite HC.
  - intros st' code raw HC. by rewrite (Hcn _ HC).
  - intros st' cnData HC Hno. rewrite (Hcn _ HC).
    unfold fill_detail, question_of. by rewrite Hno.
  - intros st' cnData fields HC Hyes Hobj. rewrite (Hcn _ HC).
    unfold fill_detail, question_of. rewrite Hyes, Hobj.
    cbn [set_prop]. eexists. split; [reflexivity|].
    rewrite get_opt_set_ne by done. apply get_opt_set_eq.
Qed.


End PathFacts.

(* ===================================================================== *)
(** * Instances of the theorems, on the scripted upstream *)
(* ===================================================================== *)

Import Demo.

(** The cookie matcher on small inputs. *)
Example extract_csrftoken :
  extractCookieValue ann_cookie "csrftoken" = Some "abc".
Proof. reflexivity. Qed.

Example extract_session_after_semicolon :
  extractCookieValue ann_cookie "LEETCODE_SESSION" = Some "xyz".
Proof. reflexivity. Qed.

Example extract_ignores_case :
  extractCookieValue "a=b;CSRFToken=q r;z" "csrftoken" = Some "q r".
Proof. reflexivity. Qed.

Example extract_needs_a_boundary :
  extractCookieValue "xcsrftoken=abc" "csrftoken" = None.
Proof. reflexivity. Qed.

Example extract_needs_a_value :
  extractCookieValue "a; csrftoken=;csrftoken=2" "csrftoken" = Some "2".
Proof. reflexivity. Qed.

Example trim_both_ends : JsString.trim "  a b  " = "a b".
Proof. reflexivity. Qed.

Example cn_domain : isCnDomain "LeetCode.CN" = true /\ isCnDomain "leetcode.com" = false.
Proof. split; reflexivity. Qed.

Example parse_what_the_upstream_sends : parse (stringify judged) = Some judged.
Proof. reflexivity. Qed.

(** C1, an instance: a first answer that is not JSON and
    a second one that is not JSON either. *)
Lemma fallback_returns_first_failure_witness :
  let w := Demo.script [Demo.answer 500 "a"; Demo.answer 500 "b"] in
  result (run (lcProblemsetQuestionList (Some Demo.ann) VNull) w ∅)
  = Returned (Failed 500 "INVALID_JSON" (VStr "a"))
  /\ length (trace (run (lcProblemsetQuestionList (Some Demo.ann) VNull) w ∅)) = 2%nat.
Proof.
  intros w.
  destruct (fallback_returns_first_failure (Some Demo.ann) VNull "two-sum" w ∅)
    as [[_ [_ Hboth]] _].
  destruct (Hboth (Failed 500 "INVALID_JSON" (VStr "a"))
                  (Failed 500 "INVALID_JSON" (VStr "b"))
                  eq_refl eq_refl eq_refl eq_refl) as [Hres Htrace].
  split; [exact Hres|]. rewrite Htrace. reflexivity.
Defined.

(** C1 as stated fails: with two failing answers that differ, the result of
    the fallback is the first failure and differs from the second. *)
Lemma fallback_second_failure_counterexample :
  let w := Demo.script [Demo.answer 500 "a"; Demo.answer 500 "b"] in
  let eA := run (lcGraphql (Some Demo.ann) QUERY_PROBLEMSET_LIST VNull) w ∅ in
  let eB := run (lcGraphql (Some Demo.ann) QUERY_PROBLEMSET_LIST_TITLECN VNull)
                (world eA) (sessions eA) in
  result eA = Returned (Failed 500 "INVALID_JSON" (VStr "a"))
  /\ result eB = Returned (Failed 500 "INVALID_JSON" (VStr "b"))
  /\ result (run (lcProblemsetQuestionList (Some Demo.ann) VNull) w ∅) = result eA
  /\ result (run (lcProblemsetQuestionList (Some Demo.ann) VNull) w ∅) <> result eB.
Proof.
  vm_compute. repeat split; discriminate.
Qed.

(** C8, an instance: the cookie text of the session has spaces around the
    CSRF token; the header carries the token without them. *)
Lemma lcFetch_request_shape_witness :
  let rq := lcFetch_request (Some carol) "/graphql/"
              (lcGraphql_init QUERY_USER_COM (VObj [])) in
  csrftoken carol = Some " abc "
  /\ rq_headers rq !! "x-csrftoken" = Some "abc"
  /\ rq_headers rq !! "cookie" = Some "csrftoken= abc ; LEETCODE_SESSION=xyz"
  /\ rq_headers rq !! "referer" = Some "https://leetcode.com/"
  /\ rq_url rq = "https://leetcode.com/graphql/".
Proof.
  destruct (lcFetch_request_shape (Some carol) "/graphql/"
              (lcGraphql_init QUERY_USER_COM (VObj [])) eq_refl)
    as (_ & Hurl & _ & _ & Hcookie & Htoken & _ & Hreferer & _).
  split; [reflexivity|]. split; [exact Htoken|]. split; [exact Hcookie|].
  split; [exact Hreferer|exact Hurl].
Defined.


(** C8 as stated fails: the session has a language preference, yet the
    request carries the caller's [accept-language], not the session's; and
    an absolute URL that does not start with [http] gets the domain in
    front, while a path that starts with [http] and is no URL is used as it
    is. *)
Lemma lcFetch_accept_language_counterexample :
  let init := {| init_method := Some "GET";
                 init_headers := [("accept-language", "fr")];
                 init_body := None |} in
  lcFetch_valid (Some ann) init = true
  /\ truthy_field (Some ann) acceptLanguage = Some ZH_PREFERENCE
  /\ rq_headers (lcFetch_request (Some ann) "/graphql/" init) !! "accept-language"
     = Some "fr"
  /\ rq_headers (lcFetch_request (Some ann) "/graphql/" init) !! "accept-language"
     <> Some ZH_PREFERENCE
  /\ rq_url (lcFetch_request (Some ann) "ftp://files.example/x" init)
     = "https://leetcode.comftp://files.example/x"
  /\ rq_url (lcFetch_request (Some ann) "httpx" init) = "httpx".
Proof.
  vm_compute. repeat split. discriminate.
Qed.


(** C7, instances: a 503 with a body that is not JSON, and an upstream that
    cannot be reached. *)
Lemma helpers_surface_upstream_failures_witness :
  result (run (lcGraphql (Some ann) QUERY_USER_COM (VObj []))
              (script [answer 503 "Service Unavailable"]) ∅)
  = Returned (Failed 503 "INVALID_JSON" (VStr "Service Unavailable"))
  /\ result (run (lcSubmit (Some ann) "two-sum" (VStr "1") "cpp" "int main(){}")
                 (script [Unreachable "fetch failed"]) ∅)
     = Threw (NetworkError "fetch failed").
Proof.
  split.
  - destruct (helpers_surface_upstream_failures (Some ann) QUERY_USER_COM
                (VObj []) "two-sum" (VStr "1") "cpp" "int main(){}" (Fin 1) None
                (script [answer 503 "Service Unavailable"]) ∅)
      as (HG&_).
    exact (HG _ _ "Service Unavailable" eq_refl eq_refl eq_refl).
  - destruct (helpers_surface_upstream_failures (Some ann) QUERY_USER_COM
                (VObj []) "two-sum" (VStr "1") "cpp" "int main(){}" (Fin 1) None
                (script [Unreachable "fetch failed"]) ∅)
      as (_&_&_&_&_&HS&_).
    exact (HS _ _ eq_refl).
Defined.

(** C7 as stated fails: when the upstream cannot be reached the caller
    receives the exception of [fetch]; nothing carries the code
    UPSTREAM_UNREACHABLE. *)
Lemma upstream_unreachable_counterexample :
  let e := run (lcGraphql (Some ann) QUERY_USER_COM (VObj []))
               (script [Unreachable "fetch failed"]) ∅ in
  result e = Threw (NetworkError "fetch failed")
  /\ (forall st raw, result e <> Returned (Failed st "UPSTREAM_UNREACHABLE" raw))
  /\ result e <> Threw (NetworkError "UPSTREAM_UNREACHABLE").
Proof.
  vm_compute. repeat split; intros; discriminate.
Qed.

(** C2, an instance: a cookie text with a CSRF token and no session token. *)
Lemma sign_in_refuses_incomplete_cookie_witness :
  run (post_auth_cookie (sign_in_request "csrftoken=abc")) (script []) ∅
  = {| result :=
         Returned (json 400 (VObj [("error", VStr "COOKIE_INVALID");
                                   ("message", VStr MSG_COOKIE_INVALID)]));
       sessions := ∅; world := script []; trace := [] |}.
Proof.
  destruct (sign_in_refuses_incomplete_cookie
              (sign_in_request "csrftoken=abc") (script []) ∅ eq_refl eq_refl)
    as (_ & _ & Hinvalid).
  apply Hinvalid.
  - discriminate.
  - right. apply falsy_opt_extract. reflexivity.
Defined.


(** C2 as stated fails: an empty cookie text holds neither pair, yet the
    refusal is COOKIE_REQUIRED, not COOKIE_INVALID. *)
Lemma sign_in_empty_cookie_counterexample :
  let req := sign_in_request "" in
  ~ has_pair "csrftoken" (signin_cookie req)
  /\ ~ has_pair "LEETCODE_SESSION" (signin_cookie req)
  /\ result (run (post_auth_cookie req) (script []) ∅)
     = Returned (json 400 (VObj [("error", VStr "COOKIE_REQUIRED")]))
  /\ result (run (post_auth_cookie req) (script []) ∅)
     <> Returned (json 400 (VObj [("error", VStr "COOKIE_INVALID");
                                  ("message", VStr MSG_COOKIE_INVALID)])).
Proof.
  intros req. split; [|split; [|split]].
  - apply falsy_opt_extract. reflexivity.
  - apply falsy_opt_extract. reflexivity.
  - reflexivity.
  - vm_compute. discriminate.
Qed.






(** C6, an instance: an item with a localized title keeps it. *)
Lemma localization_fill_in_is_idempotent_witness :
  fill_titleZh other_titles titled_item = titled_item.
Proof.
  destruct (localization_fill_in_is_idempotent other_titles titled_item
              true VNull VNull (list_request "zh") (script []) store)
    as (_ & _ & Hkeep & _).
  apply Hkeep. reflexivity.
Defined.

(** C9, an instance: the upstream reports SUCCESS and the handler hands the
    payload over. *)
Lemma check_status_is_a_passthrough_witness :
  result (run (get_submission_check check_request)
              (script [answer 200 (stringify judged)]) store)
  = Returned (json 200 (VObj [("submission", judged)]))
  /\ sessions (run (get_submission_check check_request)
                   (script [answer 200 (stringify judged)]) store) = store.
Proof.
  destruct (check_status_is_a_passthrough check_request
              (script [answer 200 (stringify judged)]) (script [])
              store "sid-ann" ann
              {| up_status := 200; up_text := Some (stringify judged) |}
              (stringify judged) judged)
    as [Hrun Hstore]; try reflexivity.
  - discriminate.
  - split; [by rewrite Hrun | apply Hstore].
Defined.




(* ===================================================================== *)
(** * Instances of the further theorems *)
(* ===================================================================== *)

(** An authenticated status check goes to the session's domain. *)
Lemma credentials_stay_on_the_session_domain_witness :
  let e := run (get_submission_check check_request)
               (script [answer 200 (stringify judged)]) store in
  length (trace e) = 1%nat
  /\ Forall (fun rq => to_domain "leetcode.com" rq \/ anonymous_cn rq) (trace e).
Proof.
  split; [reflexivity|].
  exact (credentials_stay_on_the_session_domain GetSubmissionCheck check_request
           (script [answer 200 (stringify judged)]) store "sid-ann" ann
           eq_refl eq_refl ltac:(discriminate)).
Defined.

(** A list request on the empty session map. *)
Lemma protected_routes_require_a_session_witness :
  run (get_problems (list_request "zh")) (script []) ∅
  = {| result := Returned (json 401 (VObj [("error", VStr "NOT_AUTHENTICATED")]));
       sessions := ∅; world := script []; trace := [] |}.
Proof.
  apply (protected_routes_require_a_session GetProblems (list_request "zh")
           (script []) ∅).
  - intros sid _. apply lookup_empty.
  - rewrite !elem_of_cons. auto.
Defined.

(** After the logout, the cookie of the session authenticates nothing. *)
Lemma logout_ends_the_session_witness :
  let e := run (post_auth_logout check_request) (script []) store in
  sessions e !! "sid-ann" = None
  /\ result (run (get_submission_check check_request) (script []) (sessions e))
     = Returned NOT_AUTHENTICATED.
Proof.
  destruct (logout_ends_the_session check_request (script []) store
              GetSubmissionCheck (script []))
    as (_ & _ & Hnone & _ & Hnext).
  split; [apply Hnone; reflexivity|].
  apply Hnext. rewrite !elem_of_cons. auto 10.
Defined.

(** The upstream refuses the profile query: the session is dropped. *)
Lemma session_refresh_outcomes_witness :
  let e := run (get_auth_me check_request) (script [answer 403 "Forbidden"]) store in
  result e = Returned {| res_status := 401;
                         res_body := VObj [("error", VStr "SESSION_EXPIRED")];
                         res_cookies := [ClearCookie "lc_sid"] |}
  /\ sessions e = delete "sid-ann" store.
Proof.
  destruct (session_refresh_outcomes check_request
              (script [answer 403 "Forbidden"]) store "sid-ann" ann
              eq_refl eq_refl) as (Hfail & _).
  exact (Hfail 403%Z "INVALID_JSON" (VStr "Forbidden") eq_refl).
Defined.

(** A sign-in that the upstream confirms stores a session with its
    credentials. *)
Lemma sign_in_stores_only_signed_in_sessions_witness :
  exists sid u,
    signed_in_store
    = <[sid := set_user (provisional_session
                           (signin_cookie (sign_in_request ann_cookie))
                           (signin_domain (sign_in_request ann_cookie))) u]> ∅
    /\ session_ok (set_user (provisional_session
                               (signin_cookie (sign_in_request ann_cookie))
                               (signin_domain (sign_in_request ann_cookie))) u).
Proof.
  destruct (sign_in_stores_only_signed_in_sessions (sign_in_request ann_cookie)
              (script [answer 200 (stringify signed_in_unverified)]) ∅)
    as [_ Hret].
  destruct (Hret _ ltac:(vm_compute; reflexivity)) as (_ & _ & H200).
  destruct (H200 eq_refl) as (sid & u & _ & _ & _ & Hs & Hok).
  exists sid, u. split; [exact Hs|exact Hok].
Defined.

(** The session a sign-in stored carries its cookie and its token on the
    next upstream request; the token was cut out of the cookie text with
    the spaces around it, and the header has it without them. *)
Lemma stored_sessions_keep_their_credentials_witness :
  exists s, carol_store !! ann_sid = Some s
  /\ session_ok s
  /\ csrftoken s = Some " abc "
  /\ rq_headers (lcFetch_request (Some s) "/graphql/"
                   (lcGraphql_init QUERY_USER_COM (VObj []))) !! "cookie"
     = Some carol_cookie
  /\ rq_headers (lcFetch_request (Some s) "/graphql/"
                   (lcGraphql_init QUERY_USER_COM (VObj []))) !! "x-csrftoken"
     = Some "abc".
Proof.
  set (s := match carol_store !! ann_sid with
            | Some s => s
            | None => bob
            end).
  assert (carol_store !! ann_sid = Some s) as Hs
    by (vm_compute; reflexivity).
  exists s. split; [exact Hs|].
  destruct (stored_sessions_keep_their_credentials (W := Script)
              carol_store ann_sid s "/graphql/"
              (lcGraphql_init QUERY_USER_COM (VObj []))
              (reach_request ∅ PostAuthCookie (sign_in_request carol_cookie)
                 (script [answer 200 (stringify signed_in_unverified)])
                 reach_start)
              Hs)
    as (Hok & c & t & Hc & Ht & Hheaders).
  split; [exact Hok|]. split; [vm_compute; reflexivity|].
  destruct (Hheaders ltac:(vm_compute; reflexivity)) as [Hcookie Htoken].
  assert (Some c = Some carol_cookie) as [= ->]
    by (rewrite <- Hc; vm_compute; reflexivity).
  assert (Some t = Some " abc ") as [= ->]
    by (rewrite <- Ht; vm_compute; reflexivity).
  split; [exact Hcookie|exact Htoken].
Defined.




(** The list request of a signed-in session leaves the map as it is, here
    with an upstream that cannot be reached. *)
Lemma list_request_never_changes_a_reachable_map_witness :
  sessions (run (get_problems next_request) (script []) signed_in_store)
  = signed_in_store.
Proof.
  apply (list_request_never_changes_a_reachable_map signed_in_store
           next_request (script [])).
  exact (reach_request ∅ PostAuthCookie (sign_in_request ann_cookie)
           (script [answer 200 (stringify signed_in_unverified)]) reach_start).
Defined.

(** A submission leaves the session map as it is. *)
Lemma read_only_routes_keep_the_map_witness :
  sessions (run (post_submit (submit_request "cpp"))
                (script [answer 200 (stringify judged)]) store) = store.
Proof.
  apply (read_only_routes_keep_the_map PostSubmit (submit_request "cpp")
           (script [answer 200 (stringify judged)]) store).
  rewrite !elem_of_cons. auto 10.
Defined.

(** A submission without a language is refused before anything is sent;
    a complete one is sent once. *)
Lemma submission_is_validated_then_sent_witness :
  run (post_submit (submit_request "  ")) (script []) store
  = {| result := Returned (json 400 (VObj [("error", VStr "LANG_REQUIRED")]));
       sessions := store; world := script []; trace := [] |}
  /\ length (trace (run (post_submit (submit_request "cpp"))
                        (script [answer 200 (stringify judged)]) store)) = 1%nat.
Proof.
  split.
  - destruct (submission_is_validated_then_sent (submit_request "  ")
                (script []) store "sid-ann" ann eq_refl eq_refl
                eq_refl eq_refl eq_refl eq_refl)
      as (_ & _ & Hlang & _).
    apply Hlang; [discriminate|reflexivity].
  - destruct (submission_is_validated_then_sent (submit_request "cpp")
                (script [answer 200 (stringify judged)]) store "sid-ann" ann
                eq_refl eq_refl eq_refl eq_refl eq_refl eq_refl)
      as (_ & _ & _ & _ & Hsend).
    destruct Hsend as (Htrace & _);
      [discriminate|discriminate|discriminate|reflexivity|discriminate|].
    rewrite Htrace. reflexivity.
Defined.


(** A 2xx answer to the status check that is not JSON is handed over as
    [null]. *)
Lemma submission_check_edge_cases_witness :
  result (run (get_submission_check check_request)
              (script [answer 200 "pending"]) store)
  = Returned (json 200 (VObj [("submission", VNull)])).
Proof.
  destruct (submission_check_edge_cases check_request
              (script [answer 200 "pending"]) (script []) store "sid-ann" ann
              {| up_status := 200; up_text := Some "pending" |}
              eq_refl eq_refl) as (_ & Hsent).
  destruct (Hsent eq_refl eq_refl eq_refl) as (_ & Hnull).
  rewrite Hnull; [reflexivity|reflexivity|].
  right. right. exists "pending". split; reflexivity.
Defined.

(** The upstream answers the detail query with data that holds no
    question: 404. *)
Lemma problem_detail_without_fill_in_witness :
  result (run (get_problem problem_request)
              (script [answer 200 (stringify signed_in_unverified)]) store)
  = Returned (json 404 (VObj [("error", VStr "NOT_FOUND")])).
Proof.
  destruct (problem_detail_without_fill_in problem_request
              (script [answer 200 (stringify signed_in_unverified)]) store
              "sid-ann" ann eq_refl eq_refl) as (_ & Hslug).
  destruct Hslug as (_ & _ & Hok); [discriminate|].
  destruct (Hok 200%Z
              (VObj [("userStatus",
                      VObj [("name", VStr "ann"); ("is_signed_in", VBool true);
                            ("is_verified", VBool false)])]) eq_refl)
    as (Hmissing & _).
  apply Hmissing. reflexivity.
Defined.

(** A node without an [id] gets the id 0; a node whose [id] is an object
    with an own [toString] gives no item. *)
Lemma graphql_items_are_normalized_witness :
  (exists it q,
     gql_item titled_item = inr it /\ Js.get_opt it "id" = VNum (Fin q))
  /\ exists e, gql_item shadowed_node = inl e.
Proof.
  split.
  - destruct (graphql_items_are_normalized titled_item) as (_ & _ & Hit).
    destruct (Hit (match gql_item titled_item with
                   | inr it => it
                   | inl _ => VNull
                   end) eq_refl) as ((q & Hq) & _).
    eexists _, q. split; [reflexivity|exact Hq].
  - destruct (graphql_items_are_normalized shadowed_node) as (Hthrows & _).
    apply Hthrows. right. left. reflexivity.
Defined.


(** The cookie text of the examples: the token runs to the semicolon. *)
Lemma extracted_value_runs_to_the_semicolon_witness :
  "abc" <> EmptyString
  /\ (forall a b, "abc" <> a +:+ String ";"%char b)
  /\ exists before n after,
       ann_cookie = before +:+ n +:+ String "="%char ("abc" +:+ after)
       /\ same_name "csrftoken" n
       /\ (after = EmptyString \/ exists r', after = String ";"%char r').
Proof.
  apply (extracted_value_runs_to_the_semicolon ann_cookie "csrftoken" "abc").
  reflexivity.
Defined.


(** One node whose [id] does not convert, and the list throws. *)
Lemma one_failing_node_fails_the_list_witness :
  exists e, map_exn gql_item [titled_item; shadowed_node] = inl e.
Proof.
  destruct (one_failing_node_fails_the_list [titled_item; shadowed_node])
    as ((_ & Hfail) & _).
  apply Hfail. apply Exists_cons_tl, Exists_cons_hd. reflexivity.
Defined.


(** A domain on leetcode.cn is not on leetcode.com. *)
Lemma a_domain_is_never_both_witness : isComDomain "LeetCode.CN" = false.
Proof.
  destruct (a_domain_is_never_both "LeetCode.CN" VNull) as (_ & _ & Hex & _).
  apply Hex. reflexivity.
Defined.

(** A 200 whose body is the JSON [null] makes the helper throw. *)
Lemma lcGraphql_on_a_2xx_answer_witness :
  exists msg,
    result (run (lcGraphql (Some ann) QUERY_USER_COM (VObj []))
                (script [answer 200 "null"]) ∅) = Threw (TypeError msg).
Proof.
  destruct (lcGraphql_on_a_2xx_answer (H0 := script_world)
              (Some ann) QUERY_USER_COM (VObj [])
              (script [answer 200 "null"]) (script []) ∅
              {| up_status := 200; up_text := Some "null" |} "null"
              eq_refl eq_refl eq_refl) as (Hnull & _).
  apply Hnull. reflexivity.
Defined.

(** The identifier a sign-in sets finds the session of the signed-in user,
    and nothing after a logout. *)
Lemma sign_in_cookie_authenticates_witness :
  exists s,
    result (run (getSession next_request) (script []) signed_in_store)
    = Returned (Some (ann_sid, s))
    /\ Js.truthy (Js.get_opt (user s) "is_signed_in") = true
    /\ result (run (getSession next_request) (script [])
                 (sessions (run (post_auth_logout next_request) (script [])
                                signed_in_store)))
       = Returned None.
Proof.
  edestruct (sign_in_cookie_authenticates (H0 := script_world)
               (sign_in_request ann_cookie) next_request
               (script [answer 200 (stringify signed_in_unverified)])
               (script []) (script []) ∅)
    as (sid & s & Hcookies & Hnext);
    [vm_compute; reflexivity|reflexivity|].
  vm_compute in Hcookies. injection Hcookies as <-.
  destruct Hnext as (Hget & Hin & _ & Hout); [discriminate|reflexivity|].
  exists s. split; [exact Hget|]. split; [exact Hin|exact Hout].
Defined.


Section WiderUpstream.
#[local] Existing Instance wide_runtime | 0.

(** The English list, searched for [Two]: the one pair of the catalogue
    matches and has no localized title. *)
Lemma rest_list_filters_and_never_localizes_witness :
  exists item,
    rest_item rest_pair = inr item
    /\ result (run (get_problems search_request)
                   (script [answer 200 (stringify catalogue)]) store)
       = Returned (json 200 (VObj [("items", VArr [item])]))
    /\ Js.get_opt item "titleZh" = VNull
    /\ Js.get_opt item "difficulty" = VStr "Easy".
Proof.
  destruct (rest_list_filters_and_never_localizes (H := wide_runtime)
              (H0 := script_world) search_request
              (script [answer 200 (stringify catalogue)]) (script []) store
              "sid-ann" ann
              {| up_status := 200; up_text := Some (stringify catalogue) |}
              (stringify catalogue) catalogue
              eq_refl eq_refl eq_refl eq_refl eq_refl eq_refl eq_refl)
    as (_ & _ & _ & Himages & Hitem).
  destruct (Himages [match rest_item rest_pair with
                     | inr item => item
                     | inl _ => VNull
                     end] eq_refl) as (_ & _ & Hsearch & _).
  destruct Hsearch as [_ Hkept]; [discriminate|].
  destruct (Hkept _ eq_refl) as [_ Hres].
  destruct (Hitem rest_pair _ eq_refl) as (_ & _ & Heasy & _).
  eexists. split; [reflexivity|]. split; [exact Hres|].
  split; [reflexivity|]. apply Heasy. reflexivity.
Defined.


(** The upstream accepts the submission and names it 7; an id that is an
    object with an own [toString] makes [lcSubmit] throw. *)
Lemma lcSubmit_reads_the_submission_id_witness :
  result (run (lcSubmit (Some ann) "two-sum" (VStr "1") "cpp" "int main(){}")
              (script [answer 200 (stringify submitted)]) ∅)
  = Returned (Ok 200 (Fin 7))
  /\ result (run (lcSubmit (Some ann) "two-sum" (VStr "1") "cpp" "int main(){}")
                 (script [answer 200 (stringify submitted_shadowed)]) ∅)
     = Threw Js.CONVERSION_ERROR.
Proof.
  split.
  - destruct (lcSubmit_reads_the_submission_id (H := wide_runtime)
                (H0 := script_world) (Some ann) "two-sum" (VStr "1")
                "cpp" "int main(){}"
                (script [answer 200 (stringify submitted)]) (script []) ∅
                {| up_status := 200; up_text := Some (stringify submitted) |}
                eq_refl eq_refl) as (_ & Hfirst & _).
    apply Hfirst. reflexivity.
  - destruct (lcSubmit_reads_the_submission_id (H := wide_runtime)
                (H0 := script_world) (Some ann) "two-sum" (VStr "1")
                "cpp" "int main(){}"
                (script [answer 200 (stringify submitted_shadowed)])
                (script []) ∅
                {| up_status := 200;
                   up_text := Some (stringify submitted_shadowed) |}
                eq_refl eq_refl) as (_ & Hfirst & _).
    apply Hfirst. reflexivity.
Defined.


(** The detail of a session on leetcode.com: leetcode.cn gives the
    localized title. *)
Lemma problem_detail_fill_in_witness :
  let e := run (get_problem problem_request)
               (script [answer 200 (stringify detail);
                        answer 200 (stringify detail_cn)]) store in
  length (trace e) = 2%nat
  /\ result e = Returned (json 200 (VObj [("question",
       VObj [("id", VStr "1"); ("title", VStr "Two Sum");
             ("translated_title", VStr "Liang Shu Zhi He");
             ("translated_content", VUndef)])])).
Proof.
  destruct (problem_detail_fill_in (H := wide_runtime) (H0 := script_world)
              problem_request
              (script [answer 200 (stringify detail);
                       answer 200 (stringify detail_cn)]) store "sid-ann" ann
              200 (VObj [("question",
                          VObj [("id", VStr "1"); ("title", VStr "Two Sum")])])
              eq_refl eq_refl ltac:(discriminate) eq_refl eq_refl eq_refl eq_refl)
    as (Htrace & _ & Hcn & _).
  split; [rewrite Htrace; reflexivity|].
  rewrite (Hcn (Ok 200 (VObj [("question",
                  VObj [("id", VStr "1"); ("title", VStr "Liang Shu Zhi He")])]))
               eq_refl).
  reflexivity.
Defined.


End WiderUpstream.
